(** * PaySystem: the transactional core, embedded and verified

    The development follows the Go packages of the repository:
    [model] (rows and the status table), [repository] (the four stores
    on top of the relational database), [lock] (the lease-based mutex kept
    in the key-value store), [service] (pay, refund, order and account
    coordinators) and [job] (compensation job and outbox relay).

    Modelling conventions.
    - A Go [int64]/[int] is a [Z]; arithmetic done by Go wraps ([wrap64]),
      arithmetic done by the database inside an UPDATE is range checked
      ([sql_bigint]) and aborts the statement when it leaves BIGINT.
    - A table with a unique key that every statement addresses is a finite
      map on that key ([account] on [user_id], [outbox_message] on [id]);
      the other tables are lists kept in primary-key order, so that GORM's
      [First] (ORDER BY id LIMIT 1) is [find].  Unique indexes of those
      tables are checked by the insert.
    - A store statement is a function [DB -> result DB]; a transaction
      runs its body on a working copy and keeps it only when the body
      returns no error.  Reads that the code issues on the connection pool
      ([r.db]) rather than on the transaction handle see the committed
      store.
    - Time is a [Z] count of nanoseconds; the wall clock is part of the
      [World], next to the key-value store.  The store connection, the
      key-value connection and the context never fail or cancel; the
      message bus may fail (it is a section variable). *)

From stdpp Require Import gmap strings list fin_maps pretty sorting.
From Stdlib Require Import ZArith Lia.

Open Scope Z_scope.

(** ** Machine integers and time *)

Definition INT64_MIN : Z := - 2 ^ 63.
Definition INT64_MAX : Z := 2 ^ 63 - 1.

(** Go's two's-complement wrap-around on [int64]. *)
Definition wrap64 (z : Z) : Z := (z + 2 ^ 63) `mod` 2 ^ 64 - 2 ^ 63.

Definition in_int64 (z : Z) : bool := (INT64_MIN <=? z) && (z <=? INT64_MAX).

(** MySQL evaluates an expression on a signed BIGINT column exactly and
    rejects the statement (error 1690) when the value is out of range. *)
Definition sql_bigint (z : Z) : option Z := if in_int64 z then Some z else None.

(** [time.Duration] constants, in nanoseconds. *)
Definition Millisecond : Z := 1000000.
Definition Second : Z := 1000 * Millisecond.
Definition Minute : Z := 60 * Second.

(** [t.Sub(u)]: the difference saturates at the ends of [int64]. *)
Definition time_Sub (t u : Z) : Z := Z.max INT64_MIN (Z.min INT64_MAX (t - u)).

(** [time.Since(t)] for a clock reading [now]. *)
Definition time_Since (now t : Z) : Z := time_Sub now t.

(** ** Errors *)

Inductive error : Type :=
| ErrOrderNotFound
| ErrOrderStatusInvalid
| ErrDuplicateRequest
| ErrAccountNotFound
| ErrBalanceNotEnough
| ErrOptimisticLock
| ErrLockFailed
| ErrLockExpired
| ErrStore (reason : string)          (* raised by the database driver *)
| ErrNew (msg : string)               (* errors.New(msg) *)
| ErrWrap (msg : string) (cause : error). (* fmt.Errorf(msg + ": %w", cause) *)

#[global] Instance error_eq_dec : EqDecision error.
Proof. solve_decision. Defined.

(** [errors.Is]: follows the chain of wrapped causes. *)
Fixpoint errors_Is (err target : error) : bool :=
  bool_decide (err = target) ||
  match err with
  | ErrWrap _ cause => errors_Is cause target
  | _ => false
  end.

Inductive result (A : Type) : Type :=
| Ok (a : A)
| Err (e : error).
Arguments Ok {A} a.
Arguments Err {A} e.

Definition bind {A B : Type} (m : result A) (k : A -> result B) : result B :=
  match m with
  | Ok a => k a
  | Err e => Err e
  end.

(** [if err != nil { return fmt.Errorf(msg + ": %w", err) }] *)
Definition wrapping {A : Type} (msg : string) (m : result A) : result A :=
  match m with
  | Ok a => Ok a
  | Err e => Err (ErrWrap msg e)
  end.

Notation "'let*' x ':=' m 'in' k" := (bind m (fun x => k))
  (at level 10, x name, m at level 100, k at level 200).

(** ** package model *)

Module Account.
(** The auto-increment [ID] is not represented: the table is keyed by the
    unique [user_id]. *)
Record t : Type := mk {
  UserID : Z;
  Balance : Z;
  FrozenAmount : Z;
  Version : Z;
  CreatedAt : Z;
  UpdatedAt : Z
}.
End Account.

Module PayOrder.
Record t : Type := mk {
  OrderNo : string;
  RequestID : string;
  UserID : Z;
  Amount : Z;
  ProductType : string;
  ProductID : string;
  Status : string;
  ExpiredAt : Z;
  PaidAt : option Z;
  CreatedAt : Z;
  UpdatedAt : Z
}.

Definition set_status (status : string) (paid_at : option Z) (now : Z) (o : t) : t :=
  {| OrderNo := OrderNo o; RequestID := RequestID o; UserID := UserID o;
     Amount := Amount o; ProductType := ProductType o; ProductID := ProductID o;
     Status := status; ExpiredAt := ExpiredAt o;
     PaidAt := match paid_at with Some p => Some p | None => PaidAt o end;
     CreatedAt := CreatedAt o; UpdatedAt := now |}.

Definition created (now : Z) (o : t) : t :=
  {| OrderNo := OrderNo o; RequestID := RequestID o; UserID := UserID o;
     Amount := Amount o; ProductType := ProductType o; ProductID := ProductID o;
     Status := Status o; ExpiredAt := ExpiredAt o; PaidAt := PaidAt o;
     CreatedAt := now; UpdatedAt := now |}.
End PayOrder.

Module AccountTransaction.
Record t : Type := mk {
  TransactionNo : string;
  UserID : Z;
  OrderNo : string;
  Amount : Z;
  Type_ : string;
  BalanceBefore : Z;
  BalanceAfter : Z;
  Remark : string;
  CreatedAt : Z
}.

Definition created (now : Z) (x : t) : t :=
  {| TransactionNo := TransactionNo x; UserID := UserID x; OrderNo := OrderNo x;
     Amount := Amount x; Type_ := Type_ x; BalanceBefore := BalanceBefore x;
     BalanceAfter := BalanceAfter x; Remark := Remark x; CreatedAt := now |}.
End AccountTransaction.

Module OutboxMessage.
Record t : Type := mk {
  ID : Z;
  MessageKey : string;
  Topic : string;
  Payload : string;
  Status : string;
  RetryCount : Z;
  CreatedAt : Z;
  UpdatedAt : Z
}.
End OutboxMessage.

Module model.

Definition OrderStatusCreated : string := "CREATED".
Definition OrderStatusPaying : string := "PAYING".
Definition OrderStatusPaid : string := "PAID".
Definition OrderStatusFailed : string := "FAILED".
Definition OrderStatusClosed : string := "CLOSED".
Definition OrderStatusCancelled : string := "CANCELLED".
Definition OrderStatusRefunding : string := "REFUNDING".
Definition OrderStatusRefunded : string := "REFUNDED".

Definition TransactionTypeRecharge : string := "RECHARGE".
Definition TransactionTypePay : string := "PAY".
Definition TransactionTypeRefund : string := "REFUND".

Definition OutboxStatusPending : string := "PENDING".
Definition OutboxStatusSent : string := "SENT".
Definition OutboxStatusFailed : string := "FAILED".

Definition ValidStatusTransitions : gmap string (list string) :=
  <[OrderStatusCreated := [OrderStatusPaying; OrderStatusClosed; OrderStatusCancelled]]>
  (<[OrderStatusPaying := [OrderStatusPaid; OrderStatusFailed]]>
  (<[OrderStatusPaid := [OrderStatusRefunding]]>
  (<[OrderStatusRefunding := [OrderStatusRefunded]]> ∅))).

Definition CanTransitionTo (currentStatus targetStatus : string) : bool :=
  match ValidStatusTransitions !! currentStatus with
  | None => false
  | Some allowedStatuses =>
      existsb (fun s => bool_decide (s = targetStatus)) allowedStatuses
  end.

End model.

(** The edges of the order life cycle, as section 4.1 of the specification
    draws them. *)
Definition dag_edges : list (string * string) :=
  [("CREATED", "PAYING"); ("CREATED", "CLOSED"); ("CREATED", "CANCELLED");
   ("PAYING", "PAID"); ("PAYING", "FAILED");
   ("PAID", "REFUNDING");
   ("REFUNDING", "REFUNDED")]%string.

(** ** The relational store *)

Record DB : Type := mkDB {
  account : gmap Z Account.t;
  pay_order : list PayOrder.t;
  account_transaction : list AccountTransaction.t;
  outbox_message : gmap Z OutboxMessage.t;
  outbox_auto_increment : Z
}.

Definition with_account (x : gmap Z Account.t) (db : DB) : DB :=
  mkDB x (pay_order db) (account_transaction db) (outbox_message db)
       (outbox_auto_increment db).
Definition with_pay_order (x : list PayOrder.t) (db : DB) : DB :=
  mkDB (account db) x (account_transaction db) (outbox_message db)
       (outbox_auto_increment db).
Definition with_account_transaction (x : list AccountTransaction.t) (db : DB) : DB :=
  mkDB (account db) (pay_order db) x (outbox_message db)
       (outbox_auto_increment db).
Definition with_outbox_message (x : gmap Z OutboxMessage.t) (db : DB) : DB :=
  mkDB (account db) (pay_order db) (account_transaction db) x
       (outbox_auto_increment db).

Definition empty_DB : DB := mkDB ∅ [] [] ∅ 1.

Definition ErrDuplicateEntry : error := ErrStore "Duplicate entry".
Definition ErrOutOfRange : error := ErrStore "BIGINT value is out of range".

(** [db.Transaction(body)]: commit when the body returns nil, roll back
    otherwise. *)
Definition Transaction (body : DB -> result DB) (db : DB) : option error * DB :=
  match body db with
  | Ok tx => (None, tx)
  | Err e => (Some e, db)
  end.

(** A statement issued on the connection pool is its own transaction. *)
Definition autocommit (stmt : DB -> result DB) (db : DB) : option error * DB :=
  Transaction stmt db.

(** ** package repository *)

Module AccountRepository.

Definition GetByUserID (r_db : DB) (userID : Z) : result Account.t :=
  match account r_db !! userID with
  | Some a => Ok a
  | None => Err ErrAccountNotFound
  end.

(** [UPDATE account SET ... WHERE user_id = ? AND cond]; the result
    carries [RowsAffected]. *)
Definition update_where (userID : Z) (cond : Account.t -> bool)
    (set : Account.t -> option Account.t) (tx : DB) : result (Z * DB) :=
  match account tx !! userID with
  | Some a =>
      if cond a then
        match set a with
        | Some a' => Ok (1, with_account (<[userID := a']> (account tx)) tx)
        | None => Err ErrOutOfRange
        end
      else Ok (0, tx)
  | None => Ok (0, tx)
  end.

(** The assignment [balance = balance + delta, version = version + 1]
    (and GORM's [updated_at]). *)
Definition move_balance (now delta : Z) (a : Account.t) : option Account.t :=
  b ← sql_bigint (Account.Balance a + delta);
  v ← sql_bigint (Account.Version a + 1);
  Some (Account.mk (Account.UserID a) b (Account.FrozenAmount a) v
                   (Account.CreatedAt a) now).

Definition Deduct (r_db : DB) (now : Z) (userID amount version : Z) (tx : DB)
    : result DB :=
  let* r := update_where userID
              (fun a => (amount <=? Account.Balance a) && (Account.Version a =? version))
              (move_balance now (- amount)) tx in
  if fst r =? 0 then
    let* account := GetByUserID r_db userID in
    if Account.Balance account <? amount then Err ErrBalanceNotEnough
    else Err ErrOptimisticLock
  else Ok (snd r).

Definition Increase (now : Z) (userID amount : Z) (tx : DB) : result DB :=
  let* r := update_where userID (fun _ => true) (move_balance now amount) tx in
  if fst r =? 0 then Err ErrAccountNotFound else Ok (snd r).

(** [INSERT ... ON CONFLICT (user_id) DO NOTHING] *)
Definition insert_ignore (a : Account.t) (db : DB) : DB :=
  match account db !! Account.UserID a with
  | Some _ => db
  | None => with_account (<[Account.UserID a := a]> (account db)) db
  end.

Definition GetOrCreate (now : Z) (userID : Z) (r_db : DB) : result Account.t * DB :=
  match GetByUserID r_db userID with
  | Ok account => (Ok account, r_db)
  | Err err =>
      if negb (errors_Is err ErrAccountNotFound) then (Err err, r_db)
      else
        let newAccount := Account.mk userID 0 0 0 now now in
        let r_db' := insert_ignore newAccount r_db in
        (GetByUserID r_db' userID, r_db')
  end.

End AccountRepository.

Module OrderRepository.

Definition has_order_no (orderNo : string) (o : PayOrder.t) : bool :=
  bool_decide (PayOrder.OrderNo o = orderNo).
Definition has_request_id (requestID : string) (o : PayOrder.t) : bool :=
  bool_decide (PayOrder.RequestID o = requestID).

(** Insert; [order_no] and [request_id] carry unique indexes. *)
Definition Create (now : Z) (order : PayOrder.t) (tx : DB) : result DB :=
  if existsb (has_order_no (PayOrder.OrderNo order)) (pay_order tx)
     || existsb (has_request_id (PayOrder.RequestID order)) (pay_order tx)
  then Err ErrDuplicateEntry
  else Ok (with_pay_order (pay_order tx ++ [PayOrder.created now order]) tx).

Definition GetByOrderNo (r_db : DB) (orderNo : string) : result PayOrder.t :=
  match find (has_order_no orderNo) (pay_order r_db) with
  | Some order => Ok order
  | None => Err ErrOrderNotFound
  end.

(** [(nil, nil)] when no row matches. *)
Definition GetByRequestID (r_db : DB) (requestID : string) : option PayOrder.t :=
  find (has_request_id requestID) (pay_order r_db).

(** The rows selected by [WHERE order_no = ? AND status = ?]. *)
Definition matches (orderNo fromStatus : string) (o : PayOrder.t) : bool :=
  has_order_no orderNo o && bool_decide (PayOrder.Status o = fromStatus).

Definition UpdateStatus (now : Z) (orderNo fromStatus toStatus : string) (tx : DB)
    : result DB :=
  if negb (model.CanTransitionTo fromStatus toStatus) then Err ErrOrderStatusInvalid
  else
    let paid_at :=
      if bool_decide (toStatus = model.OrderStatusPaid) then Some now else None in
    let rowsAffected :=
      Z.of_nat (length (List.filter (matches orderNo fromStatus) (pay_order tx))) in
    if rowsAffected =? 0 then Err ErrOrderStatusInvalid
    else
      Ok (with_pay_order
            (map (fun o => if matches orderNo fromStatus o
                           then PayOrder.set_status toStatus paid_at now o else o)
                 (pay_order tx)) tx).

(** The rows selected by [WHERE status = 'CREATED' AND expired_at < now]
    and by [WHERE status = 'PAYING' AND updated_at < beforeTime]. *)
Definition expired (now : Z) (o : PayOrder.t) : bool :=
  bool_decide (PayOrder.Status o = model.OrderStatusCreated)
  && (PayOrder.ExpiredAt o <? now).

Definition paying_before (beforeTime : Z) (o : PayOrder.t) : bool :=
  bool_decide (PayOrder.Status o = model.OrderStatusPaying)
  && (PayOrder.UpdatedAt o <? beforeTime).

(** [Limit(limit)] on a scan in table order; a negative limit lifts the
    bound. *)
Definition Limit {A : Type} (limit : Z) (rows : list A) : list A :=
  if limit <? 0 then rows else firstn (Z.to_nat limit) rows.

Definition GetExpiredOrders (now : Z) (r_db : DB) (limit : Z) : list PayOrder.t :=
  Limit limit (List.filter (expired now) (pay_order r_db)).

Definition GetPayingOrders (r_db : DB) (beforeTime : Z) (limit : Z)
    : list PayOrder.t :=
  Limit limit (List.filter (paying_before beforeTime) (pay_order r_db)).

End OrderRepository.

Module TransactionRepository.

Definition has_transaction_no (no : string) (x : AccountTransaction.t) : bool :=
  bool_decide (AccountTransaction.TransactionNo x = no).
Definition has_order_no (orderNo : string) (x : AccountTransaction.t) : bool :=
  bool_decide (AccountTransaction.OrderNo x = orderNo).
Definition has_user_id (userID : Z) (x : AccountTransaction.t) : bool :=
  bool_decide (AccountTransaction.UserID x = userID).

(** Append; [transaction_no] carries a unique index. *)
Definition Create (now : Z) (trans : AccountTransaction.t) (tx : DB) : result DB :=
  if existsb (has_transaction_no (AccountTransaction.TransactionNo trans))
             (account_transaction tx)
  then Err ErrDuplicateEntry
  else Ok (with_account_transaction
             (account_transaction tx ++ [AccountTransaction.created now trans]) tx).

Definition GetByOrderNo (r_db : DB) (orderNo : string) : option AccountTransaction.t :=
  find (has_order_no orderNo) (account_transaction r_db).

Definition GetByUserIDAndOrderNo (r_db : DB) (userID : Z) (orderNo : string)
    : option AccountTransaction.t :=
  find (fun x => has_user_id userID x && has_order_no orderNo x)
       (account_transaction r_db).

End TransactionRepository.

Module OutboxRepository.

Definition Create (now : Z) (msg : OutboxMessage.t) (tx : DB) : result DB :=
  let id := outbox_auto_increment tx in
  match outbox_message tx !! id with
  | Some _ => Err ErrDuplicateEntry
  | None =>
      let row := OutboxMessage.mk id (OutboxMessage.MessageKey msg)
                   (OutboxMessage.Topic msg) (OutboxMessage.Payload msg)
                   (OutboxMessage.Status msg) (OutboxMessage.RetryCount msg) now now in
      Ok (mkDB (account tx) (pay_order tx) (account_transaction tx)
               (<[id := row]> (outbox_message tx)) (id + 1))
  end.

(** [UPDATE outbox_message SET ... WHERE id = ?]; a statement that
    matches no row is not an error. *)
Definition update_by_id (id : Z) (set : OutboxMessage.t -> option OutboxMessage.t)
    (r_db : DB) : result DB :=
  match outbox_message r_db !! id with
  | Some m =>
      match set m with
      | Some m' => Ok (with_outbox_message (<[id := m']> (outbox_message r_db)) r_db)
      | None => Err ErrOutOfRange
      end
  | None => Ok r_db
  end.

Definition UpdateStatus (now : Z) (id : Z) (status : string) (r_db : DB) : result DB :=
  update_by_id id
    (fun m => Some (OutboxMessage.mk (OutboxMessage.ID m) (OutboxMessage.MessageKey m)
                      (OutboxMessage.Topic m) (OutboxMessage.Payload m) status
                      (OutboxMessage.RetryCount m) (OutboxMessage.CreatedAt m) now))
    r_db.

(** [UpdateColumn] skips GORM's [updated_at]. *)
Definition IncrementRetryCount (id : Z) (r_db : DB) : result DB :=
  update_by_id id
    (fun m => c ← sql_bigint (OutboxMessage.RetryCount m + 1);
              Some (OutboxMessage.mk (OutboxMessage.ID m) (OutboxMessage.MessageKey m)
                      (OutboxMessage.Topic m) (OutboxMessage.Payload m)
                      (OutboxMessage.Status m) c (OutboxMessage.CreatedAt m)
                      (OutboxMessage.UpdatedAt m)))
    r_db.

Definition MarkAsFailed (now : Z) (id : Z) (r_db : DB) : result DB :=
  update_by_id id
    (fun m => c ← sql_bigint (OutboxMessage.RetryCount m + 1);
              Some (OutboxMessage.mk (OutboxMessage.ID m) (OutboxMessage.MessageKey m)
                      (OutboxMessage.Topic m) (OutboxMessage.Payload m)
                      model.OutboxStatusFailed c (OutboxMessage.CreatedAt m) now))
    r_db.

(** [ORDER BY created_at ASC]; rows created at the same instant are taken
    in the order of their ids. *)
Definition created_before (a b : OutboxMessage.t) : Prop :=
  OutboxMessage.CreatedAt a < OutboxMessage.CreatedAt b \/
  (OutboxMessage.CreatedAt a = OutboxMessage.CreatedAt b /\
   OutboxMessage.ID a <= OutboxMessage.ID b).

#[global] Instance created_before_dec (a b : OutboxMessage.t)
  : Decision (created_before a b).
Proof. unfold created_before. apply _. Defined.

Definition has_status (status : string) (m : OutboxMessage.t) : bool :=
  bool_decide (OutboxMessage.Status m = status).

(** The rows of the table. *)
Definition rows (r_db : DB) : list OutboxMessage.t :=
  map snd (map_to_list (outbox_message r_db)).

(** [Where("status = ?", status).Order("created_at ASC").Limit(limit)] *)
Definition select_by_status (status : string) (r_db : DB) (limit : Z)
    : list OutboxMessage.t :=
  OrderRepository.Limit limit
    (merge_sort created_before (List.filter (has_status status) (rows r_db))).

Definition GetPendingMessages (r_db : DB) (limit : Z) : list OutboxMessage.t :=
  select_by_status model.OutboxStatusPending r_db limit.

Definition GetFailedMessages (r_db : DB) (limit : Z) : list OutboxMessage.t :=
  select_by_status model.OutboxStatusFailed r_db limit.

End OutboxRepository.

(** ** The key-value store, the clock and package lock *)

Inductive RedisCmd : Type :=
| SETNX (key value : string) (ttl : Z)
| EVAL_unlock (key value : string).

(** [kv] maps a key to its value and the instant its lease ends; [kv_log]
    records the commands sent to the key-value store, most recent first. *)
Record World : Type := mkWorld {
  db : DB;
  kv : gmap string (string * Z);
  kv_log : list RedisCmd;
  clock : Z
}.

Definition with_db (x : DB) (w : World) : World :=
  mkWorld x (kv w) (kv_log w) (clock w).

Definition empty_World : World := mkWorld empty_DB ∅ [] 0.

Module lock.

Record DistributedLock : Type := NewDistributedLock {
  key : string;
  value : string;
  expiration : Z
}.

(** The value stored under [k] whose lease has not run out. *)
Definition live (w : World) (k : string) : option string :=
  match kv w !! k with
  | Some (v, deadline) => if clock w <? deadline then Some v else None
  | None => None
  end.

(** [client.SetNX(ctx, key, value, expiration)] for a positive lease of
    whole milliseconds, the case in which the client sends
    [SET key value NX PX|EX expiration]; the services build their locks
    with 30 seconds.  (For a zero expiration the client sends a plain SETNX,
    whose key never expires, and the server refuses a negative one: the
    statements about leases below assume a positive one.) *)
Definition TryLock (l : DistributedLock) (w : World) : bool * World :=
  let log := SETNX (key l) (value l) (expiration l) :: kv_log w in
  match live w (key l) with
  | Some _ => (false, mkWorld (db w) (kv w) log (clock w))
  | None =>
      (true, mkWorld (db w)
               (<[key l := (value l, clock w + expiration l)]> (kv w)) log (clock w))
  end.

(** [<-time.After(retryInterval)] *)
Definition sleep (d : Z) (w : World) : World :=
  mkWorld (db w) (kv w) (kv_log w) (clock w + d).

Fixpoint Lock_loop (retries : nat) (l : DistributedLock) (retryInterval : Z)
    (w : World) : option error * World :=
  match retries with
  | O => (Some ErrLockFailed, w)
  | S n =>
      let '(success, w1) := TryLock l w in
      if success then (None, w1)
      else Lock_loop n l retryInterval (sleep retryInterval w1)
  end.

Definition Lock (l : DistributedLock) (retryInterval maxRetries : Z) (w : World)
    : option error * World :=
  Lock_loop (Z.to_nat maxRetries) l retryInterval w.

(** The script deletes the key only when it still holds this owner's
    value. *)
Definition Unlock (l : DistributedLock) (w : World) : World :=
  let log := EVAL_unlock (key l) (value l) :: kv_log w in
  if bool_decide (live w (key l) = Some (value l))
  then mkWorld (db w) (delete (key l) (kv w)) log (clock w)
  else mkWorld (db w) (kv w) log (clock w).

Definition NewPayLock (userID : Z) (requestID : string) : DistributedLock :=
  NewDistributedLock ("pay:lock:user:" +:+ pretty userID) requestID (30 * Second).

End lock.

(** ** package config *)

Record BusinessConfig : Type := {
  OrderTimeoutMinutes : Z;
  MaxRetryCount : Z
}.

Record Config : Type := {
  Business : BusinessConfig;
  Kafka_Topic_PayResult : string
}.

(** ** package service: request and response records *)

Module CreateOrderRequest.
Record t : Type := mk {
  RequestID : string;
  UserID : Z;
  Amount : Z;
  ProductType : string;
  ProductID : string
}.
End CreateOrderRequest.

Module PayRequest.
Record t : Type := mk {
  RequestID : string;
  UserID : Z;
  Amount : Z;
  ProductType : string;
  ProductID : string
}.
End PayRequest.

Module PayResponse.
Record t : Type := mk {
  OrderNo : string;
  Status : string;
  Amount : Z;
  Message : string
}.
End PayResponse.

Module RefundRequest.
Record t : Type := mk {
  RequestID : string;
  OrderNo : string;
  Reason : string
}.
End RefundRequest.

Module RefundResponse.
Record t : Type := mk {
  RefundNo : string;
  OrderNo : string;
  Amount : Z;
  Status : string;
  Message : string
}.
End RefundResponse.

(** The values the services put into an event payload. *)
Inductive json : Type :=
| JString (s : string)
| JInt (n : Z).

(** ** package service and package job

    The library functions whose output the core only stores are taken as
    section variables: [json.Marshal] on an event record (listed with its
    keys), [Time.Format(time.RFC3339)], and [mq.SendMessage], which returns
    the bus error or nothing.  The identifiers a call draws from [idgen]
    are arguments of the call. *)

Section Services.

Variable json_Marshal : list (string * json) -> string.
Variable Format_RFC3339 : Z -> string.
Variable mq_SendMessage : string -> string -> string -> option error.
Variable cfg : Config.

(** *** PayService *)

Definition PayService_exists (existingOrder : PayOrder.t) : PayResponse.t :=
  PayResponse.mk (PayOrder.OrderNo existingOrder) (PayOrder.Status existingOrder)
                 (PayOrder.Amount existingOrder) "订单已存在".

(** The body of the payment transaction.  (The assignments to the local
    [order] before the second status update do not reach the store.) *)
Definition PayService_Pay_tx (orderNo transactionNo : string) (req : PayRequest.t)
    (account : Account.t) (order : PayOrder.t) (r_db : DB) (now : Z) (tx : DB)
    : result DB :=
  let* tx := wrapping "创建订单失败" (OrderRepository.Create now order tx) in
  let* tx := wrapping "更新订单状态失败"
               (OrderRepository.UpdateStatus now orderNo model.OrderStatusCreated
                  model.OrderStatusPaying tx) in
  let* tx :=
    match AccountRepository.Deduct r_db now (PayRequest.UserID req)
            (PayRequest.Amount req) (Account.Version account) tx with
    | Ok tx => Ok tx
    | Err err =>
        if errors_Is err ErrBalanceNotEnough then Err (ErrNew "余额不足")
        else if errors_Is err ErrOptimisticLock then Err (ErrNew "系统繁忙，请重试")
        else Err (ErrWrap "扣款失败" err)
    end in
  let transaction :=
    AccountTransaction.mk transactionNo (PayRequest.UserID req) orderNo
      (wrap64 (- PayRequest.Amount req)) model.TransactionTypePay
      (Account.Balance account)
      (wrap64 (Account.Balance account - PayRequest.Amount req))
      ("支付-" +:+ PayRequest.ProductType req +:+ "-" +:+ PayRequest.ProductID req)
      0 in
  let* tx := wrapping "记录流水失败" (TransactionRepository.Create now transaction tx) in
  let* tx := wrapping "更新订单状态失败"
               (OrderRepository.UpdateStatus now orderNo model.OrderStatusPaying
                  model.OrderStatusPaid tx) in
  let payloadBytes :=
    json_Marshal
      [("order_no", JString orderNo);
       ("user_id", JInt (PayRequest.UserID req));
       ("amount", JInt (PayRequest.Amount req));
       ("product_type", JString (PayRequest.ProductType req));
       ("product_id", JString (PayRequest.ProductID req));
       ("status", JString model.OrderStatusPaid);
       ("paid_at", JString (Format_RFC3339 now))]%string in
  let outboxMsg :=
    OutboxMessage.mk 0 orderNo (Kafka_Topic_PayResult cfg) payloadBytes
                     model.OutboxStatusPending 0 0 0 in
  wrapping "写入消息失败" (OutboxRepository.Create now outboxMsg tx).

(** [Pay] from the idempotency re-check on, that is, the part that runs
    while the per-user mutex is held. *)
Definition PayService_Pay_locked (orderNo transactionNo : string) (req : PayRequest.t)
    (w : World) : result PayResponse.t * World :=
  match OrderRepository.GetByRequestID (db w) (PayRequest.RequestID req) with
  | Some existingOrder => (Ok (PayService_exists existingOrder), w)
  | None =>
      let now := clock w in
      let '(r, db1) := AccountRepository.GetOrCreate now (PayRequest.UserID req) (db w) in
      match r with
      | Err err => (Err (ErrWrap "获取账户信息失败" err), with_db db1 w)
      | Ok account =>
          if Account.Balance account <? PayRequest.Amount req
          then (Err (ErrNew "余额不足"), with_db db1 w)
          else
            let expiredAt :=
              now + wrap64 (OrderTimeoutMinutes (Business cfg) * Minute) in
            let order :=
              PayOrder.mk orderNo (PayRequest.RequestID req) (PayRequest.UserID req)
                (PayRequest.Amount req) (PayRequest.ProductType req)
                (PayRequest.ProductID req) model.OrderStatusCreated expiredAt None 0 0 in
            match Transaction
                    (PayService_Pay_tx orderNo transactionNo req account order db1 now)
                    db1 with
            | (Some err, db2) => (Err err, with_db db2 w)
            | (None, db2) =>
                (Ok (PayResponse.mk orderNo model.OrderStatusPaid
                       (PayRequest.Amount req) "支付成功"),
                 with_db db2 w)
            end
      end
  end.

Definition PayService_Pay (orderNo transactionNo : string) (req : PayRequest.t)
    (w : World) : result PayResponse.t * World :=
  match OrderRepository.GetByRequestID (db w) (PayRequest.RequestID req) with
  | Some existingOrder => (Ok (PayService_exists existingOrder), w)
  | None =>
      let payLock := lock.NewPayLock (PayRequest.UserID req) (PayRequest.RequestID req) in
      match lock.Lock payLock (100 * Millisecond) 30 w with
      | (Some err, w1) => (Err (ErrWrap "系统繁忙，请稍后重试" err), w1)
      | (None, w1) =>
          let '(r, w2) := PayService_Pay_locked orderNo transactionNo req w1 in
          (r, lock.Unlock payLock w2)
      end
  end.

(** *** RefundService *)

Definition RefundService_refunded (order : PayOrder.t) : RefundResponse.t :=
  RefundResponse.mk "" (PayOrder.OrderNo order) (PayOrder.Amount order)
                    model.OrderStatusRefunded "已退款，请勿重复操作".

Definition RefundService_Refund_tx (refundNo transactionNo : string)
    (req : RefundRequest.t) (order : PayOrder.t) (r_db : DB) (now : Z) (tx : DB)
    : result DB :=
  let* tx := wrapping "更新订单状态失败"
               (OrderRepository.UpdateStatus now (RefundRequest.OrderNo req)
                  model.OrderStatusPaid model.OrderStatusRefunding tx) in
  let* account := wrapping "查询账户失败"
                    (AccountRepository.GetByUserID r_db (PayOrder.UserID order)) in
  let* tx := wrapping "退款到账失败"
               (AccountRepository.Increase now (PayOrder.UserID order)
                  (PayOrder.Amount order) tx) in
  let transaction :=
    AccountTransaction.mk transactionNo (PayOrder.UserID order)
      (RefundRequest.OrderNo req) (PayOrder.Amount order) model.TransactionTypeRefund
      (Account.Balance account)
      (wrap64 (Account.Balance account + PayOrder.Amount order))
      ("退款-" +:+ refundNo +:+ "-" +:+ RefundRequest.Reason req)
      0 in
  let* tx := wrapping "记录流水失败" (TransactionRepository.Create now transaction tx) in
  let* tx := wrapping "更新订单状态失败"
               (OrderRepository.UpdateStatus now (RefundRequest.OrderNo req)
                  model.OrderStatusRefunding model.OrderStatusRefunded tx) in
  let payloadBytes :=
    json_Marshal
      [("refund_no", JString refundNo);
       ("order_no", JString (RefundRequest.OrderNo req));
       ("user_id", JInt (PayOrder.UserID order));
       ("amount", JInt (PayOrder.Amount order));
       ("status", JString model.OrderStatusRefunded);
       ("reason", JString (RefundRequest.Reason req));
       ("refunded_at", JString (Format_RFC3339 now))]%string in
  let outboxMsg :=
    OutboxMessage.mk 0 refundNo (Kafka_Topic_PayResult cfg) payloadBytes
                     model.OutboxStatusPending 0 0 0 in
  wrapping "写入消息失败" (OutboxRepository.Create now outboxMsg tx).

Definition ErrRefundNotAllowed (status : string) : error :=
  ErrNew ("订单状态不允许退款，当前状态: " +:+ status).

(** [Refund] from the re-read of the order on: the part that runs while
    the per-order mutex is held. *)
Definition RefundService_Refund_locked (refundNo transactionNo : string)
    (req : RefundRequest.t) (w : World) : result RefundResponse.t * World :=
  match OrderRepository.GetByOrderNo (db w) (RefundRequest.OrderNo req) with
  | Err err => (Err err, w)
  | Ok order =>
      if negb (bool_decide (PayOrder.Status order = model.OrderStatusPaid)) then
        if bool_decide (PayOrder.Status order = model.OrderStatusRefunded)
        then (Ok (RefundService_refunded order), w)
        else (Err (ErrRefundNotAllowed (PayOrder.Status order)), w)
      else
        match Transaction
                (RefundService_Refund_tx refundNo transactionNo req order (db w) (clock w))
                (db w) with
        | (Some err, db2) => (Err err, with_db db2 w)
        | (None, db2) =>
            (Ok (RefundResponse.mk refundNo (RefundRequest.OrderNo req)
                   (PayOrder.Amount order) model.OrderStatusRefunded "退款成功"),
             with_db db2 w)
        end
  end.

Definition RefundService_Refund (refundNo transactionNo : string)
    (req : RefundRequest.t) (w : World) : result RefundResponse.t * World :=
  match OrderRepository.GetByOrderNo (db w) (RefundRequest.OrderNo req) with
  | Err err =>
      if errors_Is err ErrOrderNotFound then (Err (ErrNew "订单不存在"), w)
      else (Err (ErrWrap "查询订单失败" err), w)
  | Ok order =>
      if negb (bool_decide (PayOrder.Status order = model.OrderStatusPaid))
      then (Err (ErrRefundNotAllowed (PayOrder.Status order)), w)
      else
        let existingTrans :=
          TransactionRepository.GetByUserIDAndOrderNo (db w) (PayOrder.UserID order)
            (RefundRequest.OrderNo req) in
        if match existingTrans with
           | Some x => bool_decide (AccountTransaction.Type_ x = model.TransactionTypeRefund)
           | None => false
           end
        then (Ok (RefundService_refunded order), w)
        else
          let refundLock :=
            lock.NewDistributedLock
              ("refund:lock:order:" +:+ RefundRequest.OrderNo req)
              (RefundRequest.RequestID req) (30 * Second) in
          match lock.Lock refundLock (100 * Millisecond) 30 w with
          | (Some err, w1) => (Err (ErrWrap "系统繁忙，请稍后重试" err), w1)
          | (None, w1) =>
              let '(r, w2) := RefundService_Refund_locked refundNo transactionNo req w1 in
              (r, lock.Unlock refundLock w2)
          end
  end.

(** *** OrderService and AccountService *)

Definition OrderService_CancelOrder (orderNo : string) (w : World)
    : option error * World :=
  match OrderRepository.GetByOrderNo (db w) orderNo with
  | Err err => (Some err, w)
  | Ok order =>
      match OrderRepository.UpdateStatus (clock w) orderNo (PayOrder.Status order)
              model.OrderStatusCancelled (db w) with
      | Ok db' => (None, with_db db' w)
      | Err err => (Some err, w)
      end
  end.

Definition AccountService_GetBalance (w : World) (userID : Z) : result Z :=
  match AccountRepository.GetByUserID (db w) userID with
  | Err err => if errors_Is err ErrAccountNotFound then Ok 0 else Err err
  | Ok account => Ok (Account.Balance account)
  end.

Definition AccountService_Recharge (userID amount : Z) (w : World)
    : option error * World :=
  if amount <=? 0 then (Some (ErrNew "充值金额必须大于0"), w)
  else
    let '(r, db1) := AccountRepository.GetOrCreate (clock w) userID (db w) in
    match r with
    | Err err => (Some err, with_db db1 w)
    | Ok _ =>
        match AccountRepository.Increase (clock w) userID amount db1 with
        | Ok db2 => (None, with_db db2 w)
        | Err err => (Some err, with_db db1 w)
        end
    end.

(** *** PayingOrderCompensateJob *)

Definition PayingOrderCompensateJob_compensateOrder (order : PayOrder.t) (w : World)
    : World :=
  let trans := TransactionRepository.GetByOrderNo (db w) (PayOrder.OrderNo order) in
  if match trans with
     | Some x => bool_decide (AccountTransaction.Type_ x = model.TransactionTypePay)
     | None => false
     end
  then
    match OrderRepository.UpdateStatus (clock w) (PayOrder.OrderNo order)
            model.OrderStatusPaying model.OrderStatusPaid (db w) with
    | Ok db' => with_db db' w
    | Err _ => w
    end
  else
    let orderTimeout := wrap64 (OrderTimeoutMinutes (Business cfg) * Minute) in
    if orderTimeout <? time_Since (clock w) (PayOrder.CreatedAt order) then
      match OrderRepository.UpdateStatus (clock w) (PayOrder.OrderNo order)
              model.OrderStatusPaying model.OrderStatusFailed (db w) with
      | Ok db' => with_db db' w
      | Err _ => w
      end
    else w.

(** *** OutboxSender *)

(** Run a statement whose error the caller only logs. *)
Definition logged (stmt : DB -> result DB) (w : World) : World :=
  match stmt (db w) with
  | Ok db' => with_db db' w
  | Err _ => w
  end.

Definition OutboxSender_sendMessage (msg : OutboxMessage.t) (w : World) : World :=
  match mq_SendMessage (OutboxMessage.Topic msg) (OutboxMessage.MessageKey msg)
          (OutboxMessage.Payload msg) with
  | None =>
      logged (OutboxRepository.UpdateStatus (clock w) (OutboxMessage.ID msg)
                model.OutboxStatusSent) w
  | Some _ =>
      let w1 := logged (OutboxRepository.IncrementRetryCount (OutboxMessage.ID msg)) w in
      if MaxRetryCount (Business cfg) <=? wrap64 (OutboxMessage.RetryCount msg + 1)
      then logged (OutboxRepository.MarkAsFailed (clock w1) (OutboxMessage.ID msg)) w1
      else w1
  end.

(** *** PayService: queries *)

Definition PayService_QueryPayResult (orderNo : string) (w : World)
    : result PayResponse.t :=
  match OrderRepository.GetByOrderNo (db w) orderNo with
  | Err err =>
      if errors_Is err ErrOrderNotFound then Err (ErrNew "订单不存在") else Err err
  | Ok order =>
      Ok (PayResponse.mk (PayOrder.OrderNo order) (PayOrder.Status order)
            (PayOrder.Amount order) "")
  end.

Definition PayService_QueryPayResultByRequestID (requestID : string) (w : World)
    : result PayResponse.t :=
  match OrderRepository.GetByRequestID (db w) requestID with
  | None => Err (ErrNew "订单不存在")
  | Some order =>
      Ok (PayResponse.mk (PayOrder.OrderNo order) (PayOrder.Status order)
            (PayOrder.Amount order) "")
  end.

(** *** OrderService: creation and expiry *)

(** The order handed back after an insert is the struct GORM has filled in
    with the creation times. *)
Definition OrderService_CreateOrder (orderNo : string) (req : CreateOrderRequest.t)
    (w : World) : result PayOrder.t * World :=
  match OrderRepository.GetByRequestID (db w) (CreateOrderRequest.RequestID req) with
  | Some existingOrder => (Ok existingOrder, w)
  | None =>
      let now := clock w in
      let expiredAt := now + wrap64 (OrderTimeoutMinutes (Business cfg) * Minute) in
      let order :=
        PayOrder.mk orderNo (CreateOrderRequest.RequestID req)
          (CreateOrderRequest.UserID req) (CreateOrderRequest.Amount req)
          (CreateOrderRequest.ProductType req) (CreateOrderRequest.ProductID req)
          model.OrderStatusCreated expiredAt None 0 0 in
      match OrderRepository.Create now order (db w) with
      | Err err => (Err err, w)
      | Ok db' => (Ok (PayOrder.created now order), with_db db' w)
      end
  end.

(** The loop of [OrderService.CloseExpiredOrders] and of
    [OrderTimeoutJob.closeExpiredOrders]: one guarded update per selected
    row; a row whose update fails is skipped and not counted. *)
Fixpoint close_orders (orders : list PayOrder.t) (closedCount : Z) (w : World)
    : Z * World :=
  match orders with
  | [] => (closedCount, w)
  | order :: rest =>
      match OrderRepository.UpdateStatus (clock w) (PayOrder.OrderNo order)
              model.OrderStatusCreated model.OrderStatusClosed (db w) with
      | Err _ => close_orders rest closedCount w
      | Ok db' => close_orders rest (closedCount + 1) (with_db db' w)
      end
  end.

Definition OrderService_CloseExpiredOrders (limit : Z) (w : World) : Z * World :=
  close_orders (OrderRepository.GetExpiredOrders (clock w) (db w) limit) 0 w.

(** *** OrderTimeoutJob *)

Definition OrderTimeoutJob_batchSize : Z := 100.

Definition OrderTimeoutJob_closeExpiredOrders (w : World) : World :=
  snd (close_orders
         (OrderRepository.GetExpiredOrders (clock w) (db w) OrderTimeoutJob_batchSize)
         0 w).

(** *** PayingOrderCompensateJob: one round *)

Definition PayingOrderCompensateJob_batchSize : Z := 50.

Definition PayingOrderCompensateJob_compensatePayingOrders (w : World) : World :=
  let beforeTime := clock w + (- 5 * Minute) in
  let orders :=
    OrderRepository.GetPayingOrders (db w) beforeTime
      PayingOrderCompensateJob_batchSize in
  fold_left (fun w order => PayingOrderCompensateJob_compensateOrder order w) orders w.

(** *** OutboxSender: one round *)

Definition OutboxSender_batchSize : Z := 100.

Definition OutboxSender_processPendingMessages (w : World) : World :=
  let messages := OutboxRepository.GetPendingMessages (db w) OutboxSender_batchSize in
  fold_left (fun w msg => OutboxSender_sendMessage msg w) messages w.

End Services.

(** ** package idgen

    [time.Now().UnixMilli()] is read once per call and again on every turn
    of the wait loop: a call takes the readings the clock is going to give,
    oldest first, and hands back the ones it has not used.  The result is
    [None] when the readings run out while the loop is still waiting. *)

Module idgen.

Definition epoch : Z := 1704067200000.
Definition workerIDBits : Z := 10.
Definition sequenceBits : Z := 12.
Definition maxWorkerID : Z := Z.lxor (-1) (Z.shiftl (-1) workerIDBits).
Definition maxSequence : Z := Z.lxor (-1) (Z.shiftl (-1) sequenceBits).
Definition workerIDShift : Z := sequenceBits.
Definition timestampShift : Z := sequenceBits + workerIDBits.

Record Snowflake : Type := mk {
  timestamp : Z;
  workerID : Z;
  sequence : Z
}.

(** [Init] ends the process on a worker id out of range. *)
Definition Init (workerID : Z) : option Snowflake :=
  if (workerID <? 0) || (maxWorkerID <? workerID) then None
  else Some (mk 0 workerID 0).

(** [for now <= s.timestamp { now = time.Now().UnixMilli() }] *)
Fixpoint wait (timestamp now : Z) (readings : list Z) : option (Z * list Z) :=
  match readings with
  | [] => if now <=? timestamp then None else Some (now, [])
  | t :: rest =>
      if now <=? timestamp then wait timestamp t rest else Some (now, t :: rest)
  end.

Definition Generate (s : Snowflake) (readings : list Z)
    : option (Z * Snowflake * list Z) :=
  match readings with
  | [] => None
  | now :: rest =>
      let stepped :=
        if now =? timestamp s then
          let sequence := Z.land (wrap64 (sequence s + 1)) maxSequence in
          if sequence =? 0 then
            match wait (timestamp s) now rest with
            | Some (now, rest) => Some (now, sequence, rest)
            | None => None
            end
          else Some (now, sequence, rest)
        else Some (now, 0, rest) in
      match stepped with
      | None => None
      | Some (now, sequence, rest) =>
          let id :=
            Z.lor (Z.lor (wrap64 (Z.shiftl (wrap64 (now - epoch)) timestampShift))
                         (wrap64 (Z.shiftl (workerID s) workerIDShift)))
                  sequence in
          Some (id, mk now (workerID s) sequence, rest)
      end
  end.

End idgen.

(** * Vocabulary of the statements *)

(** ** Rows and worlds after a statement *)

(** What the guarded update does to the rows it selects. *)
Definition transitioned (now : Z) (orderNo fromStatus toStatus : string)
    (l : list PayOrder.t) : list PayOrder.t :=
  map (fun o => if OrderRepository.matches orderNo fromStatus o
                then PayOrder.set_status toStatus
                       (if bool_decide (toStatus = model.OrderStatusPaid)
                        then Some now else None) now o
                else o) l.

(** The guarded transition as a job uses it: the rows with that order
    number and the expected status move on; when there is none the store
    stays as it is and the error is only logged. *)
Definition drive (fromStatus toStatus : string) (orderNo : string) (w : World) : World :=
  if existsb (OrderRepository.matches orderNo fromStatus) (pay_order (db w))
  then with_db (with_pay_order
                  (transitioned (clock w) orderNo fromStatus toStatus (pay_order (db w)))
                  (db w)) w
  else w.

(** The account row after a debit and after a credit. *)
Definition debited (now amount : Z) (a : Account.t) : Account.t :=
  Account.mk (Account.UserID a) (Account.Balance a - amount) (Account.FrozenAmount a)
             (Account.Version a + 1) (Account.CreatedAt a) now.

Definition credited (now amount : Z) (a : Account.t) : Account.t :=
  Account.mk (Account.UserID a) (Account.Balance a + amount) (Account.FrozenAmount a)
             (Account.Version a + 1) (Account.CreatedAt a) now.

(** The order a payment inserts, before its status moves on. *)
Definition new_order (cfg : Config) (orderNo : string) (req : PayRequest.t) (now : Z)
    : PayOrder.t :=
  PayOrder.mk orderNo (PayRequest.RequestID req) (PayRequest.UserID req)
    (PayRequest.Amount req) (PayRequest.ProductType req) (PayRequest.ProductID req)
    model.OrderStatusCreated
    (now + wrap64 (OrderTimeoutMinutes (Business cfg) * Minute)) None 0 0.

(** The order row a payment leaves behind: inserted, moved to PAYING, moved
    to PAID. *)
Definition paid_order (now : Z) (order : PayOrder.t) : PayOrder.t :=
  PayOrder.set_status model.OrderStatusPaid (Some now) now
    (PayOrder.set_status model.OrderStatusPaying None now (PayOrder.created now order)).

(** The ledger row of a payment; [balance] is the balance read before the
    debit. *)
Definition pay_row (transactionNo orderNo : string) (req : PayRequest.t)
    (balance now : Z) : AccountTransaction.t :=
  AccountTransaction.mk transactionNo (PayRequest.UserID req) orderNo
    (wrap64 (- PayRequest.Amount req)) model.TransactionTypePay balance
    (wrap64 (balance - PayRequest.Amount req))
    ("支付-" +:+ PayRequest.ProductType req +:+ "-" +:+ PayRequest.ProductID req)
    now.

(** The ledger row of a refund; [balance] is the balance read before the
    credit. *)
Definition refund_row (transactionNo refundNo : string) (req : RefundRequest.t)
    (order : PayOrder.t) (balance now : Z) : AccountTransaction.t :=
  AccountTransaction.mk transactionNo (PayOrder.UserID order) (RefundRequest.OrderNo req)
    (PayOrder.Amount order) model.TransactionTypeRefund balance
    (wrap64 (balance + PayOrder.Amount order))
    ("退款-" +:+ refundNo +:+ "-" +:+ RefundRequest.Reason req)
    now.

(** The order-timeout of the configuration as a duration. *)
Definition orderTimeout (cfg : Config) : Z :=
  wrap64 (OrderTimeoutMinutes (Business cfg) * Minute).

(** ** Observations and invariants *)

(** Invariant I2 on one account row and on the whole table. *)
Definition account_ok (a : Account.t) : Prop :=
  0 <= Account.Balance a /\ 0 <= Account.FrozenAmount a.

Definition accounts_ok (d : DB) : Prop :=
  forall u a, account d !! u = Some a -> account_ok a.

(** The version of a user's row; a missing row counts as the fresh row
    that get-or-create would insert (version 0). *)
Definition version_of (d : DB) (userID : Z) : Z :=
  match account d !! userID with
  | Some a => Account.Version a
  | None => 0
  end.

(** The balance as [AccountService_GetBalance] reports it. *)
Definition balance_of (d : DB) (userID : Z) : Z :=
  match account d !! userID with
  | Some a => Account.Balance a
  | None => 0
  end.

(** The sum of a user's ledger amounts. *)
Definition ledger_sum (userID : Z) (l : list AccountTransaction.t) : Z :=
  fold_right
    (fun x acc => if TransactionRepository.has_user_id userID x
                  then AccountTransaction.Amount x + acc else acc)
    0 l.

(** Money conservation between two stores: every user's balance has moved
    by the sum of the ledger amounts added for that user. *)
Definition in_step (d d' : DB) : Prop :=
  forall u, balance_of d' u - balance_of d u
            = ledger_sum u (account_transaction d')
              - ledger_sum u (account_transaction d).

(** ** The effect of a payment and of a refund *)

(** What a payment that was really carried out has done. *)
Definition pay_effect (cfg : Config) (orderNo transactionNo : string) (req : PayRequest.t)
    (d : DB) (now : Z) (r : PayResponse.t) (d' : DB) : Prop :=
  r = PayResponse.mk orderNo model.OrderStatusPaid (PayRequest.Amount req) "支付成功" /\
  (forall o, In o (pay_order d) -> OrderRepository.has_order_no orderNo o = false) /\
  PayRequest.Amount req <= balance_of d (PayRequest.UserID req) /\
  balance_of d' (PayRequest.UserID req)
  = balance_of d (PayRequest.UserID req) - PayRequest.Amount req /\
  version_of d' (PayRequest.UserID req) = version_of d (PayRequest.UserID req) + 1 /\
  (forall u, u <> PayRequest.UserID req -> balance_of d' u = balance_of d u) /\
  pay_order d' = pay_order d ++ [paid_order now (new_order cfg orderNo req now)] /\
  account_transaction d'
  = account_transaction d
    ++ [pay_row transactionNo orderNo req (balance_of d (PayRequest.UserID req)) now] /\
  in_int64 (balance_of d (PayRequest.UserID req) - PayRequest.Amount req) = true.

(** What a refund that was really carried out has done. *)
Definition refund_effect (refundNo transactionNo : string) (req : RefundRequest.t)
    (order : PayOrder.t) (d : DB) (now : Z) (r : RefundResponse.t) (d' : DB) : Prop :=
  r = RefundResponse.mk refundNo (RefundRequest.OrderNo req) (PayOrder.Amount order)
        model.OrderStatusRefunded "退款成功" /\
  balance_of d' (PayOrder.UserID order)
  = balance_of d (PayOrder.UserID order) + PayOrder.Amount order /\
  version_of d' (PayOrder.UserID order) = version_of d (PayOrder.UserID order) + 1 /\
  (forall u, u <> PayOrder.UserID order -> balance_of d' u = balance_of d u) /\
  pay_order d'
  = transitioned now (RefundRequest.OrderNo req) model.OrderStatusRefunding
      model.OrderStatusRefunded
      (transitioned now (RefundRequest.OrderNo req) model.OrderStatusPaid
         model.OrderStatusRefunding (pay_order d)) /\
  account_transaction d'
  = account_transaction d
    ++ [refund_row transactionNo refundNo req order
          (balance_of d (PayOrder.UserID order)) now] /\
  in_int64 (balance_of d (PayOrder.UserID order) + PayOrder.Amount order) = true.

(** ** Sequences of calls *)

(** A call of one of the three balance-moving services, with the
    identifiers it draws from [idgen].  The environment may let time pass
    before a call. *)
Inductive call : Type :=
| CallPay (orderNo transactionNo : string) (req : PayRequest.t)
| CallRefund (refundNo transactionNo : string) (req : RefundRequest.t)
| CallRecharge (userID amount : Z)
| Wait (d : Z).

Definition run_call (json_Marshal : list (string * json) -> string)
    (Format_RFC3339 : Z -> string) (cfg : Config) (c : call) (w : World) : World :=
  match c with
  | CallPay orderNo transactionNo req =>
      snd (PayService_Pay json_Marshal Format_RFC3339 cfg orderNo transactionNo req w)
  | CallRefund refundNo transactionNo req =>
      snd (RefundService_Refund json_Marshal Format_RFC3339 cfg refundNo transactionNo req w)
  | CallRecharge userID amount => snd (AccountService_Recharge userID amount w)
  | Wait d => lock.sleep d w
  end.

Definition run (json_Marshal : list (string * json) -> string)
    (Format_RFC3339 : Z -> string) (cfg : Config) (cs : list call) (w : World) : World :=
  fold_left (fun w c => run_call json_Marshal Format_RFC3339 cfg c w) cs w.

(** The handler accepts a pay request only with [0 < amount]; the amount
    is an [int64]. *)
Definition valid_call (c : call) : Prop :=
  match c with
  | CallPay _ _ req => 0 < PayRequest.Amount req <= INT64_MAX
  | _ => True
  end.

Definition is_recharge (c : call) : bool :=
  match c with
  | CallRecharge _ _ => true
  | _ => false
  end.

(** ** Concrete data for the examples *)

Definition demo_cfg : Config :=
  {| Business := {| OrderTimeoutMinutes := 30; MaxRetryCount := 3 |};
     Kafka_Topic_PayResult := "pay_result" |}.

(** A stand-in encoder: the event record as [key=value] pairs. *)
Definition demo_Marshal (fields : list (string * json)) : string :=
  String.concat ","
    (map (fun kv => fst kv +:+ "=" +:+
                    match snd kv with JString s => s | JInt n => pretty n end)
         fields).

Definition demo_Format (t : Z) : string := pretty t.

(** A message bus that accepts every message and one that refuses all. *)
Definition bus_up (topic key payload : string) : option error := None.
Definition bus_down (topic key payload : string) : option error :=
  Some (ErrNew "broker unavailable").

Definition demo_pay_request : PayRequest.t :=
  PayRequest.mk "R4" 7 50 "COIN_VIDEO" "v1".

Definition demo_refund_request : RefundRequest.t :=
  RefundRequest.mk "F1" "PAY0001" "changed mind".

(** User 7 recharges 1000 on the empty store, pays 50 for request R4 and
    is refunded. *)
Definition world_funded : World :=
  snd (AccountService_Recharge 7 1000 empty_World).

Definition world_paid : World :=
  snd (PayService_Pay demo_Marshal demo_Format demo_cfg "PAY0001" "TXN0001"
         demo_pay_request world_funded).

Definition world_refunded : World :=
  snd (RefundService_Refund demo_Marshal demo_Format demo_cfg "REF0001" "TXN0002"
         demo_refund_request world_paid).

(** The world after the payment, with a REFUND row added to the ledger
    behind the PAY row while the order is still PAID. *)
Definition world_paid_refund_row : World :=
  with_db
    (with_account_transaction
       (account_transaction (db world_paid)
        ++ [AccountTransaction.mk "TXN0007" 7 "PAY0001" 50 "REFUND" 950 1000 "" 0])
       (db world_paid))
    world_paid.

(** An order that has only been created. *)
Definition world_created : World :=
  mkWorld
    (mkDB ∅ [PayOrder.mk "PAY0005" "R5" 7 50 "COIN_VIDEO" "v1" "CREATED" (30 * Minute)
               None 0 0] [] ∅ 1)
    ∅ [] 5.

(** An order stuck in PAYING for ten hours. *)
Definition stuck_order : PayOrder.t :=
  PayOrder.mk "PAY0009" "R9" 7 50 "COIN_VIDEO" "v1" "PAYING" (30 * Minute) None 0 0.

(** An order stuck in PAYING that has no ledger row. *)
Definition world_stuck_unpaid : World :=
  mkWorld (mkDB ∅ [stuck_order] [] ∅ 1) ∅ [] (600 * Minute).

(** An order stuck in PAYING whose only ledger row is its PAY row. *)
Definition world_stuck_paid : World :=
  mkWorld
    (mkDB ∅ [stuck_order]
       [AccountTransaction.mk "TXN0009" 7 "PAY0009" (-50) "PAY" 1000 950 "" 0]
       ∅ 1)
    ∅ [] (600 * Minute).

(** A pending outbox row that has already failed twice. *)
Definition outbox_row : OutboxMessage.t :=
  OutboxMessage.mk 1 "PAY0001" "pay_result" "{}" "PENDING" 2 0 0.

Definition world_outbox : World :=
  mkWorld (mkDB ∅ [] [] {[1 := outbox_row]} 2) ∅ [] 5.

(** ** The mutex *)

(** The world after [n] refused attempts of [Lock]: [n] commands logged,
    [n] waits. *)
Definition refused (n : nat) (l : lock.DistributedLock) (retryInterval : Z) (w : World)
    : World :=
  mkWorld (db w) (kv w)
    (repeat (SETNX (lock.key l) (lock.value l) (lock.expiration l)) n ++ kv_log w)
    (clock w + Z.of_nat n * retryInterval).

(** A lease that the key-value store keeps as it is given: positive and a
    whole number of milliseconds. *)
Definition proper_lease (l : lock.DistributedLock) : Prop :=
  0 < lock.expiration l /\ lock.expiration l `mod` Millisecond = 0.

(** Two owners of the per-user payment lock of user 7. *)
Definition lock_a : lock.DistributedLock := lock.NewPayLock 7 "R4".
Definition lock_b : lock.DistributedLock := lock.NewPayLock 7 "R5".

(** The empty world in which request R4 holds that lock. *)
Definition world_locked : World := snd (lock.TryLock lock_a empty_World).

(** ** Frames *)

(** Two stores that differ at most by an empty account row: same orders,
    ledger and outbox, same balance and version for every user. *)
Definition same_business (d d' : DB) : Prop :=
  pay_order d' = pay_order d /\
  account_transaction d' = account_transaction d /\
  outbox_message d' = outbox_message d /\
  outbox_auto_increment d' = outbox_auto_increment d /\
  forall u, balance_of d' u = balance_of d u /\ version_of d' u = version_of d u.

(** The per-order refund lock of a request. *)
Definition refund_lock (req : RefundRequest.t) : lock.DistributedLock :=
  lock.NewDistributedLock ("refund:lock:order:" +:+ RefundRequest.OrderNo req)
    (RefundRequest.RequestID req) (30 * Second).

(** The funded world in which another request holds user 7's payment lock
    for the next 30 seconds. *)
Definition world_funded_locked : World :=
  snd (lock.TryLock lock_b world_funded).

(** ** Jobs over the order table *)

(** Two worlds that differ at most in the order table. *)
Definition same_but_orders (w w' : World) : Prop :=
  kv w' = kv w /\ kv_log w' = kv_log w /\ clock w' = clock w /\
  account (db w') = account (db w) /\
  account_transaction (db w') = account_transaction (db w) /\
  outbox_message (db w') = outbox_message (db w) /\
  outbox_auto_increment (db w') = outbox_auto_increment (db w).

(** Whether some row of [orders] carries the order number of [o]. *)
Definition named_in (orders : list PayOrder.t) (o : PayOrder.t) : bool :=
  existsb (fun x => OrderRepository.has_order_no (PayOrder.OrderNo x) o) orders.

(** The row a closing update leaves. *)
Definition closed (now : Z) (o : PayOrder.t) : PayOrder.t :=
  PayOrder.set_status model.OrderStatusClosed None now o.

(** The order numbers of the table, in table order. *)
Definition order_numbers (d : DB) : list string := map PayOrder.OrderNo (pay_order d).

(** What a round of the compensation job may do to an order row: nothing,
    or move a PAYING row to PAID (stamping the payment time) or to
    FAILED. *)
Definition settled (now : Z) (o o' : PayOrder.t) : Prop :=
  o' = o \/
  (PayOrder.Status o = model.OrderStatusPaying /\
   (o' = PayOrder.set_status model.OrderStatusPaid (Some now) now o \/
    o' = PayOrder.set_status model.OrderStatusFailed None now o)).

(** ** The outbox relay *)

(** Every outbox row is stored under its own id. *)
Definition outbox_keyed (d : DB) : Prop :=
  forall id m, outbox_message d !! id = Some m -> OutboxMessage.ID m = id.

(** Two worlds that differ at most in the rows of the outbox table. *)
Definition same_but_outbox (w w' : World) : Prop :=
  kv w' = kv w /\ kv_log w' = kv_log w /\ clock w' = clock w /\
  account (db w') = account (db w) /\
  pay_order (db w') = pay_order (db w) /\
  account_transaction (db w') = account_transaction (db w) /\
  outbox_auto_increment (db w') = outbox_auto_increment (db w).

(** The row of a message once it has been published. *)
Definition sent (now : Z) (m : OutboxMessage.t) : OutboxMessage.t :=
  OutboxMessage.mk (OutboxMessage.ID m) (OutboxMessage.MessageKey m)
    (OutboxMessage.Topic m) (OutboxMessage.Payload m) model.OutboxStatusSent
    (OutboxMessage.RetryCount m) (OutboxMessage.CreatedAt m) now.

(** ** Identifiers *)

(** [n] calls of [Generate] in a row, with the ids in the order they were
    handed out. *)
Fixpoint Generate_n (n : nat) (s : idgen.Snowflake) (readings : list Z)
    : option (list Z * idgen.Snowflake * list Z) :=
  match n with
  | O => Some ([], s, readings)
  | S n =>
      match idgen.Generate s readings with
      | None => None
      | Some (id, s1, r1) =>
          match Generate_n n s1 r1 with
          | None => None
          | Some (ids, s2, r2) => Some (id :: ids, s2, r2)
          end
      end
  end.

(** Clock readings inside the 41 bits that the layout gives the
    timestamp: from the epoch (2024-01-01) for about 69 years. *)
Definition in_epoch (t : Z) : Prop := idgen.epoch <= t < idgen.epoch + 2 ^ 41.

(** ** Operations *)

(** A service call with the identifiers it draws, a round of one of the
    three jobs, or the passing of time. *)
Inductive operation : Type :=
| OpPay (orderNo transactionNo : string) (req : PayRequest.t)
| OpRefund (refundNo transactionNo : string) (req : RefundRequest.t)
| OpRecharge (userID amount : Z)
| OpCreateOrder (orderNo : string) (req : CreateOrderRequest.t)
| OpCancelOrder (orderNo : string)
| OpCloseExpiredOrders
| OpCompensatePayingOrders
| OpProcessPendingMessages
| OpSleep (d : Z).

Definition perform (json_Marshal : list (string * json) -> string)
    (Format_RFC3339 : Z -> string)
    (mq_SendMessage : string -> string -> string -> option error) (cfg : Config)
    (op : operation) (w : World) : World :=
  match op with
  | OpPay orderNo transactionNo req =>
      snd (PayService_Pay json_Marshal Format_RFC3339 cfg orderNo transactionNo req w)
  | OpRefund refundNo transactionNo req =>
      snd (RefundService_Refund json_Marshal Format_RFC3339 cfg refundNo transactionNo req w)
  | OpRecharge userID amount => snd (AccountService_Recharge userID amount w)
  | OpCreateOrder orderNo req => snd (OrderService_CreateOrder cfg orderNo req w)
  | OpCancelOrder orderNo => snd (OrderService_CancelOrder orderNo w)
  | OpCloseExpiredOrders => OrderTimeoutJob_closeExpiredOrders w
  | OpCompensatePayingOrders => PayingOrderCompensateJob_compensatePayingOrders cfg w
  | OpProcessPendingMessages => OutboxSender_processPendingMessages mq_SendMessage cfg w
  | OpSleep d => lock.sleep d w
  end.

(** ** What the store keeps *)

(** One step of the order life cycle. *)
Definition edge (a b : string) : Prop := In (a, b) dag_edges.

(** The same order at a later time: its identity and its amount are the
    ones it had, and its status has moved along the life cycle (or not at
    all). *)
Definition moved (o o' : PayOrder.t) : Prop :=
  PayOrder.OrderNo o' = PayOrder.OrderNo o /\
  PayOrder.RequestID o' = PayOrder.RequestID o /\
  PayOrder.UserID o' = PayOrder.UserID o /\
  PayOrder.Amount o' = PayOrder.Amount o /\
  rtc edge (PayOrder.Status o) (PayOrder.Status o').

(** Nothing is lost between two stores: the orders are the old ones, each
    moved, followed by new ones; the ledger is the old ledger followed by
    new rows; no account and no outbox row has gone. *)
Definition history_kept (d d' : DB) : Prop :=
  (exists l' added, pay_order d' = l' ++ added /\ Forall2 moved (pay_order d) l') /\
  (exists added, account_transaction d' = account_transaction d ++ added) /\
  (forall u, is_Some (account d !! u) -> is_Some (account d' !! u)) /\
  (forall id, is_Some (outbox_message d !! id) -> is_Some (outbox_message d' !! id)).

(** ** Concrete data for the further examples *)

(** The created order of [world_created], 31 minutes later. *)
Definition world_expired : World := lock.sleep (31 * Minute) world_created.

Definition demo_create_request : CreateOrderRequest.t :=
  CreateOrderRequest.mk "R5" 7 50 "COIN_VIDEO" "v1".

(** The empty world after an order has been created for request R5. *)
Definition world_ordered : World :=
  snd (OrderService_CreateOrder demo_cfg "PAY0005" demo_create_request empty_World).

(** A generator for worker 1 that has not been used yet. *)
Definition demo_generator : idgen.Snowflake := idgen.mk 0 1 0.

(** ** Orders at a later time *)

(** The orders of [d] are still in [d'], in their places, each moved; new
    ones come after them. *)
Definition orders_kept (d d' : DB) : Prop :=
  exists l' added, pay_order d' = l' ++ added /\ Forall2 moved (pay_order d) l'.

(** The world after a list of operations, performed one after the other. *)
Definition perform_all (json_Marshal : list (string * json) -> string)
    (Format_RFC3339 : Z -> string)
    (mq_SendMessage : string -> string -> string -> option error) (cfg : Config)
    (ops : list operation) (w : World) : World :=
  fold_left (fun w op => perform json_Marshal Format_RFC3339 mq_SendMessage cfg op w)
    ops w.

(** The world in which the order of [world_ordered] has been cancelled. *)
Definition world_cancelled : World :=
  snd (OrderService_CancelOrder "PAY0005" world_ordered).

(** ** The ledger and the orders *)

(** Every ledger row belongs to an order of the table, and a row that is
    not a PAY row belongs to an order that is being refunded or has been:
    the refund is the only writer of such rows, and it writes them after it
    has moved the order from PAID to REFUNDING. *)
Definition rows_ok (orders : list PayOrder.t) (ledger : list AccountTransaction.t)
    : Prop :=
  (forall x, In x ledger ->
     exists o, In o orders /\ PayOrder.OrderNo o = AccountTransaction.OrderNo x) /\
  (forall x o, In x ledger -> In o orders ->
     PayOrder.OrderNo o = AccountTransaction.OrderNo x ->
     AccountTransaction.Type_ x = model.TransactionTypePay \/
     PayOrder.Status o = model.OrderStatusRefunding \/
     PayOrder.Status o = model.OrderStatusRefunded).

(** A store as the services and the jobs leave it: order numbers are
    unique (the column carries a unique index) and the ledger follows the
    orders. *)
Definition ledger_ok (d : DB) : Prop :=
  List.NoDup (order_numbers d) /\ rows_ok (pay_order d) (account_transaction d).

(** * Properties *)

(** ** Machine integers *)

Lemma in_int64_small (z : Z) : 0 <= z <= INT64_MAX -> in_int64 z = true.
Proof.
  unfold in_int64, INT64_MIN, INT64_MAX. intros H.
  apply andb_true_iff. split; apply Z.leb_le; lia.
Qed.

Lemma wrap64_small (z : Z) : INT64_MIN <= z <= INT64_MAX -> wrap64 z = z.
Proof.
  unfold wrap64, INT64_MIN, INT64_MAX. intros H. rewrite Z.mod_small; lia.
Qed.

(** ** Order status transitions *)

Lemma CanTransitionTo_edges (fromStatus toStatus : string) :
  model.CanTransitionTo fromStatus toStatus = true <->
  In (fromStatus, toStatus) dag_edges.
Proof.
  unfold model.CanTransitionTo, model.ValidStatusTransitions, dag_edges. split.
  - rewrite !lookup_insert, lookup_empty.
    repeat case_decide; subst; simpl; try discriminate;
      rewrite ?orb_true_iff, ?bool_decide_eq_true; intros Hx;
      decompose [or] Hx; subst; try discriminate; auto 10.
  - simpl. intros Hx. decompose [or] Hx; try contradiction;
      match goal with E : (_, _) = (_, _) |- _ => inversion E end; reflexivity.
Qed.

Lemma rows_affected_zero {A : Type} (p : A -> bool) (l : list A) :
  Z.of_nat (length (List.filter p l)) = 0 <-> forall x, In x l -> p x = false.
Proof.
  induction l as [|a l IH]; simpl.
  - split; [intros _ x []|reflexivity].
  - destruct (p a) eqn:Ea; simpl.
    + split; [lia|]. intros H. specialize (H a (or_introl eq_refl)). congruence.
    + rewrite IH. split.
      * intros H x [->|Hx]; auto.
      * intros H x Hx. apply H. now right.
Qed.

Lemma rows_affected_pos {A : Type} (p : A -> bool) (l : list A) (x : A) :
  In x l -> p x = true -> (Z.of_nat (length (List.filter p l)) =? 0) = false.
Proof.
  intros Hx Hp. apply Z.eqb_neq. rewrite rows_affected_zero.
  intros H. specialize (H x Hx). congruence.
Qed.

Lemma UpdateStatus_rejected (now : Z) (orderNo fromStatus toStatus : string) (tx : DB) :
  ~ In (fromStatus, toStatus) dag_edges \/
  (forall o, In o (pay_order tx) ->
     OrderRepository.matches orderNo fromStatus o = false) ->
  OrderRepository.UpdateStatus now orderNo fromStatus toStatus tx
  = Err ErrOrderStatusInvalid.
Proof.
  intros H. unfold OrderRepository.UpdateStatus.
  destruct (model.CanTransitionTo fromStatus toStatus) eqn:Ec; simpl; [|reflexivity].
  destruct H as [H|H].
  - exfalso. apply H. now apply CanTransitionTo_edges.
  - apply rows_affected_zero in H. rewrite H. reflexivity.
Qed.

Lemma UpdateStatus_applied (now : Z) (orderNo fromStatus toStatus : string) (tx : DB)
    (o : PayOrder.t) :
  In (fromStatus, toStatus) dag_edges ->
  In o (pay_order tx) -> OrderRepository.matches orderNo fromStatus o = true ->
  OrderRepository.UpdateStatus now orderNo fromStatus toStatus tx
  = Ok (with_pay_order (transitioned now orderNo fromStatus toStatus (pay_order tx)) tx).
Proof.
  intros He Hin Hm. unfold OrderRepository.UpdateStatus.
  apply CanTransitionTo_edges in He. rewrite He. simpl.
  rewrite (rows_affected_pos _ _ o Hin Hm). reflexivity.
Qed.

(** C2. The transition check accepts a pair of statuses exactly when it is
    an edge of the life-cycle graph CREATED -> PAYING | CLOSED | CANCELLED,
    PAYING -> PAID | FAILED, PAID -> REFUNDING, REFUNDING -> REFUNDED.  The
    guarded update answers [ErrOrderStatusInvalid] and leaves the store as
    it was when the pair is not an edge and also when no row has the given
    order number together with the expected status; when the pair is an
    edge and such a row exists, it rewrites exactly the selected rows. *)
Theorem order_transition_guard
    (now : Z) (orderNo fromStatus toStatus : string) (d : DB) :
  (model.CanTransitionTo fromStatus toStatus = true <->
   In (fromStatus, toStatus) dag_edges) /\
  (~ In (fromStatus, toStatus) dag_edges ->
   autocommit (OrderRepository.UpdateStatus now orderNo fromStatus toStatus) d
   = (Some ErrOrderStatusInvalid, d)) /\
  ((forall o, In o (pay_order d) -> PayOrder.OrderNo o = orderNo ->
      PayOrder.Status o <> fromStatus) ->
   autocommit (OrderRepository.UpdateStatus now orderNo fromStatus toStatus) d
   = (Some ErrOrderStatusInvalid, d)) /\
  (In (fromStatus, toStatus) dag_edges ->
   (exists o, In o (pay_order d) /\ PayOrder.OrderNo o = orderNo /\
      PayOrder.Status o = fromStatus) ->
   autocommit (OrderRepository.UpdateStatus now orderNo fromStatus toStatus) d
   = (None, with_pay_order
              (transitioned now orderNo fromStatus toStatus (pay_order d)) d)).
Proof.
  split; [apply CanTransitionTo_edges|]. unfold autocommit, Transaction.
  repeat split.
  - intros H. rewrite UpdateStatus_rejected; auto.
  - intros H. rewrite UpdateStatus_rejected; auto. right. intros o Hin.
    unfold OrderRepository.matches, OrderRepository.has_order_no.
    destruct (bool_decide (PayOrder.OrderNo o = orderNo)) eqn:E1; [|reflexivity].
    apply bool_decide_eq_true in E1. simpl. apply bool_decide_eq_false. auto.
  - intros He (o & Hin & Hno & Hst).
    rewrite (UpdateStatus_applied _ _ _ _ _ o); auto.
    unfold OrderRepository.matches, OrderRepository.has_order_no.
    rewrite !bool_decide_eq_true_2; auto.
Qed.

(** ** Cancelling an order *)

Lemma GetByOrderNo_Ok (d : DB) (orderNo : string) (order : PayOrder.t) :
  OrderRepository.GetByOrderNo d orderNo = Ok order ->
  In order (pay_order d) /\ PayOrder.OrderNo order = orderNo.
Proof.
  unfold OrderRepository.GetByOrderNo.
  destruct (find _ _) as [o|] eqn:Ef; [|discriminate].
  intros [= <-]. apply find_some in Ef as [Hin Hno].
  apply bool_decide_eq_true in Hno. auto.
Qed.

Lemma UpdateStatus_Ok (now : Z) (orderNo fromStatus toStatus : string) (tx tx' : DB) :
  OrderRepository.UpdateStatus now orderNo fromStatus toStatus tx = Ok tx' ->
  model.CanTransitionTo fromStatus toStatus = true /\
  tx' = with_pay_order (transitioned now orderNo fromStatus toStatus (pay_order tx)) tx.
Proof.
  unfold OrderRepository.UpdateStatus.
  destruct (model.CanTransitionTo fromStatus toStatus); simpl; [|discriminate].
  destruct (_ =? 0); [discriminate|]. intros [= <-]. auto.
Qed.

Lemma only_created_cancels (s : string) :
  model.CanTransitionTo s model.OrderStatusCancelled = true <->
  s = model.OrderStatusCreated.
Proof.
  rewrite CanTransitionTo_edges. unfold dag_edges. simpl. split.
  - intros H. decompose [or] H; try contradiction;
      match goal with E : (_, _) = (_, _) |- _ => inversion E end;
      reflexivity.
  - intros ->. auto.
Qed.

(** C10. Only CREATED may move to CANCELLED.  [CancelOrder] therefore
    succeeds only for an order whose stored status is CREATED, and then
    rewrites the selected rows to CANCELLED; for an order in any other
    status, CANCELLED included, it answers [ErrOrderStatusInvalid] and the
    world is the one it started from. *)
Theorem cancel_order_only_from_created (orderNo : string) (w : World) :
  (forall s, model.CanTransitionTo s model.OrderStatusCancelled = true <->
             s = model.OrderStatusCreated) /\
  (fst (OrderService_CancelOrder orderNo w) = None ->
   exists order, OrderRepository.GetByOrderNo (db w) orderNo = Ok order /\
                 PayOrder.Status order = model.OrderStatusCreated) /\
  (forall order,
     OrderRepository.GetByOrderNo (db w) orderNo = Ok order ->
     PayOrder.Status order <> model.OrderStatusCreated ->
     OrderService_CancelOrder orderNo w = (Some ErrOrderStatusInvalid, w)) /\
  (forall order,
     OrderRepository.GetByOrderNo (db w) orderNo = Ok order ->
     PayOrder.Status order = model.OrderStatusCreated ->
     OrderService_CancelOrder orderNo w
     = (None, with_db (with_pay_order
                         (transitioned (clock w) orderNo model.OrderStatusCreated
                            model.OrderStatusCancelled (pay_order (db w))) (db w)) w)).
Proof.
  split; [apply only_created_cancels|]. unfold OrderService_CancelOrder.
  split; [|split].
  - destruct (OrderRepository.GetByOrderNo (db w) orderNo) as [order|e] eqn:Eg;
      [|discriminate].
    destruct (OrderRepository.UpdateStatus _ _ _ _ _) as [d'|e] eqn:Eu; [|discriminate].
    intros _. exists order. split; [reflexivity|].
    apply UpdateStatus_Ok in Eu as [Hc _]. now apply only_created_cancels.
  - intros order -> Hs. rewrite UpdateStatus_rejected; [reflexivity|].
    left. rewrite <- CanTransitionTo_edges, only_created_cancels. exact Hs.
  - intros order Hg Hs. rewrite Hg.
    apply GetByOrderNo_Ok in Hg as [Hin Hno]. rewrite Hs.
    rewrite (UpdateStatus_applied _ _ _ _ _ order); auto.
    + simpl. auto.
    + unfold OrderRepository.matches, OrderRepository.has_order_no.
      rewrite !bool_decide_eq_true_2; auto.
Qed.

(** ** The account store *)

Lemma move_balance_Some (now delta : Z) (a a' : Account.t) :
  AccountRepository.move_balance now delta a = Some a' ->
  a' = credited now delta a /\
  in_int64 (Account.Balance a + delta) = true /\
  in_int64 (Account.Version a + 1) = true.
Proof.
  unfold AccountRepository.move_balance, sql_bigint.
  destruct (in_int64 (Account.Balance a + delta)); simpl; [|discriminate].
  destruct (in_int64 (Account.Version a + 1)); simpl; [|discriminate].
  intros [= <-]. auto.
Qed.

Lemma Deduct_Ok (r_db : DB) (now userID amount version : Z) (tx tx' : DB) :
  AccountRepository.Deduct r_db now userID amount version tx = Ok tx' ->
  exists a, account tx !! userID = Some a /\
            amount <= Account.Balance a /\ Account.Version a = version /\
            tx' = with_account (<[userID := debited now amount a]> (account tx)) tx.
Proof.
  unfold AccountRepository.Deduct, AccountRepository.update_where,
    AccountRepository.GetByUserID.
  destruct (account tx !! userID) as [a|] eqn:Ea; simpl.
  - destruct ((amount <=? Account.Balance a) && (Account.Version a =? version)) eqn:Ec.
    + apply andb_true_iff in Ec as [E1 E2].
      apply Z.leb_le in E1. apply Z.eqb_eq in E2.
      destruct (AccountRepository.move_balance now (- amount) a) as [a'|] eqn:Em;
        simpl; [|discriminate].
      apply move_balance_Some in Em as (-> & _ & _).
      intros [= <-]. exists a. repeat split; auto.
    + simpl. destruct (account r_db !! userID); simpl; [|discriminate].
      destruct (_ <? _); discriminate.
  - destruct (account r_db !! userID); simpl; [|discriminate].
    destruct (_ <? _); discriminate.
Qed.

Lemma Deduct_Ok_range (r_db : DB) (now userID amount version : Z) (tx tx' : DB)
    (a : Account.t) :
  AccountRepository.Deduct r_db now userID amount version tx = Ok tx' ->
  account tx !! userID = Some a ->
  in_int64 (Account.Balance a - amount) = true.
Proof.
  unfold AccountRepository.Deduct, AccountRepository.update_where,
    AccountRepository.GetByUserID.
  intros H Ha. rewrite Ha in H. simpl in H.
  destruct ((amount <=? Account.Balance a) && (Account.Version a =? version)).
  - destruct (AccountRepository.move_balance now (- amount) a) as [a'|] eqn:Em;
      simpl in H; [|discriminate].
    apply move_balance_Some in Em as (_ & Hr & _). exact Hr.
  - simpl in H. destruct (account r_db !! userID); simpl in H; [|discriminate].
    destruct (_ <? _); discriminate.
Qed.

Lemma Deduct_no_row (r_db : DB) (now userID amount version : Z) (tx : DB) :
  (forall a, account tx !! userID = Some a ->
     ~ (amount <= Account.Balance a /\ Account.Version a = version)) ->
  AccountRepository.Deduct r_db now userID amount version tx
  = match account r_db !! userID with
    | Some cur => if Account.Balance cur <? amount then Err ErrBalanceNotEnough
                  else Err ErrOptimisticLock
    | None => Err ErrAccountNotFound
    end.
Proof.
  intros H.
  unfold AccountRepository.Deduct, AccountRepository.update_where,
    AccountRepository.GetByUserID.
  destruct (account tx !! userID) as [a|] eqn:Ea; simpl.
  - destruct ((amount <=? Account.Balance a) && (Account.Version a =? version)) eqn:Ec.
    + exfalso. apply andb_true_iff in Ec as [E1 E2].
      apply Z.leb_le in E1. apply Z.eqb_eq in E2. apply (H a); auto.
    + simpl. destruct (account r_db !! userID); reflexivity.
  - destruct (account r_db !! userID); reflexivity.
Qed.

Lemma Increase_Ok (now userID amount : Z) (tx tx' : DB) :
  AccountRepository.Increase now userID amount tx = Ok tx' ->
  exists a, account tx !! userID = Some a /\
            in_int64 (Account.Balance a + amount) = true /\
            tx' = with_account (<[userID := credited now amount a]> (account tx)) tx.
Proof.
  unfold AccountRepository.Increase, AccountRepository.update_where.
  destruct (account tx !! userID) as [a|] eqn:Ea; simpl; [|discriminate].
  destruct (AccountRepository.move_balance now amount a) as [a'|] eqn:Em;
    simpl; [|discriminate].
  apply move_balance_Some in Em as (-> & Hr & _).
  intros [= <-]. exists a. auto.
Qed.

Lemma Deduct_succeeds (r_db : DB) (now userID amount version : Z) (tx : DB)
    (a : Account.t) :
  account tx !! userID = Some a ->
  amount <= Account.Balance a -> Account.Version a = version ->
  in_int64 (Account.Balance a - amount) = true ->
  in_int64 (Account.Version a + 1) = true ->
  AccountRepository.Deduct r_db now userID amount version tx
  = Ok (with_account (<[userID := debited now amount a]> (account tx)) tx).
Proof.
  intros Ha Hb Hv Hr1 Hr2.
  unfold AccountRepository.Deduct, AccountRepository.update_where. rewrite Ha.
  apply Z.leb_le in Hb. apply Z.eqb_eq in Hv. rewrite Hb, Hv. simpl.
  unfold AccountRepository.move_balance, sql_bigint.
  change (Account.Balance a + - amount) with (Account.Balance a - amount).
  rewrite Hr1, Hr2. reflexivity.
Qed.

(** C3. A debit that succeeds found the account with a balance of at least
    the amount and with the expected version, and leaves it with the
    balance lowered by the amount, hence not negative, and the version
    raised by one.  When the conditional update selects no row, the account
    as read again decides the answer: [ErrBalanceNotEnough] when its balance
    is below the amount, [ErrOptimisticLock] otherwise. *)
Theorem conditional_debit
    (r_db : DB) (now userID amount version : Z) (tx : DB) :
  (forall tx', AccountRepository.Deduct r_db now userID amount version tx = Ok tx' ->
     exists a a', account tx !! userID = Some a /\
       amount <= Account.Balance a /\ Account.Version a = version /\
       account tx' !! userID = Some a' /\
       Account.Balance a' = Account.Balance a - amount /\
       0 <= Account.Balance a' /\
       Account.Version a' = version + 1) /\
  ((forall a, account tx !! userID = Some a ->
      ~ (amount <= Account.Balance a /\ Account.Version a = version)) ->
   forall cur, account r_db !! userID = Some cur ->
     (Account.Balance cur < amount ->
      AccountRepository.Deduct r_db now userID amount version tx
      = Err ErrBalanceNotEnough) /\
     (amount <= Account.Balance cur ->
      AccountRepository.Deduct r_db now userID amount version tx
      = Err ErrOptimisticLock)).
Proof.
  split.
  - intros tx' H. apply Deduct_Ok in H as (a & Ha & Hb & Hv & ->).
    exists a, (debited now amount a). simpl. rewrite lookup_insert_eq.
    repeat split; auto; simpl; lia.
  - intros H cur Hcur. rewrite (Deduct_no_row _ _ _ _ _ _ H), Hcur. split; intros Hc.
    + apply Z.ltb_lt in Hc. now rewrite Hc.
    + apply Z.ltb_ge in Hc. now rewrite Hc.
Qed.

(** ** Invariant I2 of the account table *)

Lemma accounts_ok_insert (d : DB) (u : Z) (a : Account.t) :
  accounts_ok d -> account_ok a ->
  accounts_ok (with_account (<[u := a]> (account d)) d).
Proof.
  intros Hd Ha u' a'. simpl. rewrite lookup_insert. case_decide.
  - intros [= <-]. exact Ha.
  - apply Hd.
Qed.

Lemma GetOrCreate_spec (now userID : Z) (d : DB) :
  AccountRepository.GetOrCreate now userID d
  = match account d !! userID with
    | Some a => (Ok a, d)
    | None =>
        let a := Account.mk userID 0 0 0 now now in
        (Ok a, with_account (<[userID := a]> (account d)) d)
    end.
Proof.
  unfold AccountRepository.GetOrCreate, AccountRepository.GetByUserID,
    AccountRepository.insert_ignore.
  destruct (account d !! userID) as [a|] eqn:Ea; [reflexivity|].
  simpl. rewrite Ea. simpl. now rewrite lookup_insert_eq.
Qed.

Lemma GetOrCreate_ok (now userID : Z) (d : DB) :
  accounts_ok d -> accounts_ok (snd (AccountRepository.GetOrCreate now userID d)).
Proof.
  intros Hd. rewrite GetOrCreate_spec.
  destruct (account d !! userID); simpl; [exact Hd|].
  apply accounts_ok_insert; [exact Hd|]. split; simpl; lia.
Qed.

Lemma GetOrCreate_observables (now userID u : Z) (d : DB) :
  version_of (snd (AccountRepository.GetOrCreate now userID d)) u = version_of d u /\
  balance_of (snd (AccountRepository.GetOrCreate now userID d)) u = balance_of d u.
Proof.
  rewrite GetOrCreate_spec. unfold version_of, balance_of.
  destruct (account d !! userID) eqn:Ea; simpl; [auto|].
  rewrite lookup_insert. case_decide; [subst; now rewrite Ea|auto].
Qed.

Lemma GetOrCreate_found (now userID : Z) (d : DB) :
  exists a, AccountRepository.GetOrCreate now userID d
            = (Ok a, snd (AccountRepository.GetOrCreate now userID d)) /\
            account (snd (AccountRepository.GetOrCreate now userID d)) !! userID = Some a /\
            Account.Balance a = balance_of d userID /\
            Account.Version a = version_of d userID.
Proof.
  rewrite GetOrCreate_spec. unfold balance_of, version_of.
  destruct (account d !! userID) as [a|] eqn:Ea; simpl.
  - exists a. auto.
  - eexists. rewrite lookup_insert_eq. repeat split; reflexivity.
Qed.

Lemma Recharge_cases (userID amount : Z) (w : World) :
  let d1 := snd (AccountRepository.GetOrCreate (clock w) userID (db w)) in
  (exists e, AccountService_Recharge userID amount w = (Some e, w)) \/
  (exists e, AccountService_Recharge userID amount w = (Some e, with_db d1 w)) \/
  (0 < amount /\
   exists a, account d1 !! userID = Some a /\
     Account.Balance a = balance_of (db w) userID /\
     Account.Version a = version_of (db w) userID /\
     AccountService_Recharge userID amount w
     = (None, with_db (with_account
                         (<[userID := credited (clock w) amount a]> (account d1)) d1) w)).
Proof.
  intros d1. unfold AccountService_Recharge.
  destruct (amount <=? 0) eqn:Eamt; [left; eauto|]. apply Z.leb_gt in Eamt.
  destruct (GetOrCreate_found (clock w) userID (db w)) as (a & Hg & Ha & Hb & Hv).
  fold d1 in Hg, Ha. rewrite Hg.
  destruct (AccountRepository.Increase (clock w) userID amount d1) as [d2|e] eqn:Ei.
  - right. right. split; [exact Eamt|].
    apply Increase_Ok in Ei as (a0 & Ha0 & _ & ->).
    rewrite Ha in Ha0. injection Ha0 as <-. exists a. auto.
  - right. left. eauto.
Qed.

(** C6. Starting from an account table whose balances and frozen amounts
    are not negative, a debit, a credit of a non-negative amount,
    get-or-create and recharge all end in such a table.  A successful debit
    and a successful credit raise the version of the user's row by exactly
    one, and so does a successful recharge (counted from version 0 when the
    row is created by the call); get-or-create changes neither the version
    nor the balance of any user. *)
Theorem account_invariant (d : DB) :
  accounts_ok d ->
  (forall r_db now u amount version d',
     AccountRepository.Deduct r_db now u amount version d = Ok d' ->
     accounts_ok d' /\ version_of d' u = version_of d u + 1) /\
  (forall now u amount d',
     0 <= amount ->
     AccountRepository.Increase now u amount d = Ok d' ->
     accounts_ok d' /\ version_of d' u = version_of d u + 1) /\
  (forall now u,
     accounts_ok (snd (AccountRepository.GetOrCreate now u d)) /\
     forall u', version_of (snd (AccountRepository.GetOrCreate now u d)) u'
                = version_of d u' /\
                balance_of (snd (AccountRepository.GetOrCreate now u d)) u'
                = balance_of d u') /\
  (forall u amount w,
     db w = d ->
     accounts_ok (db (snd (AccountService_Recharge u amount w))) /\
     (fst (AccountService_Recharge u amount w) = None ->
      version_of (db (snd (AccountService_Recharge u amount w))) u
      = version_of d u + 1)).
Proof.
  intros Hd. split; [|split; [|split]].
  - intros r_db now u amount version d' H.
    apply Deduct_Ok in H as (a & Ha & Hb & Hv & ->). split.
    + apply accounts_ok_insert; [exact Hd|].
      destruct (Hd _ _ Ha) as [H1 H2]. split; simpl; lia.
    + unfold version_of. simpl. now rewrite lookup_insert_eq, Ha.
  - intros now u amount d' Hpos H.
    apply Increase_Ok in H as (a & Ha & _ & ->). split.
    + apply accounts_ok_insert; [exact Hd|].
      destruct (Hd _ _ Ha) as [H1 H2]. split; simpl; lia.
    + unfold version_of. simpl. now rewrite lookup_insert_eq, Ha.
  - intros now u. split; [now apply GetOrCreate_ok|].
    intros u'. apply GetOrCreate_observables.
  - intros u amount w <-.
    pose proof (GetOrCreate_ok (clock w) u (db w) Hd) as Hd1.
    destruct (Recharge_cases u amount w)
      as [[e ->]|[[e ->]|(Hpos & a & Ha & Hb & Hv & ->)]]; simpl;
      (split; [|try discriminate]); auto.
    + apply accounts_ok_insert; [exact Hd1|].
      destruct (Hd1 _ _ Ha) as [H1 H2]. split; simpl; lia.
    + intros _. unfold version_of at 1. simpl. rewrite lookup_insert_eq. simpl. lia.
Qed.

(** ** Inversion of the store statements *)

Lemma bind_Ok {A B : Type} (m : result A) (k : A -> result B) (b : B) :
  bind m k = Ok b -> exists a, m = Ok a /\ k a = Ok b.
Proof. destruct m as [a|e]; simpl; [eauto|discriminate]. Qed.

Lemma wrapping_Ok {A : Type} (msg : string) (m : result A) (a : A) :
  wrapping msg m = Ok a -> m = Ok a.
Proof. destruct m; simpl; [auto|discriminate]. Qed.

Lemma existsb_false {A : Type} (p : A -> bool) (l : list A) :
  existsb p l = false <-> forall x, In x l -> p x = false.
Proof.
  induction l as [|a l IH]; simpl.
  - split; [intros _ x []|reflexivity].
  - rewrite orb_false_iff, IH. split.
    + intros [Ha Hl] x [<-|Hx]; auto.
    + intros H. split; [apply H; now left|]. intros x Hx. apply H. now right.
Qed.

Lemma find_app_none {A : Type} (p : A -> bool) (l l' : list A) :
  (forall x, In x l -> p x = false) -> find p (l ++ l') = find p l'.
Proof.
  induction l as [|a l IH]; simpl; [reflexivity|]. intros H.
  rewrite (H a (or_introl eq_refl)). apply IH. intros x Hx. apply H. now right.
Qed.

Lemma find_app_some {A : Type} (p : A -> bool) (l l' : list A) (x : A) :
  find p l = Some x -> find p (l ++ l') = Some x.
Proof.
  induction l as [|a l IH]; simpl; [discriminate|].
  destruct (p a); auto.
Qed.

Lemma OrderRepository_Create_Ok (now : Z) (order : PayOrder.t) (tx tx' : DB) :
  OrderRepository.Create now order tx = Ok tx' ->
  (forall o, In o (pay_order tx) ->
     OrderRepository.has_order_no (PayOrder.OrderNo order) o = false) /\
  (forall o, In o (pay_order tx) ->
     OrderRepository.has_request_id (PayOrder.RequestID order) o = false) /\
  tx' = with_pay_order (pay_order tx ++ [PayOrder.created now order]) tx.
Proof.
  unfold OrderRepository.Create.
  destruct (existsb _ _ || existsb _ _) eqn:E; [discriminate|].
  apply orb_false_iff in E as [E1 E2]. intros [= <-].
  rewrite existsb_false in E1, E2. auto.
Qed.

Lemma TransactionRepository_Create_Ok (now : Z) (trans : AccountTransaction.t)
    (tx tx' : DB) :
  TransactionRepository.Create now trans tx = Ok tx' ->
  tx' = with_account_transaction
          (account_transaction tx ++ [AccountTransaction.created now trans]) tx.
Proof.
  unfold TransactionRepository.Create.
  destruct (existsb _ _); [discriminate|]. now intros [= <-].
Qed.

Lemma OutboxRepository_Create_Ok (now : Z) (msg : OutboxMessage.t) (tx tx' : DB) :
  OutboxRepository.Create now msg tx = Ok tx' ->
  account tx' = account tx /\ pay_order tx' = pay_order tx /\
  account_transaction tx' = account_transaction tx.
Proof.
  unfold OutboxRepository.Create.
  destruct (outbox_message tx !! outbox_auto_increment tx); [discriminate|].
  intros [= <-]. auto.
Qed.

Lemma transitioned_other (now : Z) (orderNo fromStatus toStatus : string)
    (l : list PayOrder.t) :
  (forall o, In o l -> OrderRepository.has_order_no orderNo o = false) ->
  transitioned now orderNo fromStatus toStatus l = l.
Proof.
  intros H. unfold transitioned. rewrite <- (map_id l) at 2.
  apply map_ext_in. intros o Ho. unfold OrderRepository.matches.
  now rewrite (H o Ho).
Qed.

Lemma transitioned_last (now : Z) (orderNo fromStatus toStatus : string)
    (l : list PayOrder.t) (x : PayOrder.t) :
  (forall o, In o l -> OrderRepository.has_order_no orderNo o = false) ->
  PayOrder.OrderNo x = orderNo -> PayOrder.Status x = fromStatus ->
  transitioned now orderNo fromStatus toStatus (l ++ [x])
  = l ++ [PayOrder.set_status toStatus
            (if bool_decide (toStatus = model.OrderStatusPaid) then Some now else None)
            now x].
Proof.
  intros H Hno Hst. unfold transitioned. rewrite map_app.
  fold (transitioned now orderNo fromStatus toStatus l).
  rewrite transitioned_other by exact H. simpl.
  unfold OrderRepository.matches, OrderRepository.has_order_no.
  rewrite (bool_decide_eq_true_2 _ Hno), (bool_decide_eq_true_2 _ Hst). reflexivity.
Qed.

(** ** The key-value store leaves the relational store alone *)

Lemma Lock_loop_db (n : nat) (l : lock.DistributedLock) (i : Z) (w : World) :
  db (snd (lock.Lock_loop n l i w)) = db w.
Proof.
  revert w. induction n as [|n IH]; intros w; simpl; [reflexivity|].
  unfold lock.TryLock. destruct (lock.live w (lock.key l)); simpl; [|reflexivity].
  now rewrite IH.
Qed.

Lemma Lock_db (l : lock.DistributedLock) (i n : Z) (w : World) :
  db (snd (lock.Lock l i n w)) = db w.
Proof. apply Lock_loop_db. Qed.

Lemma Unlock_db (l : lock.DistributedLock) (w : World) :
  db (lock.Unlock l w) = db w.
Proof. unfold lock.Unlock. now destruct (bool_decide _). Qed.

(** ** Anatomy of a payment *)

Section Pay.

Variable json_Marshal : list (string * json) -> string.
Variable Format_RFC3339 : Z -> string.
Variable cfg : Config.

Lemma Pay_tx_Ok (orderNo transactionNo : string) (req : PayRequest.t)
    (account0 : Account.t) (order : PayOrder.t) (r_db : DB) (now : Z) (tx tx' : DB) :
  PayService_Pay_tx json_Marshal Format_RFC3339 cfg orderNo transactionNo req account0
    order r_db now tx = Ok tx' ->
  PayOrder.OrderNo order = orderNo ->
  PayOrder.Status order = model.OrderStatusCreated ->
  (forall o, In o (pay_order tx) -> OrderRepository.has_order_no orderNo o = false) /\
  (forall o, In o (pay_order tx) ->
     OrderRepository.has_request_id (PayOrder.RequestID order) o = false) /\
  exists a, account tx !! PayRequest.UserID req = Some a /\
    PayRequest.Amount req <= Account.Balance a /\
    Account.Version a = Account.Version account0 /\
    account tx'
    = <[PayRequest.UserID req := debited now (PayRequest.Amount req) a]> (account tx) /\
    pay_order tx' = pay_order tx ++ [paid_order now order] /\
    account_transaction tx'
    = account_transaction tx
      ++ [pay_row transactionNo orderNo req (Account.Balance account0) now] /\
    in_int64 (Account.Balance a - PayRequest.Amount req) = true.
Proof.
  intros H Hno Hst. unfold PayService_Pay_tx in H.
  apply bind_Ok in H as (tx1 & H1 & H). apply wrapping_Ok in H1.
  apply OrderRepository_Create_Ok in H1 as (Hf1 & Hf2 & ->). rewrite Hno in Hf1.
  apply bind_Ok in H as (tx2 & H2 & H). apply wrapping_Ok in H2.
  apply UpdateStatus_Ok in H2 as (_ & ->). simpl in H.
  rewrite transitioned_last in H by (auto).
  apply bind_Ok in H as (tx3 & H3 & H).
  destruct (AccountRepository.Deduct _ _ _ _ _ _) as [tx3'|e] eqn:Ed.
  2:{ destruct (errors_Is e ErrBalanceNotEnough); [discriminate|].
      destruct (errors_Is e ErrOptimisticLock); discriminate. }
  injection H3 as ->.
  pose proof Ed as Hrange.
  apply Deduct_Ok in Ed as (a & Ha & Hb & Hv & ->). simpl in Ha.
  apply (Deduct_Ok_range _ _ _ _ _ _ _ a) in Hrange; [|exact Ha].
  apply bind_Ok in H as (tx4 & H4 & H). apply wrapping_Ok in H4.
  apply TransactionRepository_Create_Ok in H4 as ->. simpl in H.
  apply bind_Ok in H as (tx5 & H5 & H). apply wrapping_Ok in H5.
  apply UpdateStatus_Ok in H5 as (_ & ->). simpl in H.
  rewrite transitioned_last in H by (auto).
  apply wrapping_Ok in H. apply OutboxRepository_Create_Ok in H as (Ea & Eo & El).
  simpl in Ea, Eo, El.
  split; [exact Hf1|]. split; [exact Hf2|].
  exists a. repeat split; auto.
Qed.

Lemma Pay_locked_replay (orderNo transactionNo : string) (req : PayRequest.t)
    (w : World) (o : PayOrder.t) :
  OrderRepository.GetByRequestID (db w) (PayRequest.RequestID req) = Some o ->
  PayService_Pay_locked json_Marshal Format_RFC3339 cfg orderNo transactionNo req w
  = (Ok (PayService_exists o), w).
Proof. intros H. unfold PayService_Pay_locked. now rewrite H. Qed.

Lemma Pay_replay (orderNo transactionNo : string) (req : PayRequest.t)
    (w : World) (o : PayOrder.t) :
  OrderRepository.GetByRequestID (db w) (PayRequest.RequestID req) = Some o ->
  PayService_Pay json_Marshal Format_RFC3339 cfg orderNo transactionNo req w
  = (Ok (PayService_exists o), w).
Proof. intros H. unfold PayService_Pay. now rewrite H. Qed.

Lemma Pay_locked_fresh (orderNo transactionNo : string) (req : PayRequest.t)
    (w w' : World) (r : PayResponse.t) :
  OrderRepository.GetByRequestID (db w) (PayRequest.RequestID req) = None ->
  PayService_Pay_locked json_Marshal Format_RFC3339 cfg orderNo transactionNo req w
  = (Ok r, w') ->
  pay_effect cfg orderNo transactionNo req (db w) (clock w) r (db w') /\
  w' = with_db (db w') w.
Proof.
  intros Hfresh. unfold PayService_Pay_locked. rewrite Hfresh.
  destruct (GetOrCreate_found (clock w) (PayRequest.UserID req) (db w))
    as (a0 & Hg & Ha0 & Hb0 & Hv0).
  pose proof (GetOrCreate_observables (clock w) (PayRequest.UserID req)) as Hobs.
  assert (Hpo : pay_order (snd (AccountRepository.GetOrCreate (clock w)
                                  (PayRequest.UserID req) (db w))) = pay_order (db w)
                /\ account_transaction (snd (AccountRepository.GetOrCreate (clock w)
                                  (PayRequest.UserID req) (db w)))
                   = account_transaction (db w)).
  { rewrite GetOrCreate_spec.
    destruct (account (db w) !! PayRequest.UserID req); simpl; auto. }
  destruct Hpo as [Hpo Hle].
  set (d1 := snd (AccountRepository.GetOrCreate (clock w) (PayRequest.UserID req) (db w)))
    in *.
  rewrite Hg.
  destruct (Account.Balance a0 <? PayRequest.Amount req) eqn:Eb; [discriminate|].
  unfold Transaction.
  destruct (PayService_Pay_tx _ _ _ _ _ _ _ _ _ _ _) as [d2|e] eqn:Et; [|discriminate].
  intros [= <- <-]. simpl. split; [|reflexivity].
  apply Pay_tx_Ok in Et as (Hf1 & Hf2 & a & Ha & Hamt & Hver & Eacc & Eord & Eled & Hrg);
    try reflexivity.
  rewrite Ha0 in Ha. injection Ha as <-.
  unfold pay_effect. rewrite Hpo in Hf1, Eord. rewrite Hle in Eled.
  split; [reflexivity|]. split; [exact Hf1|].
  split; [lia|].
  split; [unfold balance_of at 1; rewrite Eacc, lookup_insert_eq; simpl; lia|].
  split; [unfold version_of at 1; rewrite Eacc, lookup_insert_eq; simpl; lia|].
  split.
  { intros u Hu. unfold balance_of at 1. rewrite Eacc, lookup_insert_ne by auto.
    apply (Hobs u (db w)). }
  split; [exact Eord|]. split; [rewrite Eled, Hb0; reflexivity|].
  rewrite <- Hb0. exact Hrg.
Qed.

Lemma Pay_fresh (orderNo transactionNo : string) (req : PayRequest.t)
    (w w' : World) (r : PayResponse.t) :
  OrderRepository.GetByRequestID (db w) (PayRequest.RequestID req) = None ->
  PayService_Pay json_Marshal Format_RFC3339 cfg orderNo transactionNo req w
  = (Ok r, w') ->
  exists now, pay_effect cfg orderNo transactionNo req (db w) now r (db w').
Proof.
  intros Hfresh. unfold PayService_Pay. rewrite Hfresh.
  destruct (lock.Lock _ _ _ w) as [[e|] w1] eqn:El; [discriminate|].
  assert (Hdb : db w1 = db w).
  { change w1 with (snd (@None error, w1)). rewrite <- El. apply Lock_db. }
  destruct (PayService_Pay_locked _ _ _ _ _ _ w1) as [r2 w2] eqn:Ep.
  intros [= -> <-]. rewrite Unlock_db.
  apply Pay_locked_fresh in Ep as [He _]; [|now rewrite Hdb].
  rewrite Hdb in He. eauto.
Qed.

(** After a payment that was carried out, the request id leads to the new
    order. *)
Lemma pay_effect_lookup (orderNo transactionNo : string) (req : PayRequest.t)
    (d d' : DB) (now : Z) (r : PayResponse.t) :
  OrderRepository.GetByRequestID d (PayRequest.RequestID req) = None ->
  pay_effect cfg orderNo transactionNo req d now r d' ->
  OrderRepository.GetByRequestID d' (PayRequest.RequestID req)
  = Some (paid_order now (new_order cfg orderNo req now)) /\
  OrderRepository.GetByOrderNo d' orderNo
  = Ok (paid_order now (new_order cfg orderNo req now)).
Proof.
  intros Hfresh (_ & Hf & _ & _ & _ & _ & Eord & _ & _).
  unfold OrderRepository.GetByRequestID, OrderRepository.GetByOrderNo in *.
  rewrite Eord. split.
  - rewrite find_app_none by (intros x Hx; apply (find_none _ _ Hfresh x Hx)).
    simpl. unfold OrderRepository.has_request_id. simpl.
    now rewrite bool_decide_eq_true_2.
  - rewrite find_app_none by exact Hf.
    simpl. unfold OrderRepository.has_order_no. simpl.
    now rewrite bool_decide_eq_true_2.
Qed.

End Pay.

(** ** Anatomy of a refund *)

Section Refund.

Variable json_Marshal : list (string * json) -> string.
Variable Format_RFC3339 : Z -> string.
Variable cfg : Config.

Lemma Refund_tx_Ok (refundNo transactionNo : string) (req : RefundRequest.t)
    (order : PayOrder.t) (now : Z) (d d' : DB) (r : RefundResponse.t) :
  RefundService_Refund_tx json_Marshal Format_RFC3339 cfg refundNo transactionNo req
    order d now d = Ok d' ->
  r = RefundResponse.mk refundNo (RefundRequest.OrderNo req) (PayOrder.Amount order)
        model.OrderStatusRefunded "退款成功" ->
  refund_effect refundNo transactionNo req order d now r d'.
Proof.
  intros H Hr. unfold RefundService_Refund_tx in H.
  apply bind_Ok in H as (tx1 & H1 & H). apply wrapping_Ok in H1.
  apply UpdateStatus_Ok in H1 as (_ & ->).
  apply bind_Ok in H as (a0 & H2 & H). apply wrapping_Ok in H2.
  unfold AccountRepository.GetByUserID in H2.
  destruct (account d !! PayOrder.UserID order) as [a|] eqn:Ea; [|discriminate].
  injection H2 as <-.
  apply bind_Ok in H as (tx3 & H3 & H). apply wrapping_Ok in H3.
  apply Increase_Ok in H3 as (a' & Ha' & Hrg & ->). simpl in Ha'.
  rewrite Ea in Ha'. injection Ha' as <-.
  apply bind_Ok in H as (tx4 & H4 & H). apply wrapping_Ok in H4.
  apply TransactionRepository_Create_Ok in H4 as ->. simpl in H.
  apply bind_Ok in H as (tx5 & H5 & H). apply wrapping_Ok in H5.
  apply UpdateStatus_Ok in H5 as (_ & ->). simpl in H.
  apply wrapping_Ok in H. apply OutboxRepository_Create_Ok in H as (Eacc & Eord & Eled).
  simpl in Eacc, Eord, Eled.
  unfold refund_effect. split; [exact Hr|].
  split; [unfold balance_of; rewrite Eacc, lookup_insert_eq, Ea; reflexivity|].
  split; [unfold version_of; rewrite Eacc, lookup_insert_eq, Ea; reflexivity|].
  split.
  { intros u Hu. unfold balance_of. now rewrite Eacc, lookup_insert_ne by auto. }
  split; [exact Eord|]. unfold balance_of. rewrite Ea.
  split; [rewrite Eled; reflexivity|exact Hrg].
Qed.

Lemma Refund_locked_done (refundNo transactionNo : string) (req : RefundRequest.t)
    (w w' : World) (r : RefundResponse.t) :
  RefundService_Refund_locked json_Marshal Format_RFC3339 cfg refundNo transactionNo req w
  = (Ok r, w') ->
  RefundResponse.Message r = "退款成功"%string ->
  exists order,
    OrderRepository.GetByOrderNo (db w) (RefundRequest.OrderNo req) = Ok order /\
    PayOrder.Status order = model.OrderStatusPaid /\
    refund_effect refundNo transactionNo req order (db w) (clock w) r (db w').
Proof.
  unfold RefundService_Refund_locked.
  destruct (OrderRepository.GetByOrderNo (db w) (RefundRequest.OrderNo req))
    as [order|e] eqn:Eg; [|discriminate].
  destruct (bool_decide (PayOrder.Status order = model.OrderStatusPaid)) eqn:Es; simpl.
  - apply bool_decide_eq_true in Es. unfold Transaction.
    destruct (RefundService_Refund_tx _ _ _ _ _ _ _ _ _ _) as [d2|e] eqn:Et;
      [|discriminate].
    intros [= <- <-] _. exists order. split; [reflexivity|]. split; [exact Es|].
    simpl. now apply Refund_tx_Ok.
  - destruct (bool_decide (PayOrder.Status order = model.OrderStatusRefunded));
      [|discriminate].
    intros [= <- <-]. simpl. discriminate.
Qed.

Lemma Refund_done (refundNo transactionNo : string) (req : RefundRequest.t)
    (w w' : World) (r : RefundResponse.t) :
  RefundService_Refund json_Marshal Format_RFC3339 cfg refundNo transactionNo req w
  = (Ok r, w') ->
  RefundResponse.Message r = "退款成功"%string ->
  exists order now,
    OrderRepository.GetByOrderNo (db w) (RefundRequest.OrderNo req) = Ok order /\
    PayOrder.Status order = model.OrderStatusPaid /\
    refund_effect refundNo transactionNo req order (db w) now r (db w').
Proof.
  unfold RefundService_Refund.
  destruct (OrderRepository.GetByOrderNo (db w) (RefundRequest.OrderNo req))
    as [order|e] eqn:Eg.
  2:{ destruct (errors_Is e ErrOrderNotFound); discriminate. }
  destruct (bool_decide (PayOrder.Status order = model.OrderStatusPaid)) eqn:Es; simpl;
    [|discriminate].
  destruct (match TransactionRepository.GetByUserIDAndOrderNo _ _ _ with
            | Some x => _ | None => false end).
  { intros [= <- <-]. simpl. discriminate. }
  destruct (lock.Lock _ _ _ w) as [[e|] w1] eqn:El; [discriminate|].
  assert (Hdb : db w1 = db w).
  { change w1 with (snd (@None error, w1)). rewrite <- El. apply Lock_db. }
  destruct (RefundService_Refund_locked _ _ _ _ _ _ w1) as [r2 w2] eqn:Ep.
  intros [= -> <-] Hm. rewrite Unlock_db.
  apply Refund_locked_done in Ep as (order' & Hg' & Hs' & He); [|exact Hm].
  rewrite Hdb in Hg', He. rewrite Eg in Hg'. injection Hg' as <-.
  exists order, (clock w1). auto.
Qed.

End Refund.

(** ** Idempotency of pay *)

Lemma filter_none {A : Type} (p : A -> bool) (l : list A) :
  (forall x, In x l -> p x = false) -> List.filter p l = [].
Proof.
  induction l as [|a l IH]; simpl; [reflexivity|]. intros H.
  rewrite (H a (or_introl eq_refl)). apply IH. intros x Hx. apply H. now right.
Qed.


(** ** Refund round trip *)

(** C7. After a pay that was carried out (response "payment succeeded")
    and a refund of the order it returned that was carried out (response
    "refund succeeded"), whatever else happened to the key-value store and
    the clock in between, the user's balance is what it was before the
    pay: the pay lowered it by the amount of the request and the refund
    raised it by the amount of the order, which is the same amount. *)
Theorem refund_round_trip
    (json_Marshal : list (string * json) -> string) (Format_RFC3339 : Z -> string)
    (cfg : Config) (orderNo transactionNo refundNo transactionNo' : string)
    (req : PayRequest.t) (rreq : RefundRequest.t)
    (w w1 w1' w2 : World) (r1 : PayResponse.t) (r2 : RefundResponse.t) :
  PayService_Pay json_Marshal Format_RFC3339 cfg orderNo transactionNo req w
  = (Ok r1, w1) ->
  PayResponse.Message r1 = "支付成功"%string ->
  db w1' = db w1 ->
  RefundRequest.OrderNo rreq = PayResponse.OrderNo r1 ->
  RefundService_Refund json_Marshal Format_RFC3339 cfg refundNo transactionNo' rreq w1'
  = (Ok r2, w2) ->
  RefundResponse.Message r2 = "退款成功"%string ->
  balance_of (db w1) (PayRequest.UserID req)
  = balance_of (db w) (PayRequest.UserID req) - PayRequest.Amount req /\
  RefundResponse.Amount r2 = PayRequest.Amount req /\
  balance_of (db w2) (PayRequest.UserID req) = balance_of (db w) (PayRequest.UserID req).
Proof.
  intros Hpay Hm1 Hdb Hno Href Hm2.
  destruct (OrderRepository.GetByRequestID (db w) (PayRequest.RequestID req))
    as [o|] eqn:Eg.
  { rewrite (Pay_replay _ _ _ _ _ _ _ o Eg) in Hpay. injection Hpay as <- <-.
    simpl in Hm1. discriminate. }
  destruct (Pay_fresh _ _ _ _ _ _ _ _ _ Eg Hpay) as (now & He).
  destruct (pay_effect_lookup _ _ _ _ _ _ _ _ Eg He) as [_ Hl].
  pose proof He as (-> & _ & _ & Hbal & _ & _ & _ & _).
  simpl in Hno.
  destruct (Refund_done _ _ _ _ _ _ _ _ _ Href Hm2) as (order & now' & Hg & _ & Hr).
  rewrite Hdb, Hno, Hl in Hg. injection Hg as <-.
  destruct Hr as (-> & Hbal' & _). simpl in Hbal'. rewrite Hdb in Hbal'.
  simpl. split; [exact Hbal|]. split; [reflexivity|]. lia.
Qed.

(** ** Money conservation along pay and refund *)

Lemma Recharge_ledger (userID amount : Z) (w : World) :
  account_transaction (db (snd (AccountService_Recharge userID amount w)))
  = account_transaction (db w).
Proof.
  destruct (Recharge_cases userID amount w)
    as [[e ->]|[[e ->]|(Hpos & a & Ha & Hb & Hv & ->)]]; simpl; auto;
    rewrite GetOrCreate_spec; destruct (account (db w) !! userID); reflexivity.
Qed.

Lemma Recharge_balance (userID amount : Z) (w : World) :
  fst (AccountService_Recharge userID amount w) = None ->
  0 < amount /\
  balance_of (db (snd (AccountService_Recharge userID amount w))) userID
  = balance_of (db w) userID + amount.
Proof.
  destruct (Recharge_cases userID amount w)
    as [[e ->]|[[e ->]|(Hpos & a & Ha & Hb & Hv & ->)]]; simpl; try discriminate.
  intros _. split; [exact Hpos|].
  unfold balance_of at 1. simpl. rewrite lookup_insert_eq. simpl. lia.
Qed.

Lemma ledger_sum_snoc (u : Z) (l : list AccountTransaction.t) (x : AccountTransaction.t) :
  ledger_sum u (l ++ [x])
  = ledger_sum u l
    + (if TransactionRepository.has_user_id u x then AccountTransaction.Amount x else 0).
Proof.
  unfold ledger_sum. induction l as [|a l IH]; simpl.
  - destruct (TransactionRepository.has_user_id u x); lia.
  - rewrite IH. destruct (TransactionRepository.has_user_id u a); lia.
Qed.

Lemma in_step_refl (d : DB) : in_step d d.
Proof. intros u. lia. Qed.

Lemma in_step_trans (d1 d2 d3 : DB) : in_step d1 d2 -> in_step d2 d3 -> in_step d1 d3.
Proof. intros H1 H2 u. specialize (H1 u). specialize (H2 u). lia. Qed.

Lemma in_step_same (d d' : DB) :
  (forall u, balance_of d' u = balance_of d u) ->
  account_transaction d' = account_transaction d -> in_step d d'.
Proof. intros Hb Hl u. rewrite Hb, Hl. lia. Qed.

Lemma GetOrCreate_in_step (now userID : Z) (d : DB) :
  in_step d (snd (AccountRepository.GetOrCreate now userID d)).
Proof.
  apply in_step_same.
  - intros u. apply GetOrCreate_observables.
  - rewrite GetOrCreate_spec. destruct (account d !! userID); reflexivity.
Qed.

Lemma pay_effect_in_step (cfg : Config) (orderNo transactionNo : string)
    (req : PayRequest.t) (d d' : DB) (now : Z) (r : PayResponse.t) :
  0 < PayRequest.Amount req <= INT64_MAX ->
  pay_effect cfg orderNo transactionNo req d now r d' -> in_step d d'.
Proof.
  intros Hamt (_ & _ & _ & Hbal & _ & Hoth & _ & Eled & _) u.
  rewrite Eled, ledger_sum_snoc. unfold pay_row, TransactionRepository.has_user_id. simpl.
  rewrite wrap64_small by (unfold INT64_MIN, INT64_MAX in *; lia).
  case_bool_decide as Hu.
  - subst u. lia.
  - rewrite Hoth by congruence. lia.
Qed.

Lemma refund_effect_in_step (refundNo transactionNo : string) (req : RefundRequest.t)
    (order : PayOrder.t) (d d' : DB) (now : Z) (r : RefundResponse.t) :
  refund_effect refundNo transactionNo req order d now r d' -> in_step d d'.
Proof.
  intros (_ & Hbal & _ & Hoth & _ & Eled & _) u.
  rewrite Eled, ledger_sum_snoc. unfold refund_row, TransactionRepository.has_user_id. simpl.
  case_bool_decide as Hu.
  - subst u. lia.
  - rewrite Hoth by congruence. lia.
Qed.

(** The ledger row of a payment and of a refund records the balance before
    and after the mutation. *)
Lemma pay_row_matches (cfg : Config) (orderNo transactionNo : string)
    (req : PayRequest.t) (d d' : DB) (now : Z) (r : PayResponse.t) :
  pay_effect cfg orderNo transactionNo req d now r d' ->
  exists x, account_transaction d' = account_transaction d ++ [x] /\
    AccountTransaction.UserID x = PayRequest.UserID req /\
    AccountTransaction.Type_ x = model.TransactionTypePay /\
    AccountTransaction.BalanceBefore x = balance_of d (PayRequest.UserID req) /\
    AccountTransaction.BalanceAfter x = balance_of d' (PayRequest.UserID req).
Proof.
  intros (_ & _ & _ & Hbal & _ & _ & _ & Eled & Hrg).
  eexists. split; [exact Eled|]. simpl. repeat (split; [reflexivity|]).
  rewrite Hbal. apply wrap64_small.
  unfold in_int64 in Hrg. apply andb_true_iff in Hrg as [H1 H2].
  apply Z.leb_le in H1. apply Z.leb_le in H2. lia.
Qed.

Lemma refund_row_matches (refundNo transactionNo : string) (req : RefundRequest.t)
    (order : PayOrder.t) (d d' : DB) (now : Z) (r : RefundResponse.t) :
  refund_effect refundNo transactionNo req order d now r d' ->
  exists x, account_transaction d' = account_transaction d ++ [x] /\
    AccountTransaction.UserID x = PayOrder.UserID order /\
    AccountTransaction.Type_ x = model.TransactionTypeRefund /\
    AccountTransaction.BalanceBefore x = balance_of d (PayOrder.UserID order) /\
    AccountTransaction.BalanceAfter x = balance_of d' (PayOrder.UserID order).
Proof.
  intros (_ & Hbal & _ & _ & _ & Eled & Hrg).
  eexists. split; [exact Eled|]. simpl. repeat (split; [reflexivity|]).
  rewrite Hbal. apply wrap64_small.
  unfold in_int64 in Hrg. apply andb_true_iff in Hrg as [H1 H2].
  apply Z.leb_le in H1. apply Z.leb_le in H2. lia.
Qed.

Section Conservation.

Variable json_Marshal : list (string * json) -> string.
Variable Format_RFC3339 : Z -> string.
Variable cfg : Config.

Lemma Pay_locked_in_step (orderNo transactionNo : string) (req : PayRequest.t) (w : World) :
  0 < PayRequest.Amount req <= INT64_MAX ->
  in_step (db w)
    (db (snd (PayService_Pay_locked json_Marshal Format_RFC3339 cfg orderNo transactionNo
                req w))).
Proof.
  intros Hamt.
  destruct (PayService_Pay_locked json_Marshal Format_RFC3339 cfg orderNo transactionNo
              req w) as [r w'] eqn:Ep.
  simpl.
  destruct (OrderRepository.GetByRequestID (db w) (PayRequest.RequestID req))
    as [o|] eqn:Eg.
  { rewrite (Pay_locked_replay _ _ _ _ _ _ _ o Eg) in Ep. injection Ep as <- <-.
    apply in_step_refl. }
  destruct r as [r|e].
  { apply Pay_locked_fresh in Ep as [He _]; [|exact Eg].
    eapply pay_effect_in_step; eauto. }
  unfold PayService_Pay_locked in Ep. rewrite Eg in Ep.
  pose proof (GetOrCreate_in_step (clock w) (PayRequest.UserID req) (db w)) as Hg.
  destruct (AccountRepository.GetOrCreate (clock w) (PayRequest.UserID req) (db w))
    as [[a|e0] d1]; simpl in Hg.
  - destruct (Account.Balance a <? PayRequest.Amount req).
    + injection Ep as _ <-. exact Hg.
    + unfold Transaction in Ep.
      destruct (PayService_Pay_tx _ _ _ _ _ _ _ _ _ _ _); [discriminate|].
      injection Ep as _ <-. exact Hg.
  - injection Ep as _ <-. exact Hg.
Qed.

Lemma Pay_in_step (orderNo transactionNo : string) (req : PayRequest.t) (w : World) :
  0 < PayRequest.Amount req <= INT64_MAX ->
  in_step (db w)
    (db (snd (PayService_Pay json_Marshal Format_RFC3339 cfg orderNo transactionNo req w))).
Proof.
  intros Hamt. unfold PayService_Pay.
  destruct (OrderRepository.GetByRequestID (db w) (PayRequest.RequestID req));
    [apply in_step_refl|].
  pose proof (Lock_db (lock.NewPayLock (PayRequest.UserID req) (PayRequest.RequestID req))
                (100 * Millisecond) 30 w) as Hdb.
  destruct (lock.Lock _ _ _ w) as [[e|] w1]; simpl in Hdb.
  - simpl. rewrite Hdb. apply in_step_refl.
  - pose proof (Pay_locked_in_step orderNo transactionNo req w1 Hamt) as Hs.
    destruct (PayService_Pay_locked _ _ _ _ _ _ w1) as [r w2]. simpl in *.
    rewrite Unlock_db. now rewrite Hdb in Hs.
Qed.

Lemma Refund_locked_in_step (refundNo transactionNo : string) (req : RefundRequest.t)
    (w : World) :
  in_step (db w)
    (db (snd (RefundService_Refund_locked json_Marshal Format_RFC3339 cfg refundNo
                transactionNo req w))).
Proof.
  unfold RefundService_Refund_locked.
  destruct (OrderRepository.GetByOrderNo (db w) (RefundRequest.OrderNo req))
    as [order|e]; [|apply in_step_refl].
  destruct (bool_decide (PayOrder.Status order = model.OrderStatusPaid)); simpl.
  - unfold Transaction.
    destruct (RefundService_Refund_tx _ _ _ _ _ _ _ _ _ _) as [d2|e] eqn:Et; simpl.
    + eapply refund_effect_in_step. eapply Refund_tx_Ok; [exact Et|reflexivity].
    + apply in_step_refl.
  - destruct (bool_decide _); apply in_step_refl.
Qed.

Lemma Refund_in_step (refundNo transactionNo : string) (req : RefundRequest.t) (w : World) :
  in_step (db w)
    (db (snd (RefundService_Refund json_Marshal Format_RFC3339 cfg refundNo transactionNo
                req w))).
Proof.
  unfold RefundService_Refund.
  destruct (OrderRepository.GetByOrderNo (db w) (RefundRequest.OrderNo req))
    as [order|e].
  2:{ destruct (errors_Is e ErrOrderNotFound); apply in_step_refl. }
  destruct (negb _); [apply in_step_refl|].
  destruct (match TransactionRepository.GetByUserIDAndOrderNo _ _ _ with
            | Some x => _ | None => false end); [apply in_step_refl|].
  match goal with |- context [lock.Lock ?l ?i ?n w] =>
    pose proof (Lock_db l i n w) as Hdb; destruct (lock.Lock l i n w) as [[e|] w1]
  end; simpl in Hdb.
  - simpl. rewrite Hdb. apply in_step_refl.
  - pose proof (Refund_locked_in_step refundNo transactionNo req w1) as Hs.
    destruct (RefundService_Refund_locked _ _ _ _ _ _ w1) as [r w2]. simpl in *.
    rewrite Unlock_db. now rewrite Hdb in Hs.
Qed.

(** Along any sequence of pay and refund calls, whatever their outcome,
    every user's balance moves by the sum of the ledger amounts appended
    for that user: the balance is the initial balance plus the user's
    ledger amounts.  Recharge is left out: it moves the
    balance without a ledger row. *)
Lemma conservation_without_recharge (cs : list call) (w : World) :
  Forall valid_call cs ->
  forallb (fun c => negb (is_recharge c)) cs = true ->
  in_step (db w) (db (run json_Marshal Format_RFC3339 cfg cs w)).
Proof.
  revert w. induction cs as [|c cs IH]; intros w Hv Hn; [apply in_step_refl|].
  simpl in Hn. apply andb_true_iff in Hn as [Hc Hn].
  apply Forall_cons in Hv as [Hvc Hv].
  unfold run. simpl. fold (run json_Marshal Format_RFC3339 cfg cs).
  eapply in_step_trans; [|apply IH; assumption].
  destruct c as [orderNo transactionNo req|refundNo transactionNo req|u a|d]; simpl.
  - now apply Pay_in_step.
  - apply Refund_in_step.
  - discriminate.
  - apply in_step_refl.
Qed.

End Conservation.

(** A recharge that succeeds moves the balance and adds nothing to the
    ledger: it is never [in_step]. *)
Lemma Recharge_not_in_step (userID amount : Z) (w : World) :
  fst (AccountService_Recharge userID amount w) = None ->
  ~ in_step (db w) (db (snd (AccountService_Recharge userID amount w))).
Proof.
  intros H Hs. specialize (Hs userID).
  rewrite Recharge_ledger in Hs. apply Recharge_balance in H. lia.
Qed.

(** C1 (the code departs from the claim).  Recharging 1000 for user 7 on
    the empty store succeeds and raises the balance from 0 to 1000, yet the
    ledger is still empty: the balance is no longer the initial balance
    plus the sum of the user's ledger amounts, and the mutation has no
    ledger row. *)
Theorem recharge_writes_no_ledger_row :
  fst (AccountService_Recharge 7 1000 empty_World) = None /\
  balance_of (db empty_World) 7 = 0 /\
  balance_of (db world_funded) 7 = 1000 /\
  account_transaction (db world_funded) = [] /\
  balance_of (db world_funded) 7
  <> balance_of (db empty_World) 7
     + ledger_sum 7 (account_transaction (db world_funded)).
Proof. repeat split; try reflexivity. vm_compute. discriminate. Qed.

(** ** Refund of an order that is already refunded *)

Lemma Refund_rejects_refunded (json_Marshal : list (string * json) -> string)
    (Format_RFC3339 : Z -> string) (cfg : Config) (refundNo transactionNo : string)
    (req : RefundRequest.t) (w : World) (order : PayOrder.t) :
  OrderRepository.GetByOrderNo (db w) (RefundRequest.OrderNo req) = Ok order ->
  PayOrder.Status order = model.OrderStatusRefunded ->
  RefundService_Refund json_Marshal Format_RFC3339 cfg refundNo transactionNo req w
  = (Err (ErrRefundNotAllowed model.OrderStatusRefunded), w).
Proof.
  intros Hg Hs. unfold RefundService_Refund. rewrite Hg, Hs. reflexivity.
Qed.

Lemma Refund_locked_replays_refunded (json_Marshal : list (string * json) -> string)
    (Format_RFC3339 : Z -> string) (cfg : Config) (refundNo transactionNo : string)
    (req : RefundRequest.t) (w : World) (order : PayOrder.t) :
  OrderRepository.GetByOrderNo (db w) (RefundRequest.OrderNo req) = Ok order ->
  PayOrder.Status order = model.OrderStatusRefunded ->
  RefundService_Refund_locked json_Marshal Format_RFC3339 cfg refundNo transactionNo req w
  = (Ok (RefundService_refunded order), w).
Proof.
  intros Hg Hs. unfold RefundService_Refund_locked. rewrite Hg, Hs. reflexivity.
Qed.

(** C4 (the code departs from the claim).  After user 7 has paid order
    PAY0001 and been refunded, the stored status is REFUNDED.  A further
    refund request is turned down by the first status check with the
    error "status does not allow a refund, current status: REFUNDED"; the
    check made under the mutex, run on the same world, would have answered
    success with REFUNDED. *)
Theorem refund_of_refunded_order_is_rejected :
  let req := RefundRequest.mk "F2" "PAY0001" "again" in
  (PayOrder.Status <$> find (OrderRepository.has_order_no "PAY0001")
                            (pay_order (db world_refunded))) = Some "REFUNDED"%string /\
  RefundService_Refund demo_Marshal demo_Format demo_cfg "REF0002" "TXN0003" req
    world_refunded
  = (Err (ErrNew "订单状态不允许退款，当前状态: REFUNDED"), world_refunded) /\
  RefundService_Refund_locked demo_Marshal demo_Format demo_cfg "REF0002" "TXN0003" req
    world_refunded
  = (Ok (RefundResponse.mk "" "PAY0001" 50 "REFUNDED" "已退款，请勿重复操作"),
     world_refunded).
Proof. repeat split; reflexivity. Qed.

(** The ledger check made before the lock answers "already refunded" when
    the first ledger row of the user and order is a REFUND row. *)
Lemma Refund_ledger_check (json_Marshal : list (string * json) -> string)
    (Format_RFC3339 : Z -> string) (cfg : Config) (refundNo transactionNo : string)
    (req : RefundRequest.t) (w : World) (order : PayOrder.t) (x : AccountTransaction.t) :
  OrderRepository.GetByOrderNo (db w) (RefundRequest.OrderNo req) = Ok order ->
  PayOrder.Status order = model.OrderStatusPaid ->
  TransactionRepository.GetByUserIDAndOrderNo (db w) (PayOrder.UserID order)
    (RefundRequest.OrderNo req) = Some x ->
  AccountTransaction.Type_ x = model.TransactionTypeRefund ->
  RefundService_Refund json_Marshal Format_RFC3339 cfg refundNo transactionNo req w
  = (Ok (RefundService_refunded order), w).
Proof.
  intros Hg Hs Hx Ht. unfold RefundService_Refund. rewrite Hg, Hs, Hx, Ht. reflexivity.
Qed.

(** A REFUND row stored behind the PAY row of a PAID order is not seen by
    that check: the refund is carried out. *)
Example refund_ledger_check_reads_first_row :
  (exists x, In x (account_transaction (db world_paid_refund_row)) /\
             AccountTransaction.UserID x = 7 /\
             AccountTransaction.OrderNo x = "PAY0001"%string /\
             AccountTransaction.Type_ x = model.TransactionTypeRefund) /\
  fst (RefundService_Refund demo_Marshal demo_Format demo_cfg "REF0001" "TXN0002"
         demo_refund_request world_paid_refund_row)
  = Ok (RefundResponse.mk "REF0001" "PAY0001" 50 "REFUNDED" "退款成功") /\
  balance_of (db world_paid_refund_row) 7 = 950 /\
  balance_of (db (snd (RefundService_Refund demo_Marshal demo_Format demo_cfg "REF0001"
                         "TXN0002" demo_refund_request world_paid_refund_row))) 7 = 1000.
Proof.
  split.
  - eexists. split; [right; left; reflexivity|]. repeat split; reflexivity.
  - repeat split; vm_compute; reflexivity.
Qed.

(** ** The compensation job *)

Lemma guarded_update_drive (fromStatus toStatus orderNo : string) (w : World) :
  In (fromStatus, toStatus) dag_edges ->
  match OrderRepository.UpdateStatus (clock w) orderNo fromStatus toStatus (db w) with
  | Ok d' => with_db d' w
  | Err _ => w
  end = drive fromStatus toStatus orderNo w.
Proof.
  intros He. unfold drive.
  destruct (existsb _ _) eqn:Ex.
  - apply existsb_exists in Ex as (o & Hin & Hm).
    now rewrite (UpdateStatus_applied _ _ _ _ _ o).
  - rewrite UpdateStatus_rejected; [reflexivity|]. right. intros o Hin.
    destruct (OrderRepository.matches orderNo fromStatus o) eqn:Hm; [|reflexivity].
    assert (existsb (OrderRepository.matches orderNo fromStatus) (pay_order (db w)) = true)
      by (apply existsb_exists; eauto).
    congruence.
Qed.

(** When all ledger rows of an order number are PAY rows, looking at the
    first of them is the same as asking whether a PAY row exists. *)
Lemma first_row_decides_when_only_pay_rows (d : DB) (orderNo : string) :
  (forall x, In x (account_transaction d) ->
     AccountTransaction.OrderNo x = orderNo ->
     AccountTransaction.Type_ x = model.TransactionTypePay) ->
  (exists x, In x (account_transaction d) /\ AccountTransaction.OrderNo x = orderNo /\
             AccountTransaction.Type_ x = model.TransactionTypePay) <->
  (exists x, TransactionRepository.GetByOrderNo d orderNo = Some x /\
             AccountTransaction.Type_ x = model.TransactionTypePay).
Proof.
  intros Hall. unfold TransactionRepository.GetByOrderNo. split.
  - intros (x & Hin & Hno & Hty).
    destruct (find (TransactionRepository.has_order_no orderNo) (account_transaction d))
      as [y|] eqn:Ef.
    + exists y. split; [reflexivity|]. apply find_some in Ef as [Hy Hyno].
      apply bool_decide_eq_true in Hyno. auto.
    + exfalso. apply (find_none _ _ Ef) in Hin.
      unfold TransactionRepository.has_order_no in Hin.
      apply bool_decide_eq_false in Hin. auto.
  - intros (x & Hf & Hty). apply find_some in Hf as [Hin Hno].
    apply bool_decide_eq_true in Hno. eauto.
Qed.

(** What [compensateOrder] does, in terms of the row it reads: the first
    ledger row stored for the order number. *)
Lemma compensateOrder_first_row (cfg : Config) (order : PayOrder.t) (w : World) :
  let first_is_pay :=
    exists x, TransactionRepository.GetByOrderNo (db w) (PayOrder.OrderNo order) = Some x /\
              AccountTransaction.Type_ x = model.TransactionTypePay in
  (first_is_pay ->
   PayingOrderCompensateJob_compensateOrder cfg order w
   = drive model.OrderStatusPaying model.OrderStatusPaid (PayOrder.OrderNo order) w) /\
  (~ first_is_pay ->
   orderTimeout cfg < time_Since (clock w) (PayOrder.CreatedAt order) ->
   PayingOrderCompensateJob_compensateOrder cfg order w
   = drive model.OrderStatusPaying model.OrderStatusFailed (PayOrder.OrderNo order) w) /\
  (~ first_is_pay ->
   time_Since (clock w) (PayOrder.CreatedAt order) <= orderTimeout cfg ->
   PayingOrderCompensateJob_compensateOrder cfg order w = w).
Proof.
  intros first_is_pay. unfold PayingOrderCompensateJob_compensateOrder.
  fold (orderTimeout cfg).
  assert (Hdec : match TransactionRepository.GetByOrderNo (db w) (PayOrder.OrderNo order) with
                 | Some x => bool_decide (AccountTransaction.Type_ x = model.TransactionTypePay)
                 | None => false
                 end = true <-> first_is_pay).
  { unfold first_is_pay.
    destruct (TransactionRepository.GetByOrderNo (db w) (PayOrder.OrderNo order)) as [x|].
    - rewrite bool_decide_eq_true. split; [eauto|]. now intros (y & [= <-] & Hy).
    - split; [discriminate|]. now intros (y & Hy & _). }
  destruct (match TransactionRepository.GetByOrderNo (db w) (PayOrder.OrderNo order) with
            | Some x => bool_decide (AccountTransaction.Type_ x = model.TransactionTypePay)
            | None => false
            end).
  - split; [|split].
    + intros _. apply guarded_update_drive. simpl. auto 10.
    + intros Hn. exfalso. apply Hn, Hdec. reflexivity.
    + intros Hn. exfalso. apply Hn, Hdec. reflexivity.
  - split; [|split].
    + intros Hp. apply Hdec in Hp. discriminate.
    + intros _ Hlt. apply Z.ltb_lt in Hlt. rewrite Hlt.
      apply guarded_update_drive. simpl. auto 10.
    + intros _ Hle. apply Z.ltb_ge in Hle. rewrite Hle. reflexivity.
Qed.

(** ** The outbox relay *)

Lemma update_by_id_found (id : Z) (set : OutboxMessage.t -> option OutboxMessage.t)
    (d : DB) (m m' : OutboxMessage.t) :
  outbox_message d !! id = Some m -> set m = Some m' ->
  OutboxRepository.update_by_id id set d
  = Ok (with_outbox_message (<[id := m']> (outbox_message d)) d).
Proof.
  intros Hm Hs. unfold OutboxRepository.update_by_id. now rewrite Hm, Hs.
Qed.

Lemma logged_Ok (stmt : DB -> result DB) (w : World) (d' : DB) :
  stmt (db w) = Ok d' -> logged stmt w = with_db d' w.
Proof. intros H. unfold logged. now rewrite H. Qed.

Section Relay.

Variable mq_SendMessage : string -> string -> string -> option error.
Variable cfg : Config.
Variable msg : OutboxMessage.t.
Variable w : World.

(** The relay works on the row it has just fetched. *)
Hypothesis fetched : outbox_message (db w) !! OutboxMessage.ID msg = Some msg.

Let published : option error :=
  mq_SendMessage (OutboxMessage.Topic msg) (OutboxMessage.MessageKey msg)
    (OutboxMessage.Payload msg).

Let row_after : option OutboxMessage.t :=
  outbox_message (db (OutboxSender_sendMessage mq_SendMessage cfg msg w))
  !! OutboxMessage.ID msg.

Lemma sendMessage_published :
  published = None ->
  row_after
  = Some (OutboxMessage.mk (OutboxMessage.ID msg) (OutboxMessage.MessageKey msg)
            (OutboxMessage.Topic msg) (OutboxMessage.Payload msg)
            model.OutboxStatusSent (OutboxMessage.RetryCount msg)
            (OutboxMessage.CreatedAt msg) (clock w)).
Proof.
  unfold row_after, published, OutboxSender_sendMessage. intros ->.
  unfold logged, OutboxRepository.UpdateStatus, OutboxRepository.update_by_id.
  rewrite fetched. simpl. now rewrite lookup_insert_eq.
Qed.

Lemma sendMessage_retry (e : error) :
  published = Some e ->
  0 <= OutboxMessage.RetryCount msg ->
  OutboxMessage.RetryCount msg + 1 < MaxRetryCount (Business cfg) ->
  MaxRetryCount (Business cfg) <= INT64_MAX ->
  row_after
  = Some (OutboxMessage.mk (OutboxMessage.ID msg) (OutboxMessage.MessageKey msg)
            (OutboxMessage.Topic msg) (OutboxMessage.Payload msg)
            (OutboxMessage.Status msg) (OutboxMessage.RetryCount msg + 1)
            (OutboxMessage.CreatedAt msg) (OutboxMessage.UpdatedAt msg)).
Proof.
  unfold row_after, published, OutboxSender_sendMessage. intros -> H0 Hlt Hmax.
  rewrite wrap64_small by (unfold INT64_MIN, INT64_MAX in *; lia).
  destruct (Z.leb_spec (MaxRetryCount (Business cfg))
              (OutboxMessage.RetryCount msg + 1)); [lia|].
  erewrite logged_Ok.
  2:{ unfold OutboxRepository.IncrementRetryCount.
      eapply update_by_id_found; [exact fetched|].
      unfold sql_bigint. rewrite in_int64_small by lia. reflexivity. }
  simpl. now rewrite lookup_insert_eq.
Qed.

(** On the failure that reaches the limit the row is marked FAILED, and its
    retry count has been raised twice: once by [IncrementRetryCount] and
    once more by [MarkAsFailed]. *)
Lemma sendMessage_gives_up (e : error) :
  published = Some e ->
  0 <= OutboxMessage.RetryCount msg ->
  MaxRetryCount (Business cfg) <= OutboxMessage.RetryCount msg + 1 ->
  OutboxMessage.RetryCount msg + 2 <= INT64_MAX ->
  row_after
  = Some (OutboxMessage.mk (OutboxMessage.ID msg) (OutboxMessage.MessageKey msg)
            (OutboxMessage.Topic msg) (OutboxMessage.Payload msg)
            model.OutboxStatusFailed (OutboxMessage.RetryCount msg + 2)
            (OutboxMessage.CreatedAt msg) (clock w)).
Proof.
  unfold row_after, published, OutboxSender_sendMessage. intros -> H0 Hge Hmax.
  rewrite wrap64_small by (unfold INT64_MIN, INT64_MAX in *; lia).
  destruct (Z.leb_spec (MaxRetryCount (Business cfg))
              (OutboxMessage.RetryCount msg + 1)); [|lia].
  erewrite (logged_Ok _ w).
  2:{ unfold OutboxRepository.IncrementRetryCount.
      eapply update_by_id_found; [exact fetched|].
      unfold sql_bigint. rewrite in_int64_small by lia. reflexivity. }
  erewrite logged_Ok.
  2:{ unfold OutboxRepository.MarkAsFailed.
      eapply update_by_id_found; [simpl; apply lookup_insert_eq|].
      unfold sql_bigint. simpl. rewrite in_int64_small by lia. reflexivity. }
  simpl. rewrite lookup_insert_eq. do 2 f_equal. lia.
Qed.

End Relay.

Example relay_marks_sent :
  outbox_message (db (OutboxSender_sendMessage bus_up demo_cfg outbox_row world_outbox))
  !! 1
  = Some (OutboxMessage.mk 1 "PAY0001" "pay_result" "{}" "SENT" 2 0 5).
Proof. reflexivity. Qed.

(** C9 (the code departs from the claim).  With a limit of three retries,
    a pending row that has failed twice and fails to publish once more is
    marked FAILED, but its retry count ends at 4 instead of 3: on the
    final failure the count is raised by two. *)
Theorem final_failure_counts_twice :
  outbox_message (db world_outbox) !! 1 = Some outbox_row /\
  OutboxMessage.RetryCount outbox_row = 2 /\
  MaxRetryCount (Business demo_cfg) = 3 /\
  outbox_message (db (OutboxSender_sendMessage bus_down demo_cfg outbox_row world_outbox))
  !! 1
  = Some (OutboxMessage.mk 1 "PAY0001" "pay_result" "{}" "FAILED" 4 0 5).
Proof. repeat split; reflexivity. Qed.

(** ** The demo worlds *)

Example world_funded_balance :
  AccountService_GetBalance world_funded 7 = Ok 1000.
Proof. reflexivity. Qed.

Example world_paid_response :
  fst (PayService_Pay demo_Marshal demo_Format demo_cfg "PAY0001" "TXN0001"
         demo_pay_request world_funded)
  = Ok (PayResponse.mk "PAY0001" "PAID" 50 "支付成功").
Proof. reflexivity. Qed.

Example world_paid_balance :
  AccountService_GetBalance world_paid 7 = Ok 950.
Proof. reflexivity. Qed.

Example world_refunded_response :
  fst (RefundService_Refund demo_Marshal demo_Format demo_cfg "REF0001" "TXN0002"
         demo_refund_request world_paid)
  = Ok (RefundResponse.mk "REF0001" "PAY0001" 50 "REFUNDED" "退款成功").
Proof. reflexivity. Qed.

Example world_refunded_balance :
  AccountService_GetBalance world_refunded 7 = Ok 1000.
Proof. reflexivity. Qed.

Example world_refunded_ledger :
  map (fun x => (AccountTransaction.Type_ x, AccountTransaction.Amount x,
                 AccountTransaction.BalanceBefore x, AccountTransaction.BalanceAfter x))
      (account_transaction (db world_refunded))
  = [("PAY"%string, -50, 1000, 950); ("REFUND"%string, 50, 950, 1000)].
Proof. reflexivity. Qed.

(** ** The theorems at concrete inputs *)

(** C2 on the store after the demo payment: PAID -> CREATED is no edge,
    no row of PAY0001 is in CREATED, and PAID -> REFUNDING goes through. *)
Lemma order_transition_guard_witness :
  (~ In ("PAID", "CREATED")%string dag_edges /\
   autocommit (OrderRepository.UpdateStatus 9 "PAY0001" "PAID" "CREATED") (db world_paid)
   = (Some ErrOrderStatusInvalid, db world_paid)) /\
  ((forall o, In o (pay_order (db world_paid)) -> PayOrder.OrderNo o = "PAY0001"%string ->
      PayOrder.Status o <> "CREATED"%string) /\
   autocommit (OrderRepository.UpdateStatus 9 "PAY0001" "CREATED" "PAYING") (db world_paid)
   = (Some ErrOrderStatusInvalid, db world_paid)) /\
  (In ("PAID", "REFUNDING")%string dag_edges /\
   map PayOrder.Status
     (pay_order (snd (autocommit
                        (OrderRepository.UpdateStatus 9 "PAY0001" "PAID" "REFUNDING")
                        (db world_paid))))
   = ["REFUNDING"%string]).
Proof.
  assert (H1 : ~ In ("PAID", "CREATED")%string dag_edges).
  { simpl. intros H. decompose [or] H; try discriminate; contradiction. }
  assert (H2 : forall o, In o (pay_order (db world_paid)) ->
                 PayOrder.OrderNo o = "PAY0001"%string ->
                 PayOrder.Status o <> "CREATED"%string).
  { intros o [<-|[]] _. vm_compute. discriminate. }
  assert (H3 : In ("PAID", "REFUNDING")%string dag_edges) by (simpl; auto 10).
  assert (H4 : exists o, In o (pay_order (db world_paid)) /\
                 PayOrder.OrderNo o = "PAY0001"%string /\
                 PayOrder.Status o = "PAID"%string).
  { eexists. split; [left; reflexivity|]. split; reflexivity. }
  destruct (order_transition_guard 9 "PAY0001" "PAID" "CREATED" (db world_paid))
    as (_ & G1 & _).
  destruct (order_transition_guard 9 "PAY0001" "CREATED" "PAYING" (db world_paid))
    as (_ & _ & G2 & _).
  destruct (order_transition_guard 9 "PAY0001" "PAID" "REFUNDING" (db world_paid))
    as (_ & _ & _ & G3).
  split; [split; [exact H1|exact (G1 H1)]|].
  split; [split; [exact H2|exact (G2 H2)]|].
  split; [exact H3|]. rewrite (G3 H3 H4). reflexivity.
Defined.

(** C3 on the funded account (balance 1000, version 1): a debit of 300
    with version 1 succeeds, with the stale version 0 it is an optimistic
    conflict, and a debit of 5000 is refused for lack of balance. *)
Lemma conditional_debit_witness :
  (exists tx', AccountRepository.Deduct (db world_funded) 9 7 300 1 (db world_funded)
               = Ok tx' /\ balance_of tx' 7 = 700 /\ version_of tx' 7 = 2) /\
  AccountRepository.Deduct (db world_funded) 9 7 300 0 (db world_funded)
  = Err ErrOptimisticLock /\
  AccountRepository.Deduct (db world_funded) 9 7 5000 0 (db world_funded)
  = Err ErrBalanceNotEnough.
Proof.
  assert (Hrow : account (db world_funded) !! 7 = Some (Account.mk 7 1000 0 1 0 0))
    by reflexivity.
  split; [|split].
  - destruct (AccountRepository.Deduct (db world_funded) 9 7 300 1 (db world_funded))
      as [tx'|e] eqn:Ed; [|vm_compute in Ed; discriminate].
    exists tx'. split; [reflexivity|].
    destruct (conditional_debit (db world_funded) 9 7 300 1 (db world_funded)) as [G _].
    destruct (G tx' Ed) as (a & a' & Ha & _ & _ & Ha' & Hb & _ & Hv).
    rewrite Hrow in Ha. injection Ha as <-.
    unfold balance_of, version_of. rewrite Ha'. simpl in Hb. split; [exact Hb|exact Hv].
  - destruct (conditional_debit (db world_funded) 9 7 300 0 (db world_funded)) as [_ G].
    refine (proj2 (G _ _ Hrow) _); [|simpl; lia].
    intros a Ha [_ Hv]. rewrite Hrow in Ha. injection Ha as <-. discriminate.
  - destruct (conditional_debit (db world_funded) 9 7 5000 0 (db world_funded)) as [_ G].
    refine (proj1 (G _ _ Hrow) _); [|simpl; lia].
    intros a Ha [_ Hv]. rewrite Hrow in Ha. injection Ha as <-. discriminate.
Defined.

(** The funded store satisfies invariant I2. *)
Lemma accounts_ok_world_funded : accounts_ok (db world_funded).
Proof.
  assert (E : account (db world_funded) = <[7 := Account.mk 7 1000 0 1 0 0]> ∅)
    by reflexivity.
  intros u a. rewrite E, lookup_insert. case_decide.
  - intros [= <-]. split; simpl; lia.
  - rewrite lookup_empty. discriminate.
Defined.

(** C6 on the funded store. *)
Lemma account_invariant_witness :
  accounts_ok (db world_funded) /\
  (forall d', AccountRepository.Increase 9 7 25 (db world_funded) = Ok d' ->
     accounts_ok d' /\ version_of d' 7 = 2) /\
  (forall d', AccountRepository.Deduct (db world_funded) 9 7 300 1 (db world_funded) = Ok d' ->
     accounts_ok d' /\ version_of d' 7 = 2) /\
  accounts_ok (snd (AccountRepository.GetOrCreate 9 8 (db world_funded))) /\
  accounts_ok (db (snd (AccountService_Recharge 7 25 world_funded))) /\
  version_of (db (snd (AccountService_Recharge 7 25 world_funded))) 7 = 2.
Proof.
  destruct (account_invariant (db world_funded) accounts_ok_world_funded)
    as (Gd & Gi & Gg & Gr).
  split; [exact accounts_ok_world_funded|].
  split; [intros d' H; apply (Gi 9 7 25 d'); [lia|exact H]|].
  split; [intros d' H; apply (Gd (db world_funded) 9 7 300 1 d' H)|].
  split; [exact (proj1 (Gg 9 8))|].
  destruct (Gr 7 25 world_funded eq_refl) as [G1 G2].
  split; [exact G1|]. apply G2. reflexivity.
Defined.

(** C7 on the demo payment and its refund: 1000, then 950, then 1000. *)
Lemma refund_round_trip_witness :
  PayService_Pay demo_Marshal demo_Format demo_cfg "PAY0001" "TXN0001" demo_pay_request
    world_funded
  = (Ok (PayResponse.mk "PAY0001" "PAID" 50 "支付成功"), world_paid) /\
  RefundService_Refund demo_Marshal demo_Format demo_cfg "REF0001" "TXN0002"
    demo_refund_request world_paid
  = (Ok (RefundResponse.mk "REF0001" "PAY0001" 50 "REFUNDED" "退款成功"), world_refunded) /\
  balance_of (db world_paid) 7 = balance_of (db world_funded) 7 - 50 /\
  balance_of (db world_refunded) 7 = balance_of (db world_funded) 7.
Proof.
  assert (H1 : PayService_Pay demo_Marshal demo_Format demo_cfg "PAY0001" "TXN0001"
                 demo_pay_request world_funded
               = (Ok (PayResponse.mk "PAY0001" "PAID" 50 "支付成功"), world_paid))
    by (vm_compute; reflexivity).
  assert (H0 : OrderRepository.GetByRequestID (db world_funded)
                 (PayRequest.RequestID demo_pay_request) = None)
    by (vm_compute; reflexivity).
  assert (H2 : RefundService_Refund demo_Marshal demo_Format demo_cfg "REF0001" "TXN0002"
                 demo_refund_request world_paid
               = (Ok (RefundResponse.mk "REF0001" "PAY0001" 50 "REFUNDED" "退款成功"),
                  world_refunded))
    by (vm_compute; reflexivity).
  destruct (refund_round_trip demo_Marshal demo_Format demo_cfg "PAY0001" "TXN0001"
              "REF0001" "TXN0002" demo_pay_request demo_refund_request
              world_funded world_paid world_paid world_refunded _ _
              H1 eq_refl eq_refl eq_refl H2 eq_refl) as (G1 & _ & G2).
  split; [exact H1|]. split; [exact H2|]. split; [exact G1|exact G2].
Defined.

(** C10: a PAID order cannot be cancelled, a CREATED one can, and not a
    second time. *)
Lemma cancel_order_only_from_created_witness :
  OrderService_CancelOrder "PAY0001" world_paid = (Some ErrOrderStatusInvalid, world_paid) /\
  fst (OrderService_CancelOrder "PAY0005" world_created) = None /\
  map PayOrder.Status (pay_order (db (snd (OrderService_CancelOrder "PAY0005" world_created))))
  = ["CANCELLED"%string] /\
  OrderService_CancelOrder "PAY0005" (snd (OrderService_CancelOrder "PAY0005" world_created))
  = (Some ErrOrderStatusInvalid, snd (OrderService_CancelOrder "PAY0005" world_created)).
Proof.
  split; [|split; [|split]].
  - destruct (cancel_order_only_from_created "PAY0001" world_paid) as (_ & _ & G & _).
    eapply G; [reflexivity|]. vm_compute. discriminate.
  - destruct (cancel_order_only_from_created "PAY0005" world_created) as (_ & _ & _ & G).
    erewrite G; reflexivity.
  - destruct (cancel_order_only_from_created "PAY0005" world_created) as (_ & _ & _ & G).
    erewrite G; reflexivity.
  - destruct (cancel_order_only_from_created "PAY0005"
                (snd (OrderService_CancelOrder "PAY0005" world_created)))
      as (_ & _ & G & _).
    eapply G; [reflexivity|]. vm_compute. discriminate.
Defined.

(** * Further properties *)

(** ** The lease-based mutex *)

Lemma live_sleep (d : Z) (w : World) (k : string) :
  lock.live (lock.sleep d w) k
  = match kv w !! k with
    | Some (v, deadline) => if clock w + d <? deadline then Some v else None
    | None => None
    end.
Proof. reflexivity. Qed.

Lemma live_ext (w w' : World) (k : string) :
  kv w = kv w' -> clock w = clock w' -> lock.live w k = lock.live w' k.
Proof. intros Hk Hc. unfold lock.live. now rewrite Hk, Hc. Qed.

Lemma repeat_shift {A : Type} (x : A) (n : nat) (t : list A) :
  repeat x n ++ x :: t = x :: repeat x n ++ t.
Proof. induction n as [|n IH]; simpl; [reflexivity|]. now rewrite IH. Qed.

Lemma TryLock_refused (l : lock.DistributedLock) (w : World) (v : string) :
  lock.live w (lock.key l) = Some v ->
  lock.TryLock l w = (false, refused 1 l 0 w).
Proof.
  intros H. unfold lock.TryLock, refused. rewrite H. simpl.
  do 2 f_equal. lia.
Qed.

Lemma Lock_loop_refused (l : lock.DistributedLock) (i : Z) (v : string) (D : Z) (m : nat)
    (w : World) :
  kv w !! lock.key l = Some (v, D) -> 0 <= i ->
  (m = O \/ clock w + (Z.of_nat m - 1) * i < D) ->
  lock.Lock_loop m l i w = (Some ErrLockFailed, refused m l i w).
Proof.
  revert w. induction m as [|m IH]; intros w Hk Hi Hm.
  - simpl. unfold refused. simpl. destruct w; simpl. do 2 f_equal. lia.
  - destruct Hm as [Hm|Hm]; [discriminate|].
    assert (Hl : lock.live w (lock.key l) = Some v).
    { unfold lock.live. rewrite Hk. destruct (Z.ltb_spec (clock w) D); [reflexivity|nia]. }
    simpl. rewrite (TryLock_refused l w v Hl).
    rewrite IH.
    + unfold refused, lock.sleep. simpl. f_equal. f_equal; [|lia].
      apply repeat_shift.
    + exact Hk.
    + exact Hi.
    + destruct m as [|m']; [now left|right].
      unfold lock.sleep, refused. simpl clock. nia.
Qed.

Lemma Lock_loop_acquires (l : lock.DistributedLock) (i : Z) (j m : nat) (w : World) :
  (j < m)%nat ->
  (forall j', (j' < j)%nat ->
     lock.live (lock.sleep (Z.of_nat j' * i) w) (lock.key l) <> None) ->
  lock.live (lock.sleep (Z.of_nat j * i) w) (lock.key l) = None ->
  lock.Lock_loop m l i w
  = (None,
     mkWorld (db w)
       (<[lock.key l := (lock.value l, clock w + Z.of_nat j * i + lock.expiration l)]>
          (kv w))
       (repeat (SETNX (lock.key l) (lock.value l) (lock.expiration l)) (S j) ++ kv_log w)
       (clock w + Z.of_nat j * i)).
Proof.
  revert m w. induction j as [|j IH]; intros m w Hjm Hheld Hfree.
  - destruct m as [|m]; [lia|]. simpl.
    rewrite (live_ext _ w) in Hfree by (simpl; try reflexivity; lia).
    unfold lock.TryLock. rewrite Hfree. simpl. do 2 f_equal; try lia.
    do 3 f_equal. lia.
  - destruct m as [|m]; [lia|]. cbn [lock.Lock_loop].
    destruct (lock.live w (lock.key l)) as [v|] eqn:Hl.
    2:{ exfalso. apply (Hheld O); [lia|].
        rewrite (live_ext _ w) by (simpl; try reflexivity; lia). exact Hl. }
    rewrite (TryLock_refused l w v Hl).
    rewrite (IH m).
    + unfold refused, lock.sleep. cbn [db kv kv_log clock]. f_equal. f_equal; try lia.
      * do 3 f_equal. lia.
      * cbn [repeat app]. apply (repeat_shift _ (S j)).
    + lia.
    + intros j' Hj'. specialize (Hheld (S j') ltac:(lia)).
      rewrite (live_ext _ (lock.sleep (Z.of_nat (S j') * i) w));
        [exact Hheld|reflexivity|unfold refused, lock.sleep; cbn [clock]; lia].
    + rewrite (live_ext _ (lock.sleep (Z.of_nat (S j) * i) w));
        [exact Hfree|reflexivity|unfold refused, lock.sleep; cbn [clock]; lia].
Qed.

Lemma Lock_loop_success (l : lock.DistributedLock) (i : Z) (m : nat) (w w1 : World) :
  lock.Lock_loop m l i w = (None, w1) ->
  db w1 = db w /\
  kv w1 = <[lock.key l := (lock.value l, clock w1 + lock.expiration l)]> (kv w).
Proof.
  revert w. induction m as [|m IH]; intros w; simpl; [discriminate|].
  unfold lock.TryLock. destruct (lock.live w (lock.key l)) eqn:Hl; simpl.
  - intros H. apply IH in H. exact H.
  - intros [= <-]. simpl. auto.
Qed.

(** X1. A lock taken by [TryLock] with a positive lease (of whole
    milliseconds) keeps every later [TryLock] on the same key out, whoever
    asks, exactly as long as its lease runs: an attempt made [d] after the
    acquisition is refused and leaves the entry alone when [d] is below the
    expiration, and succeeds, installing the new owner, when it is not. *)
Theorem lease_excludes_until_expiry (l1 l2 : lock.DistributedLock) (w w1 : World) (d : Z) :
  proper_lease l1 -> proper_lease l2 ->
  lock.TryLock l1 w = (true, w1) ->
  lock.key l2 = lock.key l1 ->
  0 <= d ->
  (d < lock.expiration l1 ->
   fst (lock.TryLock l2 (lock.sleep d w1)) = false /\
   kv (snd (lock.TryLock l2 (lock.sleep d w1))) = kv w1) /\
  (lock.expiration l1 <= d ->
   fst (lock.TryLock l2 (lock.sleep d w1)) = true /\
   lock.live (snd (lock.TryLock l2 (lock.sleep d w1))) (lock.key l1)
   = Some (lock.value l2)).
Proof.
  intros [Hp1 _] [Hp2 _].
  unfold lock.TryLock at 1.
  destruct (lock.live w (lock.key l1)); [discriminate|].
  intros [= <-] Hk Hd0.
  assert (Hl : forall d, lock.live
             (lock.sleep d
                (mkWorld (db w)
                   (<[lock.key l1 := (lock.value l1, clock w + lock.expiration l1)]> (kv w))
                   (SETNX (lock.key l1) (lock.value l1) (lock.expiration l1) :: kv_log w)
                   (clock w))) (lock.key l2)
           = if clock w + d <? clock w + lock.expiration l1
             then Some (lock.value l1) else None).
  { intros d'. rewrite live_sleep, Hk. simpl. now rewrite lookup_insert_eq. }
  split; intros Hd; unfold lock.TryLock; rewrite Hl.
  - destruct (Z.ltb_spec (clock w + d) (clock w + lock.expiration l1)); [|lia].
    simpl. auto.
  - destruct (Z.ltb_spec (clock w + d) (clock w + lock.expiration l1)); [lia|].
    simpl. split; [reflexivity|]. unfold lock.live. simpl. rewrite Hk.
    rewrite lookup_insert_eq.
    destruct (Z.ltb_spec (clock w + d) (clock w + d + lock.expiration l2));
      [reflexivity|lia].
Qed.

(** X2. [Lock] gives up with [ErrLockFailed] after exactly [maxRetries]
    attempts when the holder's lease outlasts the last of them: it has sent
    one SETNX per attempt, waited the retry interval after each, and left
    the holder's entry and the store alone.  With no attempt allowed
    ([maxRetries <= 0]) it fails at once and the world is unchanged. *)
Theorem Lock_gives_up (l : lock.DistributedLock) (retryInterval maxRetries : Z)
    (w : World) :
  (forall v deadline,
     kv w !! lock.key l = Some (v, deadline) ->
     0 <= retryInterval -> 0 < maxRetries ->
     clock w + (maxRetries - 1) * retryInterval < deadline ->
     lock.Lock l retryInterval maxRetries w
     = (Some ErrLockFailed, refused (Z.to_nat maxRetries) l retryInterval w)) /\
  (maxRetries <= 0 ->
   lock.Lock l retryInterval maxRetries w = (Some ErrLockFailed, w)).
Proof.
  split.
  - intros v D Hk Hi Hn Hd. unfold lock.Lock.
    apply (Lock_loop_refused l retryInterval v D); auto.
    right. rewrite Z2Nat.id by lia. exact Hd.
  - intros Hn. unfold lock.Lock. replace (Z.to_nat maxRetries) with O by lia.
    reflexivity.
Qed.

(** X3. [Lock], for a positive lease (of whole milliseconds), acquires at
    the first attempt that finds the key free or its lease run out: if the
    attempts before the [j]-th (made one retry interval apart) see a live
    holder and the [j]-th, still within [maxRetries], does not, the call
    returns nil at that instant with the key now holding this owner's
    value and a fresh lease. *)
Theorem Lock_acquires_at_first_free_attempt (l : lock.DistributedLock)
    (retryInterval maxRetries : Z) (j : nat) (w : World) :
  proper_lease l -> 0 <= retryInterval ->
  Z.of_nat j < maxRetries ->
  (forall j', (j' < j)%nat ->
     lock.live (lock.sleep (Z.of_nat j' * retryInterval) w) (lock.key l) <> None) ->
  lock.live (lock.sleep (Z.of_nat j * retryInterval) w) (lock.key l) = None ->
  exists w1,
    lock.Lock l retryInterval maxRetries w = (None, w1) /\
    clock w1 = clock w + Z.of_nat j * retryInterval /\
    kv w1 = <[lock.key l := (lock.value l, clock w1 + lock.expiration l)]> (kv w) /\
    db w1 = db w /\
    length (kv_log w1) = (length (kv_log w) + S j)%nat.
Proof.
  intros _ _ Hj Hheld Hfree. unfold lock.Lock.
  rewrite (Lock_loop_acquires l retryInterval j); auto; [|lia].
  eexists. split; [reflexivity|]. simpl. repeat split.
  rewrite length_app, repeat_length. simpl. lia.
Qed.

(** X4. An owner whose lease has run out cannot release its successor's
    lock (leases positive, of whole milliseconds): after [a] acquired the
    key, its lease ended and [b], with another value, acquired the same
    key, [a]'s [Unlock], made while [b]'s lease runs, leaves [b]'s entry
    in place, while [b]'s own [Unlock] frees the key. *)
Theorem stale_owner_cannot_release_successor (a b : lock.DistributedLock)
    (w w1 : World) (d d' : Z) :
  proper_lease a -> proper_lease b ->
  lock.TryLock a w = (true, w1) ->
  lock.key b = lock.key a -> lock.value b <> lock.value a ->
  lock.expiration a <= d -> 0 <= d' -> d' < lock.expiration b ->
  let w2 := snd (lock.TryLock b (lock.sleep d w1)) in
  lock.live (lock.sleep d' w2) (lock.key b) = Some (lock.value b) /\
  lock.live (lock.Unlock a (lock.sleep d' w2)) (lock.key b) = Some (lock.value b) /\
  lock.live (lock.Unlock b (lock.sleep d' w2)) (lock.key b) = None.
Proof.
  intros _ _.
  unfold lock.TryLock at 1.
  destruct (lock.live w (lock.key a)); [discriminate|].
  intros [= <-] Hk Hv Hd Hd0 Hd'. cbv zeta.
  match goal with |- context [lock.sleep d' (snd (lock.TryLock b ?x))] =>
    assert (E : lock.TryLock b x
                = (true, mkWorld (db w)
                     (<[lock.key a := (lock.value b, clock w + d + lock.expiration b)]>
                        (<[lock.key a := (lock.value a, clock w + lock.expiration a)]>
                           (kv w)))
                     (SETNX (lock.key b) (lock.value b) (lock.expiration b)
                      :: SETNX (lock.key a) (lock.value a) (lock.expiration a)
                      :: kv_log w)
                     (clock w + d)))
  end.
  { unfold lock.TryLock. rewrite live_sleep. cbn [kv clock db kv_log lock.sleep].
    rewrite Hk, lookup_insert_eq.
    destruct (Z.ltb_spec (clock w + d) (clock w + lock.expiration a)); [lia|].
    reflexivity. }
  rewrite E. cbn [snd]. clear E. rewrite !Hk.
  assert (Hlive : forall w', kv w' = <[lock.key a := (lock.value b, clock w + d + lock.expiration b)]>
                        (<[lock.key a := (lock.value a, clock w + lock.expiration a)]>
                           (kv w)) ->
                   clock w' = clock w + d + d' ->
                   lock.live w' (lock.key a) = Some (lock.value b)).
  { intros w' Hkv Hc. unfold lock.live. rewrite Hkv, lookup_insert_eq, Hc.
    destruct (Z.ltb_spec (clock w + d + d') (clock w + d + lock.expiration b));
      [reflexivity|lia]. }
  split; [apply Hlive; reflexivity|]. split.
  - unfold lock.Unlock.
    rewrite (Hlive (lock.sleep d' _)) by reflexivity.
    rewrite bool_decide_eq_false_2 by congruence.
    apply Hlive; reflexivity.
  - unfold lock.Unlock. rewrite Hk.
    rewrite (Hlive (lock.sleep d' _)) by reflexivity.
    rewrite bool_decide_eq_true_2 by reflexivity.
    unfold lock.live. cbn [kv]. now rewrite lookup_delete_eq.
Qed.

(** X5. Lock and unlock are a round trip: when [Lock] has returned nil and
    the lease is positive, the owner's [Unlock], made without delay, frees
    the key, leaves every other key as it was before the [Lock] and never
    touches the store. *)
Theorem Lock_then_Unlock_frees (l : lock.DistributedLock) (retryInterval maxRetries : Z)
    (w w1 : World) :
  lock.Lock l retryInterval maxRetries w = (None, w1) ->
  0 < lock.expiration l ->
  lock.live (lock.Unlock l w1) (lock.key l) = None /\
  kv (lock.Unlock l w1) = delete (lock.key l) (kv w) /\
  db (lock.Unlock l w1) = db w.
Proof.
  intros H He. apply Lock_loop_success in H as [Hdb Hkv].
  assert (Hlive : lock.live w1 (lock.key l) = Some (lock.value l)).
  { unfold lock.live. rewrite Hkv, lookup_insert_eq.
    destruct (Z.ltb_spec (clock w1) (clock w1 + lock.expiration l)); [reflexivity|lia]. }
  unfold lock.Unlock. rewrite Hlive, bool_decide_eq_true_2 by reflexivity.
  unfold lock.live. simpl. rewrite lookup_delete_eq.
  split; [reflexivity|]. split; [|exact Hdb].
  rewrite Hkv. apply delete_insert_eq.
Qed.

(** ** Pay: what a call leaves behind *)

Lemma same_business_refl (d : DB) : same_business d d.
Proof. repeat split. Qed.

Lemma GetOrCreate_same_business (now userID : Z) (d : DB) :
  same_business d (snd (AccountRepository.GetOrCreate now userID d)).
Proof.
  unfold same_business.
  split; [|split; [|split; [|split]]].
  1-4: rewrite GetOrCreate_spec; destruct (account d !! userID); reflexivity.
  intros u. destruct (GetOrCreate_observables now userID u d). auto.
Qed.

Lemma Lock_loop_failure (l : lock.DistributedLock) (i : Z) (m : nat) (w w1 : World)
    (e : error) :
  lock.Lock_loop m l i w = (Some e, w1) -> db w1 = db w /\ kv w1 = kv w.
Proof.
  revert w. induction m as [|m IH]; intros w; simpl.
  - intros [= _ <-]. auto.
  - unfold lock.TryLock. destruct (lock.live w (lock.key l)); simpl; [|discriminate].
    intros H. apply IH in H. exact H.
Qed.

Section PayFrames.

Variable json_Marshal : list (string * json) -> string.
Variable Format_RFC3339 : Z -> string.
Variable cfg : Config.

Lemma Pay_locked_frame (orderNo transactionNo : string) (req : PayRequest.t) (w : World) :
  snd (PayService_Pay_locked json_Marshal Format_RFC3339 cfg orderNo transactionNo req w)
  = with_db
      (db (snd (PayService_Pay_locked json_Marshal Format_RFC3339 cfg orderNo
                  transactionNo req w))) w.
Proof.
  unfold PayService_Pay_locked.
  destruct (OrderRepository.GetByRequestID _ _); [destruct w; reflexivity|].
  destruct (AccountRepository.GetOrCreate _ _ _) as [[a|e] d1]; [|reflexivity].
  destruct (_ <? _); [reflexivity|].
  destruct (Transaction _ _) as [[e|] d2]; reflexivity.
Qed.

Lemma Pay_locked_Err (orderNo transactionNo : string) (req : PayRequest.t)
    (w w' : World) (e : error) :
  PayService_Pay_locked json_Marshal Format_RFC3339 cfg orderNo transactionNo req w
  = (Err e, w') ->
  same_business (db w) (db w').
Proof.
  unfold PayService_Pay_locked.
  destruct (OrderRepository.GetByRequestID _ _); [discriminate|].
  pose proof (GetOrCreate_same_business (clock w) (PayRequest.UserID req) (db w)) as Hs.
  destruct (AccountRepository.GetOrCreate _ _ _) as [[a|e0] d1]; simpl in Hs.
  - destruct (_ <? _); [intros [= _ <-]; exact Hs|].
    unfold Transaction. destruct (PayService_Pay_tx _ _ _ _ _ _ _ _ _ _ _);
      [discriminate|]. intros [= _ <-]. exact Hs.
  - intros [= _ <-]. exact Hs.
Qed.

Lemma Pay_tx_outbox (orderNo transactionNo : string) (req : PayRequest.t)
    (account0 : Account.t) (order : PayOrder.t) (r_db : DB) (now : Z) (tx tx' : DB) :
  PayService_Pay_tx json_Marshal Format_RFC3339 cfg orderNo transactionNo req account0
    order r_db now tx = Ok tx' ->
  exists m,
    outbox_message tx !! outbox_auto_increment tx = None /\
    outbox_message tx' = <[outbox_auto_increment tx := m]> (outbox_message tx) /\
    outbox_auto_increment tx' = outbox_auto_increment tx + 1 /\
    OutboxMessage.ID m = outbox_auto_increment tx /\
    OutboxMessage.MessageKey m = orderNo /\
    OutboxMessage.Topic m = Kafka_Topic_PayResult cfg /\
    OutboxMessage.Status m = model.OutboxStatusPending /\
    OutboxMessage.RetryCount m = 0.
Proof.
  intros H. unfold PayService_Pay_tx in H.
  apply bind_Ok in H as (tx1 & H1 & H). apply wrapping_Ok in H1.
  apply OrderRepository_Create_Ok in H1 as (_ & _ & ->).
  apply bind_Ok in H as (tx2 & H2 & H). apply wrapping_Ok in H2.
  apply UpdateStatus_Ok in H2 as (_ & ->).
  apply bind_Ok in H as (tx3 & H3 & H).
  destruct (AccountRepository.Deduct _ _ _ _ _ _) as [tx3'|e] eqn:Ed.
  2:{ destruct (errors_Is e ErrBalanceNotEnough); [discriminate|].
      destruct (errors_Is e ErrOptimisticLock); discriminate. }
  injection H3 as ->.
  apply Deduct_Ok in Ed as (a & _ & _ & _ & ->).
  apply bind_Ok in H as (tx4 & H4 & H). apply wrapping_Ok in H4.
  apply TransactionRepository_Create_Ok in H4 as ->.
  apply bind_Ok in H as (tx5 & H5 & H). apply wrapping_Ok in H5.
  apply UpdateStatus_Ok in H5 as (_ & ->).
  apply wrapping_Ok in H. unfold OutboxRepository.Create in H. simpl in H.
  destruct (outbox_message tx !! outbox_auto_increment tx) eqn:Eo; [discriminate|].
  injection H as <-. simpl. eexists. repeat split.
Qed.

(** X6. A pay call that returns an error has changed nothing that counts:
    the orders, the ledger and the outbox are as before and every user has
    the balance and version it had (at most an empty account row was
    created for the payer). *)
Theorem Pay_failure_changes_nothing (orderNo transactionNo : string)
    (req : PayRequest.t) (w w' : World) (e : error) :
  PayService_Pay json_Marshal Format_RFC3339 cfg orderNo transactionNo req w
  = (Err e, w') ->
  same_business (db w) (db w').
Proof.
  unfold PayService_Pay.
  destruct (OrderRepository.GetByRequestID _ _); [discriminate|].
  destruct (lock.Lock _ _ _ w) as [[e0|] w1] eqn:El.
  - intros [= _ <-]. apply Lock_loop_failure in El as [-> _]. apply same_business_refl.
  - apply Lock_loop_success in El as [Hdb _].
    destruct (PayService_Pay_locked _ _ _ _ _ _ w1) as [r w2] eqn:Ep.
    intros [= -> <-]. rewrite Unlock_db. apply Pay_locked_Err in Ep.
    now rewrite Hdb in Ep.
Qed.

(** X7. Pay never overdraws: with a request id not seen before and a
    balance below the amount the call fails, and when the user's lock is
    free the error is "余额不足" (insufficient balance). *)
Theorem Pay_refuses_overdraft (orderNo transactionNo : string) (req : PayRequest.t)
    (w : World) :
  OrderRepository.GetByRequestID (db w) (PayRequest.RequestID req) = None ->
  balance_of (db w) (PayRequest.UserID req) < PayRequest.Amount req ->
  (exists e, fst (PayService_Pay json_Marshal Format_RFC3339 cfg orderNo transactionNo
                    req w) = Err e) /\
  (lock.live w (lock.key (lock.NewPayLock (PayRequest.UserID req)
                            (PayRequest.RequestID req))) = None ->
   fst (PayService_Pay json_Marshal Format_RFC3339 cfg orderNo transactionNo req w)
   = Err (ErrNew "余额不足")).
Proof.
  intros Hfresh Hbal.
  assert (Hlocked : forall w1, db w1 = db w ->
            fst (PayService_Pay_locked json_Marshal Format_RFC3339 cfg orderNo
                   transactionNo req w1) = Err (ErrNew "余额不足")).
  { intros w1 Hdb. unfold PayService_Pay_locked. rewrite Hdb, Hfresh.
    destruct (GetOrCreate_found (clock w1) (PayRequest.UserID req) (db w))
      as (a & Hg & _ & Hb & _).
    rewrite Hg. rewrite <- Hb in Hbal. apply Z.ltb_lt in Hbal. now rewrite Hbal. }
  unfold PayService_Pay. rewrite Hfresh. split.
  - destruct (lock.Lock _ _ _ w) as [[e0|] w1] eqn:El; [simpl; eauto|].
    apply Lock_loop_success in El as [Hdb _]. specialize (Hlocked w1 Hdb).
    destruct (PayService_Pay_locked _ _ _ _ _ _ w1). simpl in *. eauto.
  - intros Hfree. unfold lock.Lock.
    rewrite (Lock_loop_acquires _ _ O) by
      (try lia; try (intros j' Hj'; lia);
       rewrite (live_ext _ w) by (simpl; try reflexivity; lia); exact Hfree).
    match goal with |- context [PayService_Pay_locked _ _ _ _ _ _ ?w1] =>
      specialize (Hlocked w1 eq_refl);
      destruct (PayService_Pay_locked json_Marshal Format_RFC3339 cfg orderNo
                  transactionNo req w1)
    end.
    exact Hlocked.
Qed.

(** X8. Pay answers "busy" when another request holds the user's lock for
    longer than the thirty attempts take (2.9 seconds): the error wraps
    [ErrLockFailed], thirty SETNX commands were sent, three seconds have
    passed, and neither the store nor the holder's lock has changed. *)
Theorem Pay_busy (orderNo transactionNo : string) (req : PayRequest.t) (w : World)
    (v : string) (deadline : Z) :
  OrderRepository.GetByRequestID (db w) (PayRequest.RequestID req) = None ->
  kv w !! lock.key (lock.NewPayLock (PayRequest.UserID req) (PayRequest.RequestID req))
  = Some (v, deadline) ->
  clock w + 29 * (100 * Millisecond) < deadline ->
  PayService_Pay json_Marshal Format_RFC3339 cfg orderNo transactionNo req w
  = (Err (ErrWrap "系统繁忙，请稍后重试" ErrLockFailed),
     refused 30 (lock.NewPayLock (PayRequest.UserID req) (PayRequest.RequestID req))
       (100 * Millisecond) w).
Proof.
  intros Hfresh Hk Hd. unfold PayService_Pay. rewrite Hfresh. unfold lock.Lock.
  rewrite (Lock_loop_refused _ _ v deadline);
    [reflexivity | exact Hk | unfold Millisecond; lia | right; exact Hd].
Qed.

(** X9. Pay does not leak its mutex: whatever the outcome, no key other
    than the user's lock key changes in the key-value store, and a lock
    key that was free before the call is free after it. *)
Theorem Pay_releases_its_lock (orderNo transactionNo : string) (req : PayRequest.t)
    (w : World) :
  let payLock := lock.NewPayLock (PayRequest.UserID req) (PayRequest.RequestID req) in
  let w' := snd (PayService_Pay json_Marshal Format_RFC3339 cfg orderNo transactionNo
                   req w) in
  (forall k, k <> lock.key payLock -> kv w' !! k = kv w !! k) /\
  (lock.live w (lock.key payLock) = None -> lock.live w' (lock.key payLock) = None).
Proof.
  cbv zeta. unfold PayService_Pay.
  destruct (OrderRepository.GetByRequestID _ _); [simpl; auto|].
  destruct (lock.Lock _ _ _ w) as [[e0|] w1] eqn:El.
  - pose proof El as El'. apply Lock_loop_failure in El as [_ Hkv]. simpl.
    split; [intros k _; now rewrite Hkv|].
    intros Hfree. exfalso. unfold lock.Lock in El'.
    rewrite (Lock_loop_acquires _ _ O) in El' by
      (try lia; try (intros j' Hj'; lia);
       rewrite (live_ext _ w) by (simpl; try reflexivity; lia); exact Hfree).
    discriminate.
  - pose proof (Pay_locked_frame orderNo transactionNo req w1) as Hf.
    destruct (PayService_Pay_locked _ _ _ _ _ _ w1) as [r w2]. simpl in Hf. simpl.
    apply Lock_loop_success in El as [_ Hkv].
    assert (Hk2 : kv w2 = kv w1 /\ clock w2 = clock w1) by (rewrite Hf; auto).
    destruct Hk2 as [Hk2 Hc2].
    assert (Hlive : lock.live w2 (lock.key (lock.NewPayLock (PayRequest.UserID req)
                                              (PayRequest.RequestID req)))
                    = Some (PayRequest.RequestID req)).
    { unfold lock.live. rewrite Hk2, Hkv, lookup_insert_eq, Hc2. simpl.
      destruct (Z.ltb_spec (clock w1) (clock w1 + 30 * Second));
        [reflexivity|unfold Second, Millisecond in *; lia]. }
    unfold lock.Unlock. rewrite Hlive. simpl lock.value.
    rewrite bool_decide_eq_true_2 by reflexivity.
    split.
    + intros k Hk. simpl. rewrite lookup_delete_ne by auto.
      rewrite Hk2, Hkv. now rewrite lookup_insert_ne by auto.
    + intros _. unfold lock.live. simpl. now rewrite lookup_delete_eq.
Qed.

(** X10. A payment that was carried out has staged exactly one outbox
    message: the row inserted under the next auto-increment id, PENDING,
    with retry count 0, the configured topic and the order number as its
    key; every other outbox row is as before. *)
Theorem Pay_stages_one_outbox_message (orderNo transactionNo : string)
    (req : PayRequest.t) (w w' : World) (r : PayResponse.t) :
  PayService_Pay json_Marshal Format_RFC3339 cfg orderNo transactionNo req w
  = (Ok r, w') ->
  PayResponse.Message r = "支付成功"%string ->
  exists m,
    outbox_message (db w) !! outbox_auto_increment (db w) = None /\
    outbox_message (db w')
    = <[outbox_auto_increment (db w) := m]> (outbox_message (db w)) /\
    outbox_auto_increment (db w') = outbox_auto_increment (db w) + 1 /\
    OutboxMessage.ID m = outbox_auto_increment (db w) /\
    OutboxMessage.MessageKey m = PayResponse.OrderNo r /\
    OutboxMessage.Topic m = Kafka_Topic_PayResult cfg /\
    OutboxMessage.Status m = model.OutboxStatusPending /\
    OutboxMessage.RetryCount m = 0.
Proof.
  unfold PayService_Pay.
  destruct (OrderRepository.GetByRequestID (db w) _) eqn:Eg.
  { intros [= <- <-]. simpl. discriminate. }
  destruct (lock.Lock _ _ _ w) as [[e0|] w1] eqn:El; [discriminate|].
  apply Lock_loop_success in El as [Hdb _].
  destruct (PayService_Pay_locked _ _ _ _ _ _ w1) as [r2 w2] eqn:Ep.
  intros [= -> <-] _. rewrite Unlock_db.
  unfold PayService_Pay_locked in Ep. rewrite Hdb, Eg in Ep.
  pose proof (GetOrCreate_same_business (clock w1) (PayRequest.UserID req) (db w))
    as (_ & _ & Ho & Hi & _).
  destruct (AccountRepository.GetOrCreate _ _ _) as [[a|e0] d1]; [|discriminate].
  simpl in Ho, Hi.
  destruct (_ <? _); [discriminate|].
  unfold Transaction in Ep.
  destruct (PayService_Pay_tx _ _ _ _ _ _ _ _ _ _ _) as [d2|e] eqn:Et; [|discriminate].
  injection Ep as <- <-. simpl.
  apply Pay_tx_outbox in Et as (m & H1 & H2 & H3 & H4).
  rewrite Ho, Hi in *. exists m. auto.
Qed.

(** X11. What a payment answered can be queried: after a pay call that
    succeeded, the query by request id returns the order number, status
    and amount of the pay response; after a payment that was carried out
    the query by order number returns them too, with status PAID.  A query
    for an order number that no row has is answered "订单不存在". *)
Theorem Pay_then_query (orderNo transactionNo : string) (req : PayRequest.t)
    (w w' : World) (r : PayResponse.t) :
  PayService_Pay json_Marshal Format_RFC3339 cfg orderNo transactionNo req w
  = (Ok r, w') ->
  PayService_QueryPayResultByRequestID (PayRequest.RequestID req) w'
  = Ok (PayResponse.mk (PayResponse.OrderNo r) (PayResponse.Status r)
          (PayResponse.Amount r) "") /\
  (PayResponse.Message r = "支付成功"%string ->
   PayService_QueryPayResult (PayResponse.OrderNo r) w'
   = Ok (PayResponse.mk (PayResponse.OrderNo r) model.OrderStatusPaid
           (PayRequest.Amount req) "")) /\
  (forall n, (forall o, In o (pay_order (db w')) -> PayOrder.OrderNo o <> n) ->
     PayService_QueryPayResult n w' = Err (ErrNew "订单不存在")).
Proof.
  intros Hpay.
  assert (Hlast : forall n, (forall o, In o (pay_order (db w')) -> PayOrder.OrderNo o <> n) ->
            PayService_QueryPayResult n w' = Err (ErrNew "订单不存在")).
  { intros n Hn. unfold PayService_QueryPayResult, OrderRepository.GetByOrderNo.
    destruct (find _ _) as [o|] eqn:Ef; [|reflexivity].
    apply find_some in Ef as [Hin Ho]. apply bool_decide_eq_true in Ho.
    exfalso. exact (Hn o Hin Ho). }
  destruct (OrderRepository.GetByRequestID (db w) (PayRequest.RequestID req))
    as [o|] eqn:Eg.
  - rewrite (Pay_replay _ _ _ _ _ _ _ o Eg) in Hpay. injection Hpay as <- <-.
    split; [|split; [simpl; discriminate|exact Hlast]].
    unfold PayService_QueryPayResultByRequestID. now rewrite Eg.
  - destruct (Pay_fresh _ _ _ _ _ _ _ _ _ Eg Hpay) as (now & He).
    destruct (pay_effect_lookup _ _ _ _ _ _ _ _ Eg He) as [Hl1 Hl2].
    destruct He as (-> & _).
    split; [|split; [intros _|exact Hlast]].
    + unfold PayService_QueryPayResultByRequestID. now rewrite Hl1.
    + unfold PayService_QueryPayResult. simpl. now rewrite Hl2.
Qed.

End PayFrames.

(** ** Refund: what a call leaves behind *)

Lemma find_map_stable {A : Type} (p : A -> bool) (f : A -> A) (l : list A) :
  (forall x, p (f x) = p x) -> find p (map f l) = option_map f (find p l).
Proof.
  intros H. induction l as [|a l IH]; simpl; [reflexivity|].
  rewrite H. destruct (p a); [reflexivity|exact IH].
Qed.

Lemma GetByOrderNo_transitioned (now : Z) (n orderNo fromStatus toStatus : string)
    (d : DB) :
  OrderRepository.GetByOrderNo
    (with_pay_order (transitioned now orderNo fromStatus toStatus (pay_order d)) d) n
  = match OrderRepository.GetByOrderNo d n with
    | Ok o =>
        Ok (if OrderRepository.matches orderNo fromStatus o
            then PayOrder.set_status toStatus
                   (if bool_decide (toStatus = model.OrderStatusPaid)
                    then Some now else None) now o
            else o)
    | Err e => Err e
    end.
Proof.
  unfold OrderRepository.GetByOrderNo, transitioned. simpl.
  rewrite find_map_stable.
  - destruct (find _ _); reflexivity.
  - intros x. destruct (OrderRepository.matches orderNo fromStatus x); reflexivity.
Qed.

Section RefundFrames.

Variable json_Marshal : list (string * json) -> string.
Variable Format_RFC3339 : Z -> string.
Variable cfg : Config.

Lemma Refund_locked_frame (refundNo transactionNo : string) (req : RefundRequest.t)
    (w : World) :
  snd (RefundService_Refund_locked json_Marshal Format_RFC3339 cfg refundNo
         transactionNo req w)
  = with_db
      (db (snd (RefundService_Refund_locked json_Marshal Format_RFC3339 cfg refundNo
                  transactionNo req w))) w.
Proof.
  unfold RefundService_Refund_locked.
  destruct (OrderRepository.GetByOrderNo _ _); [|destruct w; reflexivity].
  destruct (negb _).
  - destruct (bool_decide _); destruct w; reflexivity.
  - destruct (Transaction _ _) as [[e|] d2]; reflexivity.
Qed.

Lemma Refund_locked_quiet (refundNo transactionNo : string) (req : RefundRequest.t)
    (w w' : World) (res : result RefundResponse.t) :
  RefundService_Refund_locked json_Marshal Format_RFC3339 cfg refundNo transactionNo req w
  = (res, w') ->
  match res with
  | Ok r => RefundResponse.Message r = "退款成功"%string \/ db w' = db w
  | Err _ => db w' = db w
  end.
Proof.
  unfold RefundService_Refund_locked.
  destruct (OrderRepository.GetByOrderNo _ _); [|intros [= <- <-]; reflexivity].
  destruct (negb _).
  - destruct (bool_decide _); intros [= <- <-]; auto.
  - unfold Transaction. destruct (RefundService_Refund_tx _ _ _ _ _ _ _ _ _ _);
      intros [= <- <-]; simpl; auto.
Qed.

Lemma Refund_tx_outbox (refundNo transactionNo : string) (req : RefundRequest.t)
    (order : PayOrder.t) (r_db : DB) (now : Z) (tx tx' : DB) :
  RefundService_Refund_tx json_Marshal Format_RFC3339 cfg refundNo transactionNo req
    order r_db now tx = Ok tx' ->
  exists m,
    outbox_message tx !! outbox_auto_increment tx = None /\
    outbox_message tx' = <[outbox_auto_increment tx := m]> (outbox_message tx) /\
    outbox_auto_increment tx' = outbox_auto_increment tx + 1 /\
    OutboxMessage.ID m = outbox_auto_increment tx /\
    OutboxMessage.MessageKey m = refundNo /\
    OutboxMessage.Topic m = Kafka_Topic_PayResult cfg /\
    OutboxMessage.Status m = model.OutboxStatusPending /\
    OutboxMessage.RetryCount m = 0.
Proof.
  intros H. unfold RefundService_Refund_tx in H.
  apply bind_Ok in H as (tx1 & H1 & H). apply wrapping_Ok in H1.
  apply UpdateStatus_Ok in H1 as (_ & ->).
  apply bind_Ok in H as (a0 & H2 & H).
  apply bind_Ok in H as (tx3 & H3 & H). apply wrapping_Ok in H3.
  apply Increase_Ok in H3 as (a' & _ & _ & ->).
  apply bind_Ok in H as (tx4 & H4 & H). apply wrapping_Ok in H4.
  apply TransactionRepository_Create_Ok in H4 as ->.
  apply bind_Ok in H as (tx5 & H5 & H). apply wrapping_Ok in H5.
  apply UpdateStatus_Ok in H5 as (_ & ->).
  apply wrapping_Ok in H. unfold OutboxRepository.Create in H. simpl in H.
  destruct (outbox_message tx !! outbox_auto_increment tx) eqn:Eo; [discriminate|].
  injection H as <-. simpl. eexists. repeat split.
Qed.

(** X12. A refund call changes the store only when it answers "退款成功"
    (refund succeeded): after an error, and after the answer that the
    order is already refunded, the store is exactly as before. *)
Theorem Refund_changes_store_only_on_success (refundNo transactionNo : string)
    (req : RefundRequest.t) (w w' : World) (res : result RefundResponse.t) :
  RefundService_Refund json_Marshal Format_RFC3339 cfg refundNo transactionNo req w
  = (res, w') ->
  match res with
  | Ok r => RefundResponse.Message r = "退款成功"%string \/ db w' = db w
  | Err _ => db w' = db w
  end.
Proof.
  unfold RefundService_Refund.
  destruct (OrderRepository.GetByOrderNo _ _) as [order|e].
  2:{ destruct (errors_Is e ErrOrderNotFound); intros [= <- <-]; reflexivity. }
  destruct (negb _); [intros [= <- <-]; reflexivity|].
  destruct (match TransactionRepository.GetByUserIDAndOrderNo _ _ _ with
            | Some x => _ | None => false end); [intros [= <- <-]; auto|].
  destruct (lock.Lock _ _ _ w) as [[e|] w1] eqn:El.
  - intros [= <- <-]. now apply Lock_loop_failure in El as [-> _].
  - apply Lock_loop_success in El as [Hdb _].
    destruct (RefundService_Refund_locked _ _ _ _ _ _ w1) as [r2 w2] eqn:Ep.
    intros [= <- <-]. rewrite Unlock_db. apply Refund_locked_quiet in Ep.
    rewrite Hdb in Ep. exact Ep.
Qed.

(** X14. A refund that was carried out has staged exactly one outbox
    message: the row inserted under the next auto-increment id, PENDING,
    with retry count 0, the configured topic and the refund number as its
    key; every other outbox row is as before. *)
Theorem Refund_stages_one_outbox_message (refundNo transactionNo : string)
    (req : RefundRequest.t) (w w' : World) (r : RefundResponse.t) :
  RefundService_Refund json_Marshal Format_RFC3339 cfg refundNo transactionNo req w
  = (Ok r, w') ->
  RefundResponse.Message r = "退款成功"%string ->
  exists m,
    outbox_message (db w) !! outbox_auto_increment (db w) = None /\
    outbox_message (db w')
    = <[outbox_auto_increment (db w) := m]> (outbox_message (db w)) /\
    outbox_auto_increment (db w') = outbox_auto_increment (db w) + 1 /\
    OutboxMessage.ID m = outbox_auto_increment (db w) /\
    OutboxMessage.MessageKey m = RefundResponse.RefundNo r /\
    OutboxMessage.Topic m = Kafka_Topic_PayResult cfg /\
    OutboxMessage.Status m = model.OutboxStatusPending /\
    OutboxMessage.RetryCount m = 0.
Proof.
  unfold RefundService_Refund.
  destruct (OrderRepository.GetByOrderNo (db w) _) as [order|e] eqn:Eg.
  2:{ destruct (errors_Is e ErrOrderNotFound); discriminate. }
  destruct (negb _); [discriminate|].
  destruct (match TransactionRepository.GetByUserIDAndOrderNo _ _ _ with
            | Some x => _ | None => false end).
  { intros [= <- <-]. simpl. discriminate. }
  destruct (lock.Lock _ _ _ w) as [[e|] w1] eqn:El; [discriminate|].
  apply Lock_loop_success in El as [Hdb _].
  destruct (RefundService_Refund_locked _ _ _ _ _ _ w1) as [r2 w2] eqn:Ep.
  intros [= -> <-]. rewrite Unlock_db.
  unfold RefundService_Refund_locked in Ep. rewrite Hdb in Ep.
  destruct (OrderRepository.GetByOrderNo (db w) _) as [order'|e]; [|discriminate].
  destruct (negb _).
  { destruct (bool_decide _); [|discriminate].
    injection Ep as <- <-. simpl. discriminate. }
  unfold Transaction in Ep.
  destruct (RefundService_Refund_tx _ _ _ _ _ _ _ _ _ _) as [d2|e] eqn:Et;
    [|discriminate].
  injection Ep as <- <-. intros _. simpl.
  apply Refund_tx_outbox in Et. exact Et.
Qed.

(** X15. Refund does not leak its mutex: whatever the outcome, no key
    other than the order's lock key changes in the key-value store, and a
    lock key that was free before the call is free after it. *)
Theorem Refund_releases_its_lock (refundNo transactionNo : string)
    (req : RefundRequest.t) (w : World) :
  let w' := snd (RefundService_Refund json_Marshal Format_RFC3339 cfg refundNo
                   transactionNo req w) in
  (forall k, k <> lock.key (refund_lock req) -> kv w' !! k = kv w !! k) /\
  (lock.live w (lock.key (refund_lock req)) = None ->
   lock.live w' (lock.key (refund_lock req)) = None).
Proof.
  cbv zeta. unfold RefundService_Refund.
  destruct (OrderRepository.GetByOrderNo _ _) as [order|e].
  2:{ destruct (errors_Is e ErrOrderNotFound); simpl; auto. }
  destruct (negb _); [simpl; auto|].
  destruct (match TransactionRepository.GetByUserIDAndOrderNo _ _ _ with
            | Some x => _ | None => false end); [simpl; auto|].
  fold (refund_lock req).
  destruct (lock.Lock _ _ _ w) as [[e0|] w1] eqn:El.
  - pose proof El as El'. apply Lock_loop_failure in El as [_ Hkv]. simpl.
    split; [intros k _; now rewrite Hkv|].
    intros Hfree. exfalso. unfold lock.Lock in El'.
    rewrite (Lock_loop_acquires _ _ O) in El' by
      (try lia; try (intros j' Hj'; lia);
       rewrite (live_ext _ w) by (simpl; try reflexivity; lia); exact Hfree).
    discriminate.
  - pose proof (Refund_locked_frame refundNo transactionNo req w1) as Hf.
    destruct (RefundService_Refund_locked _ _ _ _ _ _ w1) as [r w2]. simpl in Hf. simpl.
    apply Lock_loop_success in El as [_ Hkv].
    assert (Hk2 : kv w2 = kv w1 /\ clock w2 = clock w1) by (rewrite Hf; auto).
    destruct Hk2 as [Hk2 Hc2].
    assert (Hlive : lock.live w2 (lock.key (refund_lock req))
                    = Some (RefundRequest.RequestID req)).
    { unfold lock.live. rewrite Hk2, Hkv, lookup_insert_eq, Hc2. simpl.
      destruct (Z.ltb_spec (clock w1) (clock w1 + 30 * Second));
        [reflexivity|unfold Second, Millisecond in *; lia]. }
    unfold lock.Unlock. rewrite Hlive. simpl lock.value.
    rewrite bool_decide_eq_true_2 by reflexivity.
    split.
    + intros k Hk. simpl. rewrite lookup_delete_ne by auto.
      rewrite Hk2, Hkv. now rewrite lookup_insert_ne by auto.
    + intros _. unfold lock.live. simpl. now rewrite lookup_delete_eq.
Qed.

End RefundFrames.

(** ** The order-expiry job *)

Lemma UpdateStatus_edge (now : Z) (orderNo fromStatus toStatus : string) (d : DB) :
  In (fromStatus, toStatus) dag_edges ->
  OrderRepository.UpdateStatus now orderNo fromStatus toStatus d
  = if existsb (OrderRepository.matches orderNo fromStatus) (pay_order d)
    then Ok (with_pay_order (transitioned now orderNo fromStatus toStatus (pay_order d)) d)
    else Err ErrOrderStatusInvalid.
Proof.
  intros He. destruct (existsb _ _) eqn:Ex.
  - apply existsb_exists in Ex as (o & Hin & Hm).
    now apply (UpdateStatus_applied _ _ _ _ _ o).
  - apply UpdateStatus_rejected. right. now apply existsb_false.
Qed.

Lemma same_but_orders_refl (w : World) : same_but_orders w w.
Proof. repeat split. Qed.

Lemma same_but_orders_trans (w1 w2 w3 : World) :
  same_but_orders w1 w2 -> same_but_orders w2 w3 -> same_but_orders w1 w3.
Proof.
  unfold same_but_orders. intros (?&?&?&?&?&?&?) (?&?&?&?&?&?&?).
  repeat split; congruence.
Qed.

Lemma same_but_orders_update (l : list PayOrder.t) (w : World) :
  same_but_orders w (with_db (with_pay_order l (db w)) w).
Proof. repeat split. Qed.

Lemma Forall2_map_self {A : Type} (R : A -> A -> Prop) (f : A -> A) (l : list A) :
  (forall x, In x l -> R x (f x)) -> Forall2 R l (map f l).
Proof.
  induction l as [|a l IH]; simpl; intros H; constructor; auto.
Qed.

Lemma closed_edge : In (model.OrderStatusCreated, model.OrderStatusClosed) dag_edges.
Proof. unfold dag_edges. simpl. auto. Qed.

Lemma close_orders_spec (orders : list PayOrder.t) (c : Z) (w : World) :
  same_but_orders w (snd (close_orders orders c w)) /\
  pay_order (db (snd (close_orders orders c w)))
  = map (fun o => if bool_decide (PayOrder.Status o = model.OrderStatusCreated)
                     && named_in orders o
                  then closed (clock w) o else o)
        (pay_order (db w)).
Proof.
  revert c w. induction orders as [|x rest IH]; intros c w.
  - simpl. split; [apply same_but_orders_refl|].
    rewrite <- (map_id (pay_order (db w))) at 1. apply map_ext.
    intros o. now rewrite andb_false_r.
  - simpl close_orders. rewrite UpdateStatus_edge by apply closed_edge.
    destruct (existsb _ _) eqn:Ex.
    + destruct (IH (c + 1)
                  (with_db (with_pay_order
                              (transitioned (clock w) (PayOrder.OrderNo x)
                                 model.OrderStatusCreated model.OrderStatusClosed
                                 (pay_order (db w))) (db w)) w)) as [Hs Hp].
      split.
      * eapply same_but_orders_trans; [apply same_but_orders_update|exact Hs].
      * rewrite Hp. simpl. unfold transitioned. rewrite map_map. apply map_ext.
        intros o. unfold OrderRepository.matches.
        rewrite (bool_decide_eq_false_2 (model.OrderStatusClosed = model.OrderStatusPaid))
          by discriminate.
        fold (closed (clock w) o).
        destruct (OrderRepository.has_order_no (PayOrder.OrderNo x) o) eqn:Eh;
          destruct (bool_decide (PayOrder.Status o = model.OrderStatusCreated)) eqn:Es;
          simpl; rewrite ?Es; simpl; reflexivity.
    + destruct (IH c w) as [Hs Hp]. split; [exact Hs|].
      rewrite Hp. apply map_ext_in. intros o Ho.
      rewrite existsb_false in Ex. specialize (Ex o Ho).
      unfold OrderRepository.matches in Ex. simpl.
      destruct (OrderRepository.has_order_no (PayOrder.OrderNo x) o);
        destruct (bool_decide (PayOrder.Status o = model.OrderStatusCreated));
        simpl in *; try reflexivity; discriminate.
Qed.

Lemma firstn_In {A : Type} (n : nat) (l : list A) (x : A) :
  In x (firstn n l) -> In x l.
Proof.
  revert l. induction n as [|n IH]; intros [|a l]; simpl; try tauto.
  intros [->|H]; [now left|right; auto].
Qed.

Lemma Limit_incl {A : Type} (limit : Z) (l : list A) (x : A) :
  In x (OrderRepository.Limit limit l) -> In x l.
Proof.
  unfold OrderRepository.Limit. destruct (limit <? 0); [auto|]. apply firstn_In.
Qed.

Lemma Limit_all {A : Type} (limit : Z) (l : list A) :
  Z.of_nat (length l) <= limit -> OrderRepository.Limit limit l = l.
Proof.
  intros H. unfold OrderRepository.Limit.
  destruct (limit <? 0); [reflexivity|]. apply firstn_all2. lia.
Qed.

Lemma Limit_NoDup {A B : Type} (f : A -> B) (limit : Z) (l : list A) :
  List.NoDup (map f l) -> List.NoDup (map f (OrderRepository.Limit limit l)).
Proof.
  unfold OrderRepository.Limit. destruct (limit <? 0); [auto|].
  generalize (Z.to_nat limit). intros n. revert l.
  induction n as [|n IH]; intros [|a l]; simpl; try (intros; apply List.NoDup_nil).
  intros H. apply List.NoDup_cons_iff in H as [Hn Hd]. apply List.NoDup_cons_iff. split; [|auto].
  intros Hin. apply Hn. apply in_map_iff in Hin as (y & Hy & Hin).
  apply in_map_iff. exists y. split; [exact Hy|]. now apply firstn_In in Hin.
Qed.

Lemma filter_NoDup_map {A B : Type} (f : A -> B) (p : A -> bool) (l : list A) :
  List.NoDup (map f l) -> List.NoDup (map f (List.filter p l)).
Proof.
  induction l as [|a l IH]; simpl; [auto|].
  intros H. apply List.NoDup_cons_iff in H as [Hn Hd].
  destruct (p a); simpl; [|auto]. apply List.NoDup_cons_iff. split; [|auto].
  intros Hin. apply Hn. apply in_map_iff in Hin as (y & Hy & Hin).
  apply in_map_iff. exists y. split; [exact Hy|]. now apply filter_In in Hin as [? _].
Qed.

Lemma NoDup_map_inj_in {A B : Type} (f : A -> B) (l : list A) (x y : A) :
  List.NoDup (map f l) -> In x l -> In y l -> f x = f y -> x = y.
Proof.
  induction l as [|a l IH]; simpl; [intros _ []|].
  intros H. apply List.NoDup_cons_iff in H as [Hn Hd].
  intros [->|Hx] [->|Hy] E; auto.
  - exfalso. apply Hn. rewrite E. now apply in_map.
  - exfalso. apply Hn. rewrite <- E. now apply in_map.
Qed.

Lemma named_in_spec (orders : list PayOrder.t) (o : PayOrder.t) :
  named_in orders o = true <->
  exists x, In x orders /\ PayOrder.OrderNo x = PayOrder.OrderNo o.
Proof.
  unfold named_in. rewrite existsb_exists. unfold OrderRepository.has_order_no.
  split; intros (x & Hx & E); exists x; split; auto.
  - apply bool_decide_eq_true in E. auto.
  - apply bool_decide_eq_true. auto.
Qed.

Lemma close_orders_count (orders : list PayOrder.t) (c : Z) (w : World) :
  List.NoDup (map PayOrder.OrderNo orders) ->
  (forall x, In x orders ->
     exists o, In o (pay_order (db w)) /\
               OrderRepository.matches (PayOrder.OrderNo x) model.OrderStatusCreated o
               = true) ->
  fst (close_orders orders c w) = c + Z.of_nat (length orders).
Proof.
  revert c w. induction orders as [|x rest IH]; intros c w Hnd Hall.
  - simpl. lia.
  - simpl map in Hnd. apply List.NoDup_cons_iff in Hnd as [Hn Hd].
    simpl close_orders. rewrite UpdateStatus_edge by apply closed_edge.
    destruct (Hall x (or_introl eq_refl)) as (o & Ho & Hm).
    assert (Ex : existsb (OrderRepository.matches (PayOrder.OrderNo x)
                            model.OrderStatusCreated) (pay_order (db w)) = true)
      by (apply existsb_exists; eauto).
    rewrite Ex. rewrite IH.
    + simpl length. lia.
    + exact Hd.
    + intros y Hy. destruct (Hall y (or_intror Hy)) as (o' & Ho' & Hm').
      exists o'. split; [|exact Hm']. simpl. unfold transitioned.
      apply in_map_iff. exists o'. split; [|exact Ho'].
      unfold OrderRepository.matches, OrderRepository.has_order_no in *.
      apply andb_true_iff in Hm' as [Hy1 _]. apply bool_decide_eq_true in Hy1.
      rewrite (bool_decide_eq_false_2 (PayOrder.OrderNo o' = PayOrder.OrderNo x)).
      * reflexivity.
      * intros E. apply Hn. apply in_map_iff. exists y. split; [congruence|exact Hy].
Qed.

Lemma expired_selected (now limit : Z) (d : DB) (x : PayOrder.t) :
  In x (OrderRepository.GetExpiredOrders now d limit) ->
  In x (pay_order d) /\ OrderRepository.expired now x = true.
Proof.
  unfold OrderRepository.GetExpiredOrders. intros H. apply Limit_incl in H.
  now apply filter_In in H.
Qed.

(** X16. A round of the order-expiry job touches nothing but the order
    table, keeps every row in its place, and the only change it makes to a
    row is CREATED -> CLOSED (with the update time): no balance, ledger
    row, outbox row or lock is ever changed by it. *)
Theorem closeExpiredOrders_only_closes_created (w : World) :
  same_but_orders w (OrderTimeoutJob_closeExpiredOrders w) /\
  Forall2 (fun o o' =>
             o' = o \/
             (PayOrder.Status o = model.OrderStatusCreated /\ o' = closed (clock w) o))
    (pay_order (db w)) (pay_order (db (OrderTimeoutJob_closeExpiredOrders w))).
Proof.
  unfold OrderTimeoutJob_closeExpiredOrders.
  destruct (close_orders_spec
              (OrderRepository.GetExpiredOrders (clock w) (db w) OrderTimeoutJob_batchSize)
              0 w) as [Hs Hp].
  split; [exact Hs|]. rewrite Hp. apply Forall2_map_self. intros o _.
  destruct (bool_decide (PayOrder.Status o = model.OrderStatusCreated)) eqn:Es;
    simpl; [|now left].
  apply bool_decide_eq_true in Es.
  destruct (named_in _ o); [right|left]; auto.
Qed.

(** X17. With unique order numbers the expiry job closes only orders that
    are CREATED and past their expiry time, and leaves every other row
    exactly as it was; when at most 100 orders have expired it closes all
    of them, so that a second look finds no expired order. *)
Theorem closeExpiredOrders_closes_the_expired (w : World) :
  List.NoDup (order_numbers (db w)) ->
  Forall2 (fun o o' =>
             (OrderRepository.expired (clock w) o = false /\ o' = o) \/
             (OrderRepository.expired (clock w) o = true /\
              (o' = o \/ o' = closed (clock w) o)))
    (pay_order (db w)) (pay_order (db (OrderTimeoutJob_closeExpiredOrders w))) /\
  (Z.of_nat (length (List.filter (OrderRepository.expired (clock w))
                       (pay_order (db w)))) <= 100 ->
   pay_order (db (OrderTimeoutJob_closeExpiredOrders w))
   = map (fun o => if OrderRepository.expired (clock w) o
                   then closed (clock w) o else o) (pay_order (db w)) /\
   forall limit,
     OrderRepository.GetExpiredOrders (clock w)
       (db (OrderTimeoutJob_closeExpiredOrders w)) limit = []).
Proof.
  intros Hnd. unfold OrderTimeoutJob_closeExpiredOrders.
  destruct (close_orders_spec
              (OrderRepository.GetExpiredOrders (clock w) (db w) OrderTimeoutJob_batchSize)
              0 w) as [_ Hp].
  assert (Hsel : forall o, In o (pay_order (db w)) ->
            named_in (OrderRepository.GetExpiredOrders (clock w) (db w)
                        OrderTimeoutJob_batchSize) o = true ->
            OrderRepository.expired (clock w) o = true).
  { intros o Ho Hn. apply named_in_spec in Hn as (x & Hx & E).
    apply expired_selected in Hx as [Hx He].
    now rewrite <- (NoDup_map_inj_in PayOrder.OrderNo _ x o Hnd Hx Ho E). }
  split.
  - rewrite Hp. apply Forall2_map_self. intros o Ho.
    destruct (OrderRepository.expired (clock w) o) eqn:Ee.
    + right. split; [reflexivity|].
      destruct (_ && _); auto.
    + left. split; [reflexivity|].
      destruct (named_in _ o) eqn:En; [|now rewrite andb_false_r].
      rewrite (Hsel o Ho En) in Ee. discriminate.
  - intros Hlen.
    assert (Hmap : pay_order (db (snd (close_orders
                     (OrderRepository.GetExpiredOrders (clock w) (db w)
                        OrderTimeoutJob_batchSize) 0 w)))
                   = map (fun o => if OrderRepository.expired (clock w) o
                                   then closed (clock w) o else o) (pay_order (db w))).
    { rewrite Hp. apply map_ext_in. intros o Ho.
      destruct (named_in _ o) eqn:En.
      - pose proof (Hsel o Ho En) as He. rewrite He.
        unfold OrderRepository.expired in He. apply andb_true_iff in He as [-> _].
        reflexivity.
      - rewrite andb_false_r.
        destruct (OrderRepository.expired (clock w) o) eqn:Ee; [|reflexivity].
        exfalso. assert (named_in (OrderRepository.GetExpiredOrders (clock w) (db w)
                                     OrderTimeoutJob_batchSize) o = true); [|congruence].
        apply named_in_spec. exists o. split; [|reflexivity].
        unfold OrderRepository.GetExpiredOrders. rewrite Limit_all by exact Hlen.
        apply filter_In. auto. }
    split; [exact Hmap|]. intros limit.
    unfold OrderRepository.GetExpiredOrders at 1. rewrite Hmap.
    rewrite filter_none; [unfold OrderRepository.Limit; destruct (limit <? 0);
                          [reflexivity|apply firstn_nil]|].
    intros o' Ho'. apply in_map_iff in Ho' as (o & <- & Ho).
    destruct (OrderRepository.expired (clock w) o) eqn:Ee; [|exact Ee].
    unfold OrderRepository.expired, closed. simpl. reflexivity.
Qed.

(** X18. With unique order numbers the count that CloseExpiredOrders
    returns is the number of rows it selected: every selected order is
    closed and counted, none fails.  The count never exceeds a
    non-negative limit. *)
Theorem CloseExpiredOrders_counts_the_selected (limit : Z) (w : World) :
  List.NoDup (order_numbers (db w)) ->
  fst (OrderService_CloseExpiredOrders limit w)
  = Z.of_nat (length (OrderRepository.GetExpiredOrders (clock w) (db w) limit)) /\
  (0 <= limit -> fst (OrderService_CloseExpiredOrders limit w) <= limit).
Proof.
  intros Hnd. unfold OrderService_CloseExpiredOrders.
  assert (Hc : fst (close_orders (OrderRepository.GetExpiredOrders (clock w) (db w) limit)
                      0 w)
               = Z.of_nat (length (OrderRepository.GetExpiredOrders (clock w) (db w)
                                     limit))).
  { rewrite close_orders_count; [lia| |].
    - unfold OrderRepository.GetExpiredOrders. apply Limit_NoDup.
      now apply filter_NoDup_map.
    - intros x Hx. apply expired_selected in Hx as [Hx He]. exists x. split; [exact Hx|].
      unfold OrderRepository.expired in He. apply andb_true_iff in He as [He _].
      unfold OrderRepository.matches, OrderRepository.has_order_no.
      rewrite He. now rewrite bool_decide_eq_true_2. }
  split; [exact Hc|]. intros Hl. rewrite Hc.
  unfold OrderRepository.GetExpiredOrders, OrderRepository.Limit.
  destruct (Z.ltb_spec limit 0); [lia|]. rewrite length_firstn. lia.
Qed.

(** ** Order creation *)

Section CreateOrder.

Variable json_Marshal : list (string * json) -> string.
Variable Format_RFC3339 : Z -> string.
Variable cfg : Config.

Lemma CreateOrder_stored (orderNo : string) (req : CreateOrderRequest.t) (w w1 : World)
    (o : PayOrder.t) :
  OrderService_CreateOrder cfg orderNo req w = (Ok o, w1) ->
  OrderRepository.GetByRequestID (db w1) (CreateOrderRequest.RequestID req) = Some o.
Proof.
  unfold OrderService_CreateOrder.
  destruct (OrderRepository.GetByRequestID (db w) _) as [existing|] eqn:Eg.
  - intros [= <- <-]. exact Eg.
  - destruct (OrderRepository.Create _ _ _) as [db'|e] eqn:Ec; [|discriminate].
    intros [= <- <-]. apply OrderRepository_Create_Ok in Ec as (_ & _ & ->).
    unfold OrderRepository.GetByRequestID in *. simpl.
    rewrite find_app_none.
    + simpl. unfold OrderRepository.has_request_id. simpl.
      now rewrite bool_decide_eq_true_2.
    + intros x Hx. apply (find_none _ _ Eg x Hx).
Qed.

End CreateOrder.

(** ** A round of the compensation job *)

Lemma settled_trans (now : Z) (o1 o2 o3 : PayOrder.t) :
  settled now o1 o2 -> settled now o2 o3 -> settled now o1 o3.
Proof.
  unfold settled. intros [->|(Hs & H12)] H23; [exact H23|].
  destruct H23 as [->|(Hs2 & _)]; [right; auto|].
  exfalso. destruct H12 as [->| ->]; simpl in Hs2; discriminate.
Qed.

Lemma Forall2_settled_trans (now : Z) (l1 l2 l3 : list PayOrder.t) :
  Forall2 (settled now) l1 l2 -> Forall2 (settled now) l2 l3 ->
  Forall2 (settled now) l1 l3.
Proof.
  intros H. revert l3. induction H as [|a b l1 l2 Hab _ IH]; intros l3 H3.
  - inversion H3. constructor.
  - inversion H3 as [|b' c l2' l3' Hbc Hrest]; subst. constructor.
    + eapply settled_trans; eauto.
    + auto.
Qed.

Lemma Forall2_settled_refl (now : Z) (l : list PayOrder.t) :
  Forall2 (settled now) l l.
Proof. induction l; constructor; auto. now left. Qed.

Lemma drive_settles (toStatus orderNo : string) (w : World) :
  toStatus = model.OrderStatusPaid \/ toStatus = model.OrderStatusFailed ->
  same_but_orders w (drive model.OrderStatusPaying toStatus orderNo w) /\
  Forall2 (settled (clock w)) (pay_order (db w))
    (pay_order (db (drive model.OrderStatusPaying toStatus orderNo w))).
Proof.
  intros Ht. unfold drive. destruct (existsb _ _).
  - split; [apply same_but_orders_update|]. simpl. unfold transitioned.
    apply Forall2_map_self. intros o _.
    destruct (OrderRepository.matches orderNo model.OrderStatusPaying o) eqn:Em;
      [|now left].
    right. unfold OrderRepository.matches in Em. apply andb_true_iff in Em as [_ Em].
    apply bool_decide_eq_true in Em. split; [exact Em|].
    destruct Ht as [-> | ->]; [left|right]; reflexivity.
  - split; [apply same_but_orders_refl|apply Forall2_settled_refl].
Qed.

Section CompensateRound.

Variable cfg : Config.

Lemma compensateOrder_settles (order : PayOrder.t) (w : World) :
  same_but_orders w (PayingOrderCompensateJob_compensateOrder cfg order w) /\
  Forall2 (settled (clock w)) (pay_order (db w))
    (pay_order (db (PayingOrderCompensateJob_compensateOrder cfg order w))).
Proof.
  unfold PayingOrderCompensateJob_compensateOrder.
  destruct (match TransactionRepository.GetByOrderNo _ _ with
            | Some x => _ | None => false end).
  - rewrite guarded_update_drive by (unfold dag_edges; simpl; auto 10).
    apply drive_settles. now left.
  - destruct (_ <? _).
    + rewrite guarded_update_drive by (unfold dag_edges; simpl; auto 10).
      apply drive_settles. now right.
    + split; [apply same_but_orders_refl|apply Forall2_settled_refl].
Qed.

Lemma compensate_fold_settles (orders : list PayOrder.t) (w : World) :
  same_but_orders w
    (fold_left (fun w order => PayingOrderCompensateJob_compensateOrder cfg order w)
       orders w) /\
  Forall2 (settled (clock w)) (pay_order (db w))
    (pay_order (db (fold_left
                      (fun w order => PayingOrderCompensateJob_compensateOrder cfg order w)
                      orders w))).
Proof.
  revert w. induction orders as [|x rest IH]; intros w; simpl.
  - split; [apply same_but_orders_refl|apply Forall2_settled_refl].
  - destruct (compensateOrder_settles x w) as [Hs1 Hf1].
    destruct (IH (PayingOrderCompensateJob_compensateOrder cfg x w)) as [Hs2 Hf2].
    split; [eapply same_but_orders_trans; eauto|].
    assert (Hc : clock (PayingOrderCompensateJob_compensateOrder cfg x w) = clock w)
      by apply Hs1.
    rewrite Hc in Hf2. eapply Forall2_settled_trans; eauto.
Qed.

(** X21. A round of the compensation job touches nothing but the order
    table and keeps every row in its place; the only change it makes to a
    row is PAYING -> PAID (stamping the payment time) or PAYING -> FAILED.
    It never moves money, writes no ledger or outbox row, and never
    changes an order that is not PAYING. *)
Theorem compensatePayingOrders_only_settles_paying (w : World) :
  same_but_orders w (PayingOrderCompensateJob_compensatePayingOrders cfg w) /\
  Forall2 (settled (clock w)) (pay_order (db w))
    (pay_order (db (PayingOrderCompensateJob_compensatePayingOrders cfg w))).
Proof.
  unfold PayingOrderCompensateJob_compensatePayingOrders. cbv zeta.
  apply compensate_fold_settles.
Qed.

End CompensateRound.

(** ** A round of the outbox relay *)

Lemma same_but_outbox_refl (w : World) : same_but_outbox w w.
Proof. repeat split. Qed.

Lemma same_but_outbox_trans (w1 w2 w3 : World) :
  same_but_outbox w1 w2 -> same_but_outbox w2 w3 -> same_but_outbox w1 w3.
Proof.
  unfold same_but_outbox. intros (?&?&?&?&?&?&?) (?&?&?&?&?&?&?).
  repeat split; congruence.
Qed.

Lemma logged_clock (stmt : DB -> result DB) (w : World) :
  clock (logged stmt w) = clock w.
Proof. unfold logged. destruct (stmt (db w)); reflexivity. Qed.

(** A logged update by id rewrites the row under that id, if there is one,
    and nothing else. *)
Lemma logged_update_by_id (stmt : DB -> result DB) (id : Z)
    (set : OutboxMessage.t -> option OutboxMessage.t) (w : World) :
  (forall d, stmt d = OutboxRepository.update_by_id id set d) ->
  same_but_outbox w (logged stmt w) /\
  outbox_message (db (logged stmt w)) !! id
  = (fun m => default m (set m)) <$> (outbox_message (db w) !! id) /\
  forall id', id' <> id ->
    outbox_message (db (logged stmt w)) !! id' = outbox_message (db w) !! id'.
Proof.
  intros Hstmt. unfold logged. rewrite Hstmt. unfold OutboxRepository.update_by_id.
  destruct (outbox_message (db w) !! id) as [m|] eqn:Em.
  - destruct (set m) as [m'|] eqn:Es; simpl.
    + split; [repeat split|]. split; [now rewrite lookup_insert_eq, Es|].
      intros id' Hid. now rewrite lookup_insert_ne by auto.
    + split; [apply same_but_outbox_refl|]. rewrite Em. simpl. rewrite Es. auto.
  - simpl. split; [destruct w; repeat split|]. rewrite Em. auto.
Qed.

Section RelayRound.

Variable mq_SendMessage : string -> string -> string -> option error.
Variable cfg : Config.

(** One delivery attempt rewrites the row under the message's id by a
    function of that row, the clock and the message, and nothing else. *)
Lemma sendMessage_acts_on_its_row (msg : OutboxMessage.t) (now : Z) :
  exists g : OutboxMessage.t -> OutboxMessage.t,
    forall w, clock w = now ->
      same_but_outbox w (OutboxSender_sendMessage mq_SendMessage cfg msg w) /\
      outbox_message (db (OutboxSender_sendMessage mq_SendMessage cfg msg w))
      !! OutboxMessage.ID msg
      = g <$> (outbox_message (db w) !! OutboxMessage.ID msg) /\
      forall id', id' <> OutboxMessage.ID msg ->
        outbox_message (db (OutboxSender_sendMessage mq_SendMessage cfg msg w)) !! id'
        = outbox_message (db w) !! id'.
Proof.
  unfold OutboxSender_sendMessage. cbv zeta.
  destruct (mq_SendMessage _ _ _) as [e|].
  - destruct (_ <=? _).
    + eexists. intros w Hc. rewrite logged_clock, Hc.
      pose proof (fun set H =>
                    logged_update_by_id
                      (OutboxRepository.IncrementRetryCount (OutboxMessage.ID msg))
                      (OutboxMessage.ID msg) set w H) as H1.
      specialize (H1 _ (fun d => eq_refl)). destruct H1 as (Hs1 & Hr1 & Hf1).
      pose proof (fun set H =>
                    logged_update_by_id
                      (OutboxRepository.MarkAsFailed now (OutboxMessage.ID msg))
                      (OutboxMessage.ID msg) set
                      (logged (OutboxRepository.IncrementRetryCount
                                 (OutboxMessage.ID msg)) w) H) as H2.
      specialize (H2 _ (fun d => eq_refl)). destruct H2 as (Hs2 & Hr2 & Hf2).
      split; [eapply same_but_outbox_trans; eauto|]. split.
      * rewrite Hr2, Hr1. rewrite <- option_fmap_compose. reflexivity.
      * intros id' Hid. rewrite Hf2, Hf1 by auto. reflexivity.
    + eexists. intros w Hc.
      pose proof (fun set H =>
                    logged_update_by_id
                      (OutboxRepository.IncrementRetryCount (OutboxMessage.ID msg))
                      (OutboxMessage.ID msg) set w H) as H1.
      specialize (H1 _ (fun d => eq_refl)). destruct H1 as (Hs1 & Hr1 & Hf1).
      split; [exact Hs1|]. split; [rewrite Hr1; reflexivity|exact Hf1].
  - eexists. intros w Hc. rewrite Hc.
    pose proof (fun set H =>
                  logged_update_by_id
                    (OutboxRepository.UpdateStatus now (OutboxMessage.ID msg)
                       model.OutboxStatusSent)
                    (OutboxMessage.ID msg) set w H) as H1.
    specialize (H1 _ (fun d => eq_refl)). destruct H1 as (Hs1 & Hr1 & Hf1).
    split; [exact Hs1|]. split; [rewrite Hr1; reflexivity|exact Hf1].
Qed.

Lemma send_fold (msgs : list OutboxMessage.t) (w : World) :
  List.NoDup (map OutboxMessage.ID msgs) ->
  let w' := fold_left (fun w msg => OutboxSender_sendMessage mq_SendMessage cfg msg w)
              msgs w in
  same_but_outbox w w' /\
  (forall m, In m msgs ->
     outbox_message (db w') !! OutboxMessage.ID m
     = outbox_message (db (OutboxSender_sendMessage mq_SendMessage cfg m w))
       !! OutboxMessage.ID m) /\
  (forall id, (forall m, In m msgs -> OutboxMessage.ID m <> id) ->
     outbox_message (db w') !! id = outbox_message (db w) !! id).
Proof.
  revert w. induction msgs as [|x rest IH]; intros w Hnd; cbv zeta; simpl fold_left.
  - split; [apply same_but_outbox_refl|]. split; [intros m []|auto].
  - simpl map in Hnd. apply List.NoDup_cons_iff in Hnd as [Hn Hd].
    destruct (IH (OutboxSender_sendMessage mq_SendMessage cfg x w) Hd)
      as (Hs & Hsel & Hrest).
    destruct (sendMessage_acts_on_its_row x (clock w)) as (gx & Hx).
    destruct (Hx w eq_refl) as (Hsx & Hrx & Hfx).
    split; [eapply same_but_outbox_trans; eauto|]. split.
    + intros m [<-|Hm].
      * apply Hrest. intros m Hm E. apply Hn. rewrite <- E. now apply in_map.
      * rewrite (Hsel m Hm).
        assert (Hne : OutboxMessage.ID m <> OutboxMessage.ID x).
        { intros E. apply Hn. rewrite <- E. now apply in_map. }
        destruct (sendMessage_acts_on_its_row m (clock w)) as (gm & Hgm).
        destruct (Hgm w eq_refl) as (_ & -> & _).
        destruct (Hgm (OutboxSender_sendMessage mq_SendMessage cfg x w))
          as (_ & -> & _); [apply Hsx|].
        now rewrite Hfx.
    + intros id Hid. rewrite Hrest by (intros m Hm; apply Hid; now right).
      apply Hfx. intros ->. now apply (Hid x (or_introl eq_refl)).
Qed.

Lemma rows_In (d : DB) (m : OutboxMessage.t) :
  In m (OutboxRepository.rows d) <-> exists id, outbox_message d !! id = Some m.
Proof.
  unfold OutboxRepository.rows. rewrite in_map_iff. split.
  - intros ([id m'] & <- & Hin). exists id.
    apply list_elem_of_In in Hin. now apply elem_of_map_to_list in Hin.
  - intros (id & Hid). exists (id, m). split; [reflexivity|].
    apply list_elem_of_In. now apply elem_of_map_to_list.
Qed.

Lemma rows_NoDup (d : DB) :
  outbox_keyed d -> List.NoDup (map OutboxMessage.ID (OutboxRepository.rows d)).
Proof.
  intros Hk. unfold OutboxRepository.rows. rewrite map_map.
  rewrite (map_ext_in _ fst).
  - apply NoDup_ListNoDup. apply (NoDup_fst_map_to_list (outbox_message d)).
  - intros [id m] Hin. simpl. apply Hk.
    apply list_elem_of_In in Hin. now apply elem_of_map_to_list in Hin.
Qed.

Lemma select_In (status : string) (d : DB) (limit : Z) (m : OutboxMessage.t) :
  In m (OutboxRepository.select_by_status status d limit) ->
  In m (OutboxRepository.rows d) /\ OutboxRepository.has_status status m = true.
Proof.
  unfold OutboxRepository.select_by_status. intros H. apply Limit_incl in H.
  apply (Permutation_in _ (merge_sort_Permutation _ _)) in H.
  now apply filter_In in H.
Qed.

Lemma select_NoDup (status : string) (d : DB) (limit : Z) :
  outbox_keyed d ->
  List.NoDup (map OutboxMessage.ID (OutboxRepository.select_by_status status d limit)).
Proof.
  intros Hk. unfold OutboxRepository.select_by_status. apply Limit_NoDup.
  eapply Permutation_NoDup.
  - apply Permutation_map. symmetry. apply merge_sort_Permutation.
  - apply filter_NoDup_map. now apply rows_NoDup.
Qed.

Lemma select_all (status : string) (d : DB) (limit : Z) (m : OutboxMessage.t) :
  Z.of_nat (length (List.filter (OutboxRepository.has_status status)
                      (OutboxRepository.rows d))) <= limit ->
  In m (OutboxRepository.rows d) -> OutboxRepository.has_status status m = true ->
  In m (OutboxRepository.select_by_status status d limit).
Proof.
  intros Hlen Hin Hs. unfold OutboxRepository.select_by_status.
  rewrite Limit_all.
  - apply (Permutation_in _ (Permutation_sym (merge_sort_Permutation _ _))).
    apply filter_In. auto.
  - now rewrite (Permutation_length (merge_sort_Permutation _ _)).
Qed.

Lemma round_rows (w : World) :
  outbox_keyed (db w) ->
  let messages := OutboxRepository.GetPendingMessages (db w) OutboxSender_batchSize in
  let w' := OutboxSender_processPendingMessages mq_SendMessage cfg w in
  same_but_outbox w w' /\
  (forall m, In m messages ->
     OutboxMessage.Status m = model.OutboxStatusPending /\
     outbox_message (db w) !! OutboxMessage.ID m = Some m /\
     outbox_message (db w') !! OutboxMessage.ID m
     = outbox_message (db (OutboxSender_sendMessage mq_SendMessage cfg m w))
       !! OutboxMessage.ID m) /\
  (forall id, (forall m, In m messages -> OutboxMessage.ID m <> id) ->
     outbox_message (db w') !! id = outbox_message (db w) !! id).
Proof.
  intros Hk. cbv zeta. unfold OutboxSender_processPendingMessages. cbv zeta.
  destruct (send_fold
              (OutboxRepository.GetPendingMessages (db w) OutboxSender_batchSize) w)
    as (Hs & Hsel & Hrest); [now apply select_NoDup|].
  split; [exact Hs|]. split; [|exact Hrest].
  intros m Hm. split; [|split; [|now apply Hsel]].
  - apply select_In in Hm as [_ Hm]. now apply bool_decide_eq_true in Hm.
  - apply select_In in Hm as [Hm _]. apply rows_In in Hm as (id & Hid).
    now rewrite (Hk id m Hid).
Qed.

(** X22. A round of the outbox relay handles the selected messages
    independently of one another: the row of each selected message ends as
    one delivery attempt on that message alone would leave it, whatever
    happened to the others; rows that were not selected (in particular
    SENT and FAILED rows) are untouched, no row is added or removed, and
    nothing outside the outbox table changes. *)
Theorem processPendingMessages_acts_row_by_row (w : World) :
  outbox_keyed (db w) ->
  same_but_outbox w (OutboxSender_processPendingMessages mq_SendMessage cfg w) /\
  (forall m,
     In m (OutboxRepository.GetPendingMessages (db w) OutboxSender_batchSize) ->
     OutboxMessage.Status m = model.OutboxStatusPending /\
     outbox_message (db w) !! OutboxMessage.ID m = Some m /\
     outbox_message (db (OutboxSender_processPendingMessages mq_SendMessage cfg w))
     !! OutboxMessage.ID m
     = outbox_message (db (OutboxSender_sendMessage mq_SendMessage cfg m w))
       !! OutboxMessage.ID m) /\
  (forall id m, outbox_message (db w) !! id = Some m ->
     OutboxMessage.Status m <> model.OutboxStatusPending ->
     outbox_message (db (OutboxSender_processPendingMessages mq_SendMessage cfg w)) !! id
     = Some m) /\
  (forall id, outbox_message (db w) !! id = None ->
     outbox_message (db (OutboxSender_processPendingMessages mq_SendMessage cfg w)) !! id
     = None).
Proof.
  intros Hk. destruct (round_rows w Hk) as (Hs & Hsel & Hrest).
  split; [exact Hs|]. split; [exact Hsel|]. split.
  - intros id m Hid Hst. rewrite Hrest; [exact Hid|].
    intros m' Hm' E. destruct (Hsel m' Hm') as (Hp & Hrow & _).
    rewrite E, Hid in Hrow. injection Hrow as ->. auto.
  - intros id Hid. rewrite Hrest; [exact Hid|].
    intros m' Hm' E. destruct (Hsel m' Hm') as (_ & Hrow & _).
    rewrite E, Hid in Hrow. discriminate.
Qed.

(** X23. When the bus accepts every message and at most 100 messages are
    pending, one round of the relay drains the outbox: every PENDING row
    becomes SENT (stamped with the time of the round, retry count kept),
    every other row is untouched, and no pending message is left. *)
Theorem processPendingMessages_drains_when_bus_up (w : World) :
  outbox_keyed (db w) ->
  (forall topic key payload, mq_SendMessage topic key payload = None) ->
  Z.of_nat (length (List.filter
                      (OutboxRepository.has_status model.OutboxStatusPending)
                      (OutboxRepository.rows (db w)))) <= 100 ->
  outbox_message (db (OutboxSender_processPendingMessages mq_SendMessage cfg w))
  = (fun m => if OutboxRepository.has_status model.OutboxStatusPending m
              then sent (clock w) m else m) <$> outbox_message (db w) /\
  forall limit,
    OutboxRepository.GetPendingMessages
      (db (OutboxSender_processPendingMessages mq_SendMessage cfg w)) limit = [].
Proof.
  intros Hk Hup Hlen. destruct (round_rows w Hk) as (_ & Hsel & Hrest).
  assert (Hmap : outbox_message
                   (db (OutboxSender_processPendingMessages mq_SendMessage cfg w))
                 = (fun m => if OutboxRepository.has_status model.OutboxStatusPending m
                             then sent (clock w) m else m) <$> outbox_message (db w)).
  { apply map_eq. intros id. rewrite lookup_fmap.
    destruct (outbox_message (db w) !! id) as [m|] eqn:Em; simpl.
    - destruct (OutboxRepository.has_status model.OutboxStatusPending m) eqn:Ep.
      + assert (Hin : In m (OutboxRepository.GetPendingMessages (db w)
                              OutboxSender_batchSize)).
        { apply select_all; [exact Hlen| |exact Ep]. apply rows_In. eauto. }
        destruct (Hsel m Hin) as (_ & Hrow & Hafter).
        rewrite <- (Hk id m Em), Hafter.
        apply sendMessage_published; [exact Hrow|apply Hup].
      + rewrite Hrest; [exact Em|]. intros m' Hm' E.
        destruct (Hsel m' Hm') as (Hp & Hrow & _).
        rewrite E, Em in Hrow. injection Hrow as ->.
        unfold OutboxRepository.has_status in Ep.
        apply bool_decide_eq_false in Ep. auto.
    - rewrite Hrest; [exact Em|]. intros m' Hm' E.
      destruct (Hsel m' Hm') as (_ & Hrow & _). rewrite E, Em in Hrow. discriminate. }
  split; [exact Hmap|]. intros limit.
  unfold OutboxRepository.GetPendingMessages, OutboxRepository.select_by_status.
  rewrite filter_none.
  - unfold OrderRepository.Limit. destruct (limit <? 0); [reflexivity|].
    apply firstn_nil.
  - intros x Hx. apply rows_In in Hx as (id & Hid). rewrite Hmap, lookup_fmap in Hid.
    destruct (outbox_message (db w) !! id) as [m|]; [|discriminate].
    simpl in Hid. injection Hid as <-.
    destruct (OutboxRepository.has_status model.OutboxStatusPending m) eqn:Ep;
      [reflexivity|exact Ep].
Qed.

End RelayRound.

(** ** The id generator *)

Lemma lor_disjoint (x y k : Z) :
  0 <= k -> 0 <= y < 2 ^ k -> Z.lor (x * 2 ^ k) y = x * 2 ^ k + y.
Proof.
  intros Hk Hy. symmetry. apply Z.add_nocarry_lor. apply Z.bits_inj_0. intros n.
  rewrite Z.land_spec. destruct (Z.ltb_spec n k).
  - rewrite Z.mul_pow2_bits_low by lia. reflexivity.
  - replace (Z.testbit y n) with false; [apply andb_false_r|].
    symmetry. destruct (Z.eq_dec y 0) as [->|]; [apply Z.bits_0|].
    apply Z.bits_above_log2; [lia|]. apply Z.log2_lt_pow2; [lia|].
    eapply Z.lt_le_trans; [apply Hy|]. apply Z.pow_le_mono_r; lia.
Qed.

Lemma snowflake_layout (now workerID sequence : Z) :
  in_epoch now -> 0 <= workerID <= idgen.maxWorkerID ->
  0 <= sequence <= idgen.maxSequence ->
  Z.lor (Z.lor (wrap64 (Z.shiftl (wrap64 (now - idgen.epoch)) idgen.timestampShift))
               (wrap64 (Z.shiftl workerID idgen.workerIDShift)))
        sequence
  = (now - idgen.epoch) * 2 ^ 22 + workerID * 2 ^ 12 + sequence.
Proof.
  unfold in_epoch. change idgen.maxWorkerID with 1023.
  change idgen.maxSequence with 4095. change idgen.timestampShift with 22.
  change idgen.workerIDShift with 12.
  intros Ht Hw Hs.
  rewrite (wrap64_small (now - idgen.epoch)) by (unfold INT64_MIN, INT64_MAX; lia).
  rewrite !Z.shiftl_mul_pow2 by lia.
  rewrite !wrap64_small by (unfold INT64_MIN, INT64_MAX; lia).
  replace ((now - idgen.epoch) * 2 ^ 22)
    with (((now - idgen.epoch) * 2 ^ 10) * 2 ^ 12) by (rewrite <- Z.mul_assoc; reflexivity).
  rewrite <- !Z.shiftl_mul_pow2 with (n := 12) by lia.
  rewrite <- Z.shiftl_lor. rewrite lor_disjoint by lia.
  rewrite !Z.shiftl_mul_pow2 by lia. rewrite lor_disjoint by lia. ring.
Qed.

Lemma sequence_mask (z : Z) :
  0 <= Z.land z idgen.maxSequence <= idgen.maxSequence.
Proof.
  change idgen.maxSequence with (Z.ones 12). rewrite Z.land_ones by lia.
  change (Z.ones 12) with 4095. pose proof (Z.mod_pos_bound z (2 ^ 12)). lia.
Qed.

Lemma sequence_next (z : Z) :
  0 <= z <= idgen.maxSequence ->
  Z.land (wrap64 (z + 1)) idgen.maxSequence <> 0 ->
  Z.land (wrap64 (z + 1)) idgen.maxSequence = z + 1.
Proof.
  change idgen.maxSequence with (Z.ones 12). rewrite Z.land_ones by lia.
  change (Z.ones 12) with 4095. intros Hz.
  rewrite wrap64_small by (unfold INT64_MIN, INT64_MAX; lia). change (2 ^ 12) with 4096.
  intros Hne. destruct (Z.eq_dec z 4095) as [->|]; [exfalso; apply Hne; reflexivity|].
  apply Z.mod_small. lia.
Qed.

Lemma wait_spec (timestamp now : Z) (readings : list Z) (now' : Z) (rest : list Z) :
  idgen.wait timestamp now readings = Some (now', rest) ->
  timestamp < now' /\ exists pre, now :: readings = pre ++ now' :: rest.
Proof.
  revert now. induction readings as [|t r IH]; intros now; simpl.
  - destruct (Z.leb_spec now timestamp); [discriminate|].
    intros [= <- <-]. split; [lia|]. now exists [].
  - destruct (Z.leb_spec now timestamp).
    + intros H'. apply IH in H' as (Hlt & pre & ->). split; [exact Hlt|].
      now exists (now :: pre).
    + intros [= <- <-]. split; [lia|]. now exists [].
Qed.

Lemma wait_returns (timestamp now : Z) (readings : list Z) :
  (exists t, In t (now :: readings) /\ timestamp < t) ->
  exists out, idgen.wait timestamp now readings = Some out.
Proof.
  revert now. induction readings as [|t r IH]; intros now (t' & Hin & Hlt); simpl.
  - destruct Hin as [<-|[]]. destruct (Z.leb_spec now timestamp); [lia|eauto].
  - destruct (Z.leb_spec now timestamp); [|eauto].
    apply IH. exists t'. destruct Hin as [<-|Hin]; [lia|auto].
Qed.

(** What one call does to the generator and to the readings. *)
Lemma Generate_step (s : idgen.Snowflake) (readings : list Z) (id : Z)
    (s' : idgen.Snowflake) (rest : list Z) :
  idgen.Generate s readings = Some (id, s', rest) ->
  idgen.workerID s' = idgen.workerID s /\
  0 <= idgen.sequence s' <= idgen.maxSequence /\
  id = Z.lor (Z.lor (wrap64 (Z.shiftl (wrap64 (idgen.timestamp s' - idgen.epoch))
                                idgen.timestampShift))
                    (wrap64 (Z.shiftl (idgen.workerID s) idgen.workerIDShift)))
             (idgen.sequence s') /\
  (exists pre, readings = pre ++ idgen.timestamp s' :: rest) /\
  forall now r, readings = now :: r ->
    (now = idgen.timestamp s /\ idgen.timestamp s' = now /\
     idgen.sequence s' = Z.land (wrap64 (idgen.sequence s + 1)) idgen.maxSequence /\
     idgen.sequence s' <> 0) \/
    (now = idgen.timestamp s /\ idgen.timestamp s < idgen.timestamp s' /\
     idgen.sequence s' = 0) \/
    (now <> idgen.timestamp s /\ idgen.timestamp s' = now /\ idgen.sequence s' = 0).
Proof.
  unfold idgen.Generate. destruct readings as [|now r]; [discriminate|].
  destruct (Z.eqb_spec now (idgen.timestamp s)) as [E|E].
  - destruct (Z.eqb_spec (Z.land (wrap64 (idgen.sequence s + 1)) idgen.maxSequence) 0)
      as [E0|E0].
    + destruct (idgen.wait _ _ _) as [[now' rest']|] eqn:Ew; [|discriminate].
      intros [= <- <- <-]. simpl. apply wait_spec in Ew as (Hlt & pre & Hpre).
      split; [reflexivity|]. split; [rewrite E0; change idgen.maxSequence with 4095; lia|].
      split; [reflexivity|]. split; [eauto|].
      intros now0 r0 [= <- <-]. right. left. rewrite E0. auto.
    + intros [= <- <- <-]. simpl.
      split; [reflexivity|]. split; [apply sequence_mask|].
      split; [reflexivity|]. split; [now exists []|].
      intros now0 r0 [= <- <-]. left. auto.
  - intros [= <- <- <-]. simpl.
    split; [reflexivity|]. split; [change idgen.maxSequence with 4095; lia|].
    split; [reflexivity|]. split; [now exists []|].
    intros now0 r0 [= <- <-]. right. right. auto.
Qed.

(** X24. A generated id can be taken apart again: with a worker id in
    range and clock readings within the 41-bit window, the id is
    non-negative, its top bits are the milliseconds since the epoch at
    which the generator stopped, the next ten bits the worker id and the
    low twelve bits the sequence number, which lies between 0 and 4095. *)
Theorem Generate_id_decodes (s : idgen.Snowflake) (readings : list Z) (id : Z)
    (s' : idgen.Snowflake) (rest : list Z) :
  idgen.Generate s readings = Some (id, s', rest) ->
  0 <= idgen.workerID s <= idgen.maxWorkerID ->
  Forall in_epoch readings ->
  0 <= id < 2 ^ 63 /\
  Z.shiftr id idgen.timestampShift + idgen.epoch = idgen.timestamp s' /\
  Z.land (Z.shiftr id idgen.workerIDShift) idgen.maxWorkerID = idgen.workerID s /\
  Z.land id idgen.maxSequence = idgen.sequence s' /\
  0 <= idgen.sequence s' <= idgen.maxSequence.
Proof.
  intros H Hw Hr. apply Generate_step in H as (_ & Hseq & -> & (pre & Hpre) & _).
  assert (Ht : in_epoch (idgen.timestamp s')).
  { rewrite Forall_forall in Hr. apply Hr. rewrite Hpre. apply list_elem_of_In.
    apply in_or_app. right. now left. }
  rewrite snowflake_layout by auto.
  unfold in_epoch in Ht. change idgen.maxWorkerID with (Z.ones 10) in *.
  change idgen.maxSequence with (Z.ones 12) in *.
  change idgen.timestampShift with 22. change idgen.workerIDShift with 12.
  rewrite !Z.land_ones, !Z.shiftr_div_pow2 by lia.
  change (Z.ones 10) with 1023 in *. change (Z.ones 12) with 4095 in *.
  change (2 ^ 22) with 4194304. change (2 ^ 12) with 4096. change (2 ^ 10) with 1024.
  change (2 ^ 41) with 2199023255552 in Ht.
  change (2 ^ 63) with 9223372036854775808.
  split; [lia|]. repeat split; try lia; Z.div_mod_to_equations; lia.
Qed.

Lemma Generate_id_sum (s : idgen.Snowflake) (readings : list Z) (id : Z)
    (s' : idgen.Snowflake) (rest : list Z) :
  idgen.Generate s readings = Some (id, s', rest) ->
  0 <= idgen.workerID s <= idgen.maxWorkerID ->
  Forall in_epoch readings ->
  id = (idgen.timestamp s' - idgen.epoch) * 2 ^ 22 + idgen.workerID s * 2 ^ 12
       + idgen.sequence s'.
Proof.
  intros H Hw Hr. apply Generate_step in H as (_ & Hseq & -> & (pre & Hpre) & _).
  apply snowflake_layout; auto.
  rewrite Forall_forall in Hr. apply Hr. rewrite Hpre. apply list_elem_of_In.
  apply in_or_app. right. now left.
Qed.

Lemma StronglySorted_suffix (pre : list Z) (t : Z) (rest : list Z) :
  StronglySorted Z.le (pre ++ t :: rest) ->
  StronglySorted Z.le rest /\ Forall (Z.le t) rest.
Proof.
  induction pre as [|a pre IH]; simpl; intros H.
  - apply StronglySorted_inv in H. exact H.
  - apply StronglySorted_inv in H as [H _]. auto.
Qed.

(** The ids of successive calls, all above the key the generator starts
    from. *)
Lemma Generate_n_above (n : nat) (s : idgen.Snowflake) (readings : list Z)
    (ids : list Z) (s' : idgen.Snowflake) (rest : list Z) :
  Generate_n n s readings = Some (ids, s', rest) ->
  0 <= idgen.workerID s <= idgen.maxWorkerID ->
  0 <= idgen.sequence s <= idgen.maxSequence ->
  StronglySorted Z.le readings -> Forall in_epoch readings ->
  Forall (Z.le (idgen.timestamp s)) readings ->
  StronglySorted Z.lt ids /\
  Forall (Z.lt ((idgen.timestamp s - idgen.epoch) * 2 ^ 22
                + idgen.workerID s * 2 ^ 12 + idgen.sequence s)) ids.
Proof.
  revert s readings ids s' rest.
  induction n as [|n IH]; intros s readings ids s' rest; simpl.
  - intros [= <- <- <-] _ _ _ _ _. split; constructor.
  - destruct (idgen.Generate s readings) as [[[id s1] r1]|] eqn:Eg; [|discriminate].
    destruct (Generate_n n s1 r1) as [[[ids' s2] r2]|] eqn:En; [|discriminate].
    intros [= <- <- <-] Hw Hq Hsorted Hrange Hge.
    pose proof (Generate_id_sum _ _ _ _ _ Eg Hw Hrange) as Hid.
    apply Generate_step in Eg as (Hw1 & Hq1 & _ & (pre & Hpre) & Hcase).
    assert (Hsuf : StronglySorted Z.le r1 /\ Forall (Z.le (idgen.timestamp s1)) r1).
    { apply (StronglySorted_suffix pre). now rewrite <- Hpre. }
    assert (Hr1 : Forall in_epoch r1).
    { rewrite Hpre in Hrange. apply Forall_app in Hrange as [_ Hrange].
      now apply Forall_cons in Hrange as [_ Hrange]. }
    destruct (IH s1 r1 ids' s2 r2 En) as [Hs Ha]; try tauto.
    { now rewrite Hw1. }
    assert (Hkey : (idgen.timestamp s - idgen.epoch) * 2 ^ 22
                   + idgen.workerID s * 2 ^ 12 + idgen.sequence s < id).
    { rewrite Hid. change idgen.maxSequence with 4095 in *.
      change (2 ^ 22) with 4194304. change (2 ^ 12) with 4096.
      destruct readings as [|now r]; [destruct pre; discriminate|].
      apply Forall_cons in Hge as [Hge _].
      destruct (Hcase now r eq_refl) as [(E1 & E2 & E3 & E4)|[(E1 & E2 & E3)|(E1 & E2 & E3)]].
      - rewrite sequence_next in E3 by (change idgen.maxSequence with 4095; lia || congruence).
        lia.
      - lia.
      - lia. }
    rewrite Hw1, <- Hid in Ha.
    split.
    + constructor; [exact Hs|exact Ha].
    + constructor; [exact Hkey|].
      eapply Forall_impl; [exact Ha|]. intros x Hx. simpl in Hx. lia.
Qed.

(** X25. Ids never repeat and keep growing as long as the clock does not
    run backwards: when successive calls read a non-decreasing clock
    within the 41-bit window, every id is strictly greater than all the
    ids handed out before it. *)
Theorem Generate_ids_strictly_increase (n : nat) (s : idgen.Snowflake)
    (readings : list Z) (ids : list Z) (s' : idgen.Snowflake) (rest : list Z) :
  Generate_n n s readings = Some (ids, s', rest) ->
  0 <= idgen.workerID s <= idgen.maxWorkerID ->
  StronglySorted Z.le readings ->
  Forall in_epoch readings ->
  StronglySorted Z.lt ids.
Proof.
  destruct n as [|n]; simpl.
  - intros [= <- <- <-] _ _ _. constructor.
  - destruct (idgen.Generate s readings) as [[[id s1] r1]|] eqn:Eg; [|discriminate].
    destruct (Generate_n n s1 r1) as [[[ids' s2] r2]|] eqn:En; [|discriminate].
    intros [= <- <- <-] Hw Hsorted Hrange.
    pose proof (Generate_id_sum _ _ _ _ _ Eg Hw Hrange) as Hid.
    apply Generate_step in Eg as (Hw1 & Hq1 & _ & (pre & Hpre) & _).
    assert (Hsuf : StronglySorted Z.le r1 /\ Forall (Z.le (idgen.timestamp s1)) r1).
    { apply (StronglySorted_suffix pre). now rewrite <- Hpre. }
    assert (Hr1 : Forall in_epoch r1).
    { rewrite Hpre in Hrange. apply Forall_app in Hrange as [_ Hrange].
      now apply Forall_cons in Hrange as [_ Hrange]. }
    destruct (Generate_n_above n s1 r1 ids' s2 r2 En) as [Hs Ha]; try tauto.
    { now rewrite Hw1. }
    rewrite Hw1, <- Hid in Ha. constructor; assumption.
Qed.

(** X26. Generate returns as soon as the clock has a reading past the
    stored timestamp; and when the 4096 sequence numbers of a millisecond
    are used up it does not reuse one: it waits, and the id it returns
    carries a later millisecond and sequence number 0. *)
Theorem Generate_waits_for_the_next_millisecond (s : idgen.Snowflake)
    (readings : list Z) :
  ((exists t, In t readings /\ idgen.timestamp s < t) ->
   exists out, idgen.Generate s readings = Some out) /\
  (forall now r id s' rest,
     readings = now :: r -> now = idgen.timestamp s ->
     idgen.sequence s = idgen.maxSequence ->
     idgen.Generate s readings = Some (id, s', rest) ->
     idgen.timestamp s < idgen.timestamp s' /\ idgen.sequence s' = 0 /\
     In (idgen.timestamp s') r) /\
  (forall now r,
     readings = now :: r -> now = idgen.timestamp s ->
     idgen.sequence s = idgen.maxSequence ->
     (forall t, In t r -> t <= idgen.timestamp s) ->
     idgen.Generate s readings = None).
Proof.
  split; [|split].
  - intros (t & Hin & Hlt). unfold idgen.Generate.
    destruct readings as [|now r]; [destruct Hin|].
    destruct (now =? idgen.timestamp s); [|eauto].
    destruct (_ =? 0); [|eauto].
    destruct (wait_returns (idgen.timestamp s) now r) as ([now' rest'] & ->); eauto.
  - intros now r id s' rest -> Hnow Hq. unfold idgen.Generate.
    rewrite Hnow, Z.eqb_refl, Hq. simpl.
    destruct (idgen.wait _ _ _) as [[now' rest']|] eqn:Ew; [|discriminate].
    intros [= <- <- <-]. simpl. apply wait_spec in Ew as (Hlt & pre & Hpre).
    split; [exact Hlt|]. split; [reflexivity|].
    destruct pre as [|a pre]; simpl in Hpre.
    + injection Hpre as Hpre _. lia.
    + injection Hpre as _ ->. apply in_or_app. right. now left.
  - intros now r -> Hnow Hq Hall. unfold idgen.Generate.
    rewrite Hnow, Z.eqb_refl, Hq. simpl.
    destruct (idgen.wait _ _ _) as [[now' rest']|] eqn:Ew; [|reflexivity].
    exfalso. apply wait_spec in Ew as (Hlt & pre & Hpre).
    destruct pre as [|a pre]; simpl in Hpre.
    + injection Hpre as Hpre _. lia.
    + injection Hpre as _ ->.
      assert (Hin : In now' (pre ++ now' :: rest')) by (apply in_or_app; right; now left).
      specialize (Hall _ Hin). lia.
Qed.

(** ** Appending to a list without duplicates *)

Lemma NoDup_snoc {A : Type} (l : list A) (x : A) :
  List.NoDup l -> ~ In x l -> List.NoDup (l ++ [x]).
Proof.
  intros Hl Hx. apply (Permutation_NoDup (Permutation_cons_append l x)).
  now constructor.
Qed.

(** ** Induction over the statements a call issues *)

Section Statements.

Variable json_Marshal : list (string * json) -> string.
Variable Format_RFC3339 : Z -> string.
Variable mq_SendMessage : string -> string -> string -> option error.
Variable cfg : Config.

(** A relation between stores that is reflexive, transitive and holds
    across each kind of statement holds across every operation. *)
Variable R : DB -> DB -> Prop.
Hypothesis R_refl : forall d, R d d.
Hypothesis R_trans : forall d1 d2 d3, R d1 d2 -> R d2 d3 -> R d1 d3.
Hypothesis R_create_order : forall now order tx tx',
  OrderRepository.Create now order tx = Ok tx' -> R tx tx'.
Hypothesis R_update_status : forall now orderNo fromStatus toStatus tx tx',
  OrderRepository.UpdateStatus now orderNo fromStatus toStatus tx = Ok tx' -> R tx tx'.
Hypothesis R_account : forall u a d, R d (with_account (<[u := a]> (account d)) d).
Hypothesis R_create_transaction : forall now trans tx tx',
  TransactionRepository.Create now trans tx = Ok tx' -> R tx tx'.
Hypothesis R_create_message : forall now msg tx tx',
  OutboxRepository.Create now msg tx = Ok tx' -> R tx tx'.
Hypothesis R_update_by_id : forall id set d d',
  OutboxRepository.update_by_id id set d = Ok d' -> R d d'.

Lemma R_GetOrCreate (now userID : Z) (d : DB) :
  R d (snd (AccountRepository.GetOrCreate now userID d)).
Proof.
  rewrite GetOrCreate_spec. destruct (account d !! userID); simpl; auto.
Qed.

Lemma R_guarded (now : Z) (orderNo fromStatus toStatus : string) (w : World) :
  R (db w)
    (db match OrderRepository.UpdateStatus now orderNo fromStatus toStatus (db w) with
        | Ok d' => with_db d' w
        | Err _ => w
        end).
Proof.
  destruct (OrderRepository.UpdateStatus _ _ _ _ _) as [d'|e] eqn:E; simpl; eauto.
Qed.

Lemma R_logged (stmt : DB -> result DB) (w : World) :
  (forall d d', stmt d = Ok d' -> R d d') -> R (db w) (db (logged stmt w)).
Proof.
  intros Hs. unfold logged. destruct (stmt (db w)) as [d'|e] eqn:E; simpl; eauto.
Qed.

Lemma R_Pay_tx (orderNo transactionNo : string) (req : PayRequest.t)
    (account0 : Account.t) (order : PayOrder.t) (r_db : DB) (now : Z) (tx tx' : DB) :
  PayService_Pay_tx json_Marshal Format_RFC3339 cfg orderNo transactionNo req account0
    order r_db now tx = Ok tx' ->
  R tx tx'.
Proof.
  intros H. unfold PayService_Pay_tx in H.
  apply bind_Ok in H as (tx1 & H1 & H). apply wrapping_Ok in H1.
  apply R_create_order in H1.
  apply bind_Ok in H as (tx2 & H2 & H). apply wrapping_Ok in H2.
  apply R_update_status in H2.
  apply bind_Ok in H as (tx3 & H3 & H).
  destruct (AccountRepository.Deduct _ _ _ _ _ _) as [tx3'|e] eqn:Ed.
  2:{ destruct (errors_Is e ErrBalanceNotEnough); [discriminate|].
      destruct (errors_Is e ErrOptimisticLock); discriminate. }
  injection H3 as ->.
  apply Deduct_Ok in Ed as (a & _ & _ & _ & Ed).
  apply bind_Ok in H as (tx4 & H4 & H). apply wrapping_Ok in H4.
  apply R_create_transaction in H4.
  apply bind_Ok in H as (tx5 & H5 & H). apply wrapping_Ok in H5.
  apply R_update_status in H5.
  apply wrapping_Ok in H. apply R_create_message in H.
  eapply R_trans; [exact H1|]. eapply R_trans; [exact H2|].
  apply (R_trans _ tx3); [rewrite Ed; apply R_account|].
  eapply R_trans; [exact H4|]. eapply R_trans; [exact H5|exact H].
Qed.

Lemma R_Refund_tx (refundNo transactionNo : string) (req : RefundRequest.t)
    (order : PayOrder.t) (r_db : DB) (now : Z) (tx tx' : DB) :
  RefundService_Refund_tx json_Marshal Format_RFC3339 cfg refundNo transactionNo req
    order r_db now tx = Ok tx' ->
  R tx tx'.
Proof.
  intros H. unfold RefundService_Refund_tx in H.
  apply bind_Ok in H as (tx1 & H1 & H). apply wrapping_Ok in H1.
  apply R_update_status in H1.
  apply bind_Ok in H as (a0 & _ & H).
  apply bind_Ok in H as (tx3 & H3 & H). apply wrapping_Ok in H3.
  apply Increase_Ok in H3 as (a' & _ & _ & H3).
  apply bind_Ok in H as (tx4 & H4 & H). apply wrapping_Ok in H4.
  apply R_create_transaction in H4.
  apply bind_Ok in H as (tx5 & H5 & H). apply wrapping_Ok in H5.
  apply R_update_status in H5.
  apply wrapping_Ok in H. apply R_create_message in H.
  eapply R_trans; [exact H1|].
  apply (R_trans _ tx3); [rewrite H3; apply R_account|].
  eapply R_trans; [exact H4|]. eapply R_trans; [exact H5|exact H].
Qed.

Lemma R_Pay (orderNo transactionNo : string) (req : PayRequest.t) (w : World) :
  R (db w)
    (db (snd (PayService_Pay json_Marshal Format_RFC3339 cfg orderNo transactionNo
                req w))).
Proof.
  unfold PayService_Pay.
  destruct (OrderRepository.GetByRequestID _ _); [apply R_refl|].
  match goal with |- context [lock.Lock ?l ?i ?n w] =>
    pose proof (Lock_db l i n w) as Hdb; destruct (lock.Lock l i n w) as [[e|] w1]
  end; simpl in Hdb; [simpl; rewrite Hdb; apply R_refl|].
  rewrite <- Hdb. clear Hdb.
  destruct (PayService_Pay_locked _ _ _ _ _ _ w1) as [r w2] eqn:Ep. simpl.
  rewrite Unlock_db. unfold PayService_Pay_locked in Ep.
  destruct (OrderRepository.GetByRequestID _ _); [injection Ep as _ <-; apply R_refl|].
  pose proof (R_GetOrCreate (clock w1) (PayRequest.UserID req) (db w1)) as Hg.
  destruct (AccountRepository.GetOrCreate _ _ _) as [[a|e] d1]; simpl in Hg;
    [|now injection Ep as _ <-].
  destruct (_ <? _); [now injection Ep as _ <-|].
  unfold Transaction in Ep.
  destruct (PayService_Pay_tx _ _ _ _ _ _ _ _ _ _ _) as [d2|e] eqn:Et;
    injection Ep as _ <-; simpl; [|exact Hg].
  eapply R_trans; [exact Hg|]. eapply R_Pay_tx; eauto.
Qed.

Lemma R_Refund (refundNo transactionNo : string) (req : RefundRequest.t) (w : World) :
  R (db w)
    (db (snd (RefundService_Refund json_Marshal Format_RFC3339 cfg refundNo
                transactionNo req w))).
Proof.
  unfold RefundService_Refund.
  destruct (OrderRepository.GetByOrderNo _ _) as [order|e].
  2:{ destruct (errors_Is e ErrOrderNotFound); apply R_refl. }
  destruct (negb _); [apply R_refl|].
  destruct (match TransactionRepository.GetByUserIDAndOrderNo _ _ _ with
            | Some x => _ | None => false end); [apply R_refl|].
  match goal with |- context [lock.Lock ?l ?i ?n w] =>
    pose proof (Lock_db l i n w) as Hdb; destruct (lock.Lock l i n w) as [[e|] w1]
  end; simpl in Hdb; [simpl; rewrite Hdb; apply R_refl|].
  rewrite <- Hdb. clear Hdb.
  destruct (RefundService_Refund_locked _ _ _ _ _ _ w1) as [r w2] eqn:Ep. simpl.
  rewrite Unlock_db. unfold RefundService_Refund_locked in Ep.
  destruct (OrderRepository.GetByOrderNo _ _) as [order'|e];
    [|injection Ep as _ <-; apply R_refl].
  destruct (negb _).
  { destruct (bool_decide _); injection Ep as _ <-; apply R_refl. }
  unfold Transaction in Ep.
  destruct (RefundService_Refund_tx _ _ _ _ _ _ _ _ _ _) as [d2|e] eqn:Et;
    injection Ep as _ <-; simpl; [|apply R_refl].
  eapply R_Refund_tx; eauto.
Qed.

Lemma R_perform (op : operation) (w : World) :
  R (db w) (db (perform json_Marshal Format_RFC3339 mq_SendMessage cfg op w)).
Proof.
  destruct op; simpl perform.
  - apply R_Pay.
  - apply R_Refund.
  - unfold AccountService_Recharge. destruct (_ <=? _); [apply R_refl|].
    pose proof (R_GetOrCreate (clock w) userID (db w)) as Hg.
    destruct (AccountRepository.GetOrCreate _ _ _) as [[a|e] d1]; simpl in Hg;
      [|exact Hg].
    destruct (AccountRepository.Increase _ _ _ _) as [d2|e] eqn:Ei; [|exact Hg].
    apply Increase_Ok in Ei as (a' & _ & _ & ->). simpl.
    eapply R_trans; [exact Hg|apply R_account].
  - unfold OrderService_CreateOrder.
    destruct (OrderRepository.GetByRequestID _ _); [apply R_refl|].
    destruct (OrderRepository.Create _ _ _) as [d'|e] eqn:Ec; [|apply R_refl].
    simpl. eauto.
  - unfold OrderService_CancelOrder.
    destruct (OrderRepository.GetByOrderNo _ _) as [order|e]; [|apply R_refl].
    destruct (OrderRepository.UpdateStatus _ _ _ _ _) as [d'|e] eqn:Eu; [|apply R_refl].
    simpl. eauto.
  - unfold OrderTimeoutJob_closeExpiredOrders.
    generalize (OrderRepository.GetExpiredOrders (clock w) (db w)
                  OrderTimeoutJob_batchSize) 0.
    intros orders. revert w. induction orders as [|x rest IH]; intros w c; simpl;
      [apply R_refl|].
    destruct (OrderRepository.UpdateStatus _ _ _ _ _) as [d'|e] eqn:E; [|apply IH].
    eapply R_trans; [eapply R_update_status; exact E|].
    apply (IH (with_db d' w)).
  - unfold PayingOrderCompensateJob_compensatePayingOrders. cbv zeta.
    generalize (OrderRepository.GetPayingOrders (db w) (clock w + - 5 * Minute)
                  PayingOrderCompensateJob_batchSize).
    intros orders. revert w. induction orders as [|x rest IH]; intros w; simpl;
      [apply R_refl|].
    eapply R_trans; [|apply IH]. unfold PayingOrderCompensateJob_compensateOrder.
    destruct (match TransactionRepository.GetByOrderNo _ _ with
              | Some x => _ | None => false end); [apply R_guarded|].
    destruct (_ <? _); [apply R_guarded|apply R_refl].
  - unfold OutboxSender_processPendingMessages. cbv zeta.
    generalize (OutboxRepository.GetPendingMessages (db w) OutboxSender_batchSize).
    intros msgs. revert w. induction msgs as [|x rest IH]; intros w; simpl;
      [apply R_refl|].
    eapply R_trans; [|apply IH]. unfold OutboxSender_sendMessage.
    destruct (mq_SendMessage _ _ _).
    + cbv zeta. destruct (_ <=? _).
      * eapply R_trans; apply R_logged; intros d d'; apply R_update_by_id.
      * apply R_logged. intros d d'. apply R_update_by_id.
    + apply R_logged. intros d d'. apply R_update_by_id.
  - apply R_refl.
Qed.

Lemma R_run (ops : list operation) (w : World) :
  R (db w)
    (db (fold_left
           (fun w op => perform json_Marshal Format_RFC3339 mq_SendMessage cfg op w)
           ops w)).
Proof.
  revert w. induction ops as [|op ops IH]; intros w; simpl; [apply R_refl|].
  eapply R_trans; [apply R_perform|apply IH].
Qed.

End Statements.

(** ** Nothing is lost *)

Lemma moved_refl (o : PayOrder.t) : moved o o.
Proof. repeat split. apply rtc_refl. Qed.

Lemma moved_trans (o1 o2 o3 : PayOrder.t) : moved o1 o2 -> moved o2 o3 -> moved o1 o3.
Proof.
  intros (?&?&?&?&H12) (?&?&?&?&H23). repeat split; try congruence.
  etrans; eauto.
Qed.

Lemma Forall2_moved_refl (l : list PayOrder.t) : Forall2 moved l l.
Proof. induction l; constructor; auto using moved_refl. Qed.

Lemma Forall2_moved_trans (l1 l2 l3 : list PayOrder.t) :
  Forall2 moved l1 l2 -> Forall2 moved l2 l3 -> Forall2 moved l1 l3.
Proof.
  intros H. revert l3. induction H as [|a b l1 l2 Hab _ IH]; intros l3 H3.
  - inversion H3. constructor.
  - inversion H3 as [|b' c l2' l3' Hbc Hrest]; subst. constructor.
    + eapply moved_trans; eauto.
    + auto.
Qed.

Lemma history_kept_refl (d : DB) : history_kept d d.
Proof.
  split; [|split; [|split]]; auto.
  - exists (pay_order d), []. rewrite app_nil_r. split; [reflexivity|].
    apply Forall2_moved_refl.
  - exists []. now rewrite app_nil_r.
Qed.

Lemma history_kept_trans (d1 d2 d3 : DB) :
  history_kept d1 d2 -> history_kept d2 d3 -> history_kept d1 d3.
Proof.
  intros ((l2 & add2 & E2 & F2) & (led2 & L2) & A2 & O2)
         ((l3 & add3 & E3 & F3) & (led3 & L3) & A3 & O3).
  split; [|split; [|split]]; auto.
  - rewrite E2 in F3. apply Forall2_app_inv_l in F3 as (l3a & l3b & Fa & Fb & ->).
    exists l3a, (l3b ++ add3). split; [now rewrite E3, app_assoc|].
    eapply Forall2_moved_trans; eauto.
  - exists (led2 ++ led3). now rewrite L3, L2, app_assoc.
Qed.

Lemma history_kept_orders (d d' : DB) (l' added : list PayOrder.t) :
  pay_order d' = l' ++ added -> Forall2 moved (pay_order d) l' ->
  account d' = account d -> account_transaction d' = account_transaction d ->
  outbox_message d' = outbox_message d ->
  history_kept d d'.
Proof.
  intros E F Ea El Eo. split; [|split; [|split]].
  - eauto.
  - exists []. now rewrite El, app_nil_r.
  - intros u. now rewrite Ea.
  - intros id. now rewrite Eo.
Qed.

Lemma history_kept_UpdateStatus (now : Z) (orderNo fromStatus toStatus : string)
    (tx tx' : DB) :
  OrderRepository.UpdateStatus now orderNo fromStatus toStatus tx = Ok tx' ->
  history_kept tx tx'.
Proof.
  intros H. apply UpdateStatus_Ok in H as (Hc & ->).
  apply CanTransitionTo_edges in Hc.
  apply (history_kept_orders _ _
           (transitioned now orderNo fromStatus toStatus (pay_order tx)) []);
    try reflexivity.
  - simpl. now rewrite app_nil_r.
  - unfold transitioned. apply Forall2_map_self. intros o _.
    destruct (OrderRepository.matches orderNo fromStatus o) eqn:Em;
      [|apply moved_refl].
    unfold OrderRepository.matches in Em. apply andb_true_iff in Em as [_ Em].
    apply bool_decide_eq_true in Em. repeat split. simpl. rewrite Em.
    now apply rtc_once.
Qed.

(** X28. Nothing is lost, whatever is done: across any sequence of
    service calls and job rounds the orders that existed are still there,
    in their places, with the order number, request id, user and amount
    they had and a status reached along the life cycle (new orders come
    after them); the ledger has only been appended to; and no account and
    no outbox row has disappeared. *)
Theorem history_is_kept (json_Marshal : list (string * json) -> string)
    (Format_RFC3339 : Z -> string)
    (mq_SendMessage : string -> string -> string -> option error) (cfg : Config)
    (ops : list operation) (w : World) :
  history_kept (db w)
    (db (fold_left
           (fun w op => perform json_Marshal Format_RFC3339 mq_SendMessage cfg op w)
           ops w)).
Proof.
  apply R_run.
  - apply history_kept_refl.
  - apply history_kept_trans.
  - intros now order tx tx' H. apply OrderRepository_Create_Ok in H as (_ & _ & ->).
    apply (history_kept_orders _ _ (pay_order tx) [PayOrder.created now order]);
      try reflexivity. apply Forall2_moved_refl.
  - apply history_kept_UpdateStatus.
  - intros u a d. split; [|split; [|split]]; simpl; auto.
    + exists (pay_order d), []. rewrite app_nil_r. split; [reflexivity|].
      apply Forall2_moved_refl.
    + exists []. now rewrite app_nil_r.
    + intros u' Hu. rewrite lookup_insert. case_decide; eauto.
  - intros now trans tx tx' H. apply TransactionRepository_Create_Ok in H as ->.
    split; [|split; [|split]]; simpl; eauto.
    exists (pay_order tx), []. rewrite app_nil_r. split; [reflexivity|].
    apply Forall2_moved_refl.
  - intros now msg tx tx'. unfold OutboxRepository.Create.
    destruct (outbox_message tx !! outbox_auto_increment tx); [discriminate|].
    intros [= <-]. split; [|split; [|split]]; simpl; auto.
    + exists (pay_order tx), []. rewrite app_nil_r. split; [reflexivity|].
      apply Forall2_moved_refl.
    + exists []. now rewrite app_nil_r.
    + intros id Hid. rewrite lookup_insert. case_decide; eauto.
  - intros id set d d'. unfold OutboxRepository.update_by_id.
    destruct (outbox_message d !! id) as [m|] eqn:Em;
      [|intros [= <-]; apply history_kept_refl].
    destruct (set m) as [m'|]; [|discriminate].
    intros [= <-]. split; [|split; [|split]]; simpl; auto.
    + exists (pay_order d), []. rewrite app_nil_r. split; [reflexivity|].
      apply Forall2_moved_refl.
    + exists []. now rewrite app_nil_r.
    + intros id' Hid. rewrite lookup_insert. case_decide; eauto.
Qed.

(** * Examples of the further properties *)

Lemma lease_excludes_until_expiry_witness :
  fst (lock.TryLock lock_b (lock.sleep (10 * Second) world_locked)) = false /\
  fst (lock.TryLock lock_b (lock.sleep (30 * Second) world_locked)) = true.
Proof.
  assert (Ha : proper_lease lock_a) by (split; vm_compute; reflexivity).
  assert (Hb : proper_lease lock_b) by (split; vm_compute; reflexivity).
  split.
  - refine (proj1 (proj1 (lease_excludes_until_expiry lock_a lock_b empty_World
                            world_locked (10 * Second) Ha Hb _ _ _) _));
      [reflexivity | reflexivity | vm_compute; discriminate | vm_compute; reflexivity].
  - refine (proj1 (proj2 (lease_excludes_until_expiry lock_a lock_b empty_World
                            world_locked (30 * Second) Ha Hb _ _ _) _));
      [reflexivity | reflexivity | vm_compute; discriminate | vm_compute; discriminate].
Defined.

Lemma Lock_gives_up_witness :
  lock.Lock lock_b (100 * Millisecond) 30 world_locked
  = (Some ErrLockFailed, refused 30 lock_b (100 * Millisecond) world_locked).
Proof.
  refine (proj1 (Lock_gives_up lock_b (100 * Millisecond) 30 world_locked)
            "R4"%string (30 * Second) _ _ _ _);
    [reflexivity | vm_compute; discriminate | lia | vm_compute; reflexivity].
Defined.

Lemma Lock_acquires_at_first_free_attempt_witness :
  exists w1, lock.Lock lock_b (15 * Second) 5 world_locked = (None, w1) /\
             clock w1 = 30 * Second.
Proof.
  destruct (Lock_acquires_at_first_free_attempt lock_b (15 * Second) 5 2 world_locked)
    as (w1 & H1 & H2 & _).
  - split; vm_compute; reflexivity.
  - vm_compute. discriminate.
  - lia.
  - intros [|[|j']] Hj; [vm_compute; discriminate | vm_compute; discriminate | lia].
  - vm_compute. reflexivity.
  - exists w1. split; [exact H1|]. rewrite H2. vm_compute. reflexivity.
Defined.

Lemma stale_owner_cannot_release_successor_witness :
  lock.live
    (lock.Unlock lock_a
       (lock.sleep Second
          (snd (lock.TryLock lock_b (lock.sleep (30 * Second) world_locked)))))
    (lock.key lock_b)
  = Some "R5"%string.
Proof.
  refine (proj1 (proj2 (stale_owner_cannot_release_successor lock_a lock_b empty_World
                          world_locked (30 * Second) Second _ _ _ _ _ _ _ _)));
    [split; vm_compute; reflexivity | split; vm_compute; reflexivity
    | reflexivity | reflexivity | discriminate | vm_compute; discriminate
    | vm_compute; discriminate | vm_compute; reflexivity].
Defined.

Lemma Lock_then_Unlock_frees_witness :
  lock.live
    (lock.Unlock lock_a (snd (lock.Lock lock_a (100 * Millisecond) 30 empty_World)))
    (lock.key lock_a)
  = None.
Proof.
  refine (proj1 (Lock_then_Unlock_frees lock_a (100 * Millisecond) 30 empty_World
                   (snd (lock.Lock lock_a (100 * Millisecond) 30 empty_World)) _ _));
    [vm_compute; reflexivity | vm_compute; reflexivity].
Defined.

Lemma Pay_failure_changes_nothing_witness :
  same_business (db world_funded)
    (db (snd (PayService_Pay demo_Marshal demo_Format demo_cfg "PAY0002" "TXN0002"
                (PayRequest.mk "R6" 7 5000 "COIN_VIDEO" "v1") world_funded))).
Proof.
  refine (Pay_failure_changes_nothing demo_Marshal demo_Format demo_cfg "PAY0002"
            "TXN0002" (PayRequest.mk "R6" 7 5000 "COIN_VIDEO" "v1") world_funded _
            (ErrNew "余额不足") _).
  vm_compute. reflexivity.
Defined.

Lemma Pay_refuses_overdraft_witness :
  fst (PayService_Pay demo_Marshal demo_Format demo_cfg "PAY0002" "TXN0002"
         (PayRequest.mk "R6" 7 5000 "COIN_VIDEO" "v1") world_funded)
  = Err (ErrNew "余额不足").
Proof.
  refine (proj2 (Pay_refuses_overdraft demo_Marshal demo_Format demo_cfg "PAY0002"
                   "TXN0002" (PayRequest.mk "R6" 7 5000 "COIN_VIDEO" "v1") world_funded
                   _ _) _);
    [reflexivity | vm_compute; reflexivity | reflexivity].
Defined.

Lemma Pay_busy_witness :
  fst (PayService_Pay demo_Marshal demo_Format demo_cfg "PAY0001" "TXN0001"
         demo_pay_request world_funded_locked)
  = Err (ErrWrap "系统繁忙，请稍后重试" ErrLockFailed).
Proof.
  rewrite (Pay_busy demo_Marshal demo_Format demo_cfg "PAY0001" "TXN0001"
             demo_pay_request world_funded_locked "R5" (30 * Second));
    [reflexivity | reflexivity | vm_compute; reflexivity | vm_compute; reflexivity].
Defined.

Lemma Pay_stages_one_outbox_message_witness :
  exists m,
    outbox_message (db world_paid) !! outbox_auto_increment (db world_funded) = Some m /\
    OutboxMessage.MessageKey m = "PAY0001"%string /\
    OutboxMessage.Status m = "PENDING"%string.
Proof.
  destruct (Pay_stages_one_outbox_message demo_Marshal demo_Format demo_cfg "PAY0001"
              "TXN0001" demo_pay_request world_funded world_paid
              (PayResponse.mk "PAY0001" "PAID" 50 "支付成功"))
    as (m & _ & H2 & _ & _ & H5 & _ & H7 & _);
    [vm_compute; reflexivity | reflexivity |].
  exists m. split; [|split; [exact H5|exact H7]].
  rewrite H2. apply lookup_insert_eq.
Defined.

Lemma Pay_then_query_witness :
  PayService_QueryPayResultByRequestID "R4" world_paid
  = Ok (PayResponse.mk "PAY0001" "PAID" 50 "").
Proof.
  refine (proj1 (Pay_then_query demo_Marshal demo_Format demo_cfg "PAY0001" "TXN0001"
                   demo_pay_request world_funded world_paid
                   (PayResponse.mk "PAY0001" "PAID" 50 "支付成功") _)).
  vm_compute. reflexivity.
Defined.

Lemma Refund_changes_store_only_on_success_witness :
  db (snd (RefundService_Refund demo_Marshal demo_Format demo_cfg "REF0002" "TXN0003"
             demo_refund_request world_refunded))
  = db world_refunded.
Proof.
  refine (Refund_changes_store_only_on_success demo_Marshal demo_Format demo_cfg
            "REF0002" "TXN0003" demo_refund_request world_refunded _
            (Err (ErrRefundNotAllowed "REFUNDED")) _).
  vm_compute. reflexivity.
Defined.

Lemma Refund_stages_one_outbox_message_witness :
  exists m,
    outbox_message (db world_refunded) !! outbox_auto_increment (db world_paid) = Some m /\
    OutboxMessage.MessageKey m = "REF0001"%string /\
    OutboxMessage.Status m = "PENDING"%string.
Proof.
  destruct (Refund_stages_one_outbox_message demo_Marshal demo_Format demo_cfg "REF0001"
              "TXN0002" demo_refund_request world_paid world_refunded
              (RefundResponse.mk "REF0001" "PAY0001" 50 "REFUNDED" "退款成功"))
    as (m & _ & H2 & _ & _ & H5 & _ & H7 & _);
    [vm_compute; reflexivity | reflexivity |].
  exists m. split; [|split; [exact H5|exact H7]].
  rewrite H2. apply lookup_insert_eq.
Defined.

Lemma closeExpiredOrders_closes_the_expired_witness :
  map PayOrder.Status (pay_order (db (OrderTimeoutJob_closeExpiredOrders world_expired)))
  = ["CLOSED"%string].
Proof.
  destruct (closeExpiredOrders_closes_the_expired world_expired) as [_ G].
  - apply NoDup_ListNoDup. vm_compute. apply NoDup_singleton.
  - destruct G as [G _]; [vm_compute; discriminate|].
    rewrite G. vm_compute. reflexivity.
Defined.

Lemma CloseExpiredOrders_counts_the_selected_witness :
  fst (OrderService_CloseExpiredOrders 10 world_expired) = 1.
Proof.
  rewrite (proj1 (CloseExpiredOrders_counts_the_selected 10 world_expired
                    ltac:(apply NoDup_ListNoDup; vm_compute; apply NoDup_singleton))).
  vm_compute. reflexivity.
Defined.

Lemma world_outbox_keyed : outbox_keyed (db world_outbox).
Proof.
  intros id m. simpl. rewrite lookup_singleton_Some. now intros [<- <-].
Qed.

Lemma processPendingMessages_acts_row_by_row_witness :
  outbox_message (db (OutboxSender_processPendingMessages bus_down demo_cfg world_outbox))
  !! 1
  = outbox_message (db (OutboxSender_sendMessage bus_down demo_cfg outbox_row
                          world_outbox)) !! 1.
Proof.
  destruct (processPendingMessages_acts_row_by_row bus_down demo_cfg world_outbox
              world_outbox_keyed) as (_ & G & _).
  destruct (G outbox_row) as (_ & _ & H); [vm_compute; now left|exact H].
Defined.

Lemma processPendingMessages_drains_when_bus_up_witness :
  OutboxRepository.GetPendingMessages
    (db (OutboxSender_processPendingMessages bus_up demo_cfg world_outbox)) 100 = [].
Proof.
  refine (proj2 (processPendingMessages_drains_when_bus_up bus_up demo_cfg world_outbox
                   world_outbox_keyed _ _) 100);
    [reflexivity | vm_compute; discriminate].
Defined.

Lemma Generate_id_decodes_witness :
  Z.shiftr 20975616 idgen.timestampShift + idgen.epoch = idgen.epoch + 5 /\
  Z.land (Z.shiftr 20975616 idgen.workerIDShift) idgen.maxWorkerID = 1 /\
  Z.land 20975616 idgen.maxSequence = 0.
Proof.
  destruct (Generate_id_decodes demo_generator [idgen.epoch + 5] 20975616
              (idgen.mk (idgen.epoch + 5) 1 0) [])
    as (_ & H1 & H2 & H3 & _).
  - vm_compute. reflexivity.
  - vm_compute. split; discriminate.
  - repeat constructor; vm_compute; discriminate || reflexivity.
  - auto.
Defined.

Lemma Generate_ids_strictly_increase_witness :
  StronglySorted Z.lt [20975616; 20975617; 25169920].
Proof.
  refine (Generate_ids_strictly_increase 3 demo_generator
            [idgen.epoch + 5; idgen.epoch + 5; idgen.epoch + 6]
            [20975616; 20975617; 25169920] (idgen.mk (idgen.epoch + 6) 1 0) [] _ _ _ _).
  - vm_compute. reflexivity.
  - vm_compute. split; discriminate.
  - repeat constructor; vm_compute; discriminate.
  - repeat constructor; vm_compute; discriminate || reflexivity.
Defined.

Lemma Generate_waits_for_the_next_millisecond_witness :
  idgen.Generate (idgen.mk 7 1 4095) [7; 7; 7] = None /\
  exists out, idgen.Generate (idgen.mk 7 1 4095) [7; 7; 8] = Some out.
Proof.
  split.
  - refine (proj2 (proj2 (Generate_waits_for_the_next_millisecond (idgen.mk 7 1 4095)
                            [7; 7; 7])) 7 [7; 7] _ _ _ _);
      [reflexivity | reflexivity | reflexivity |].
    intros t Ht. simpl in Ht. simpl. lia.
  - refine (proj1 (Generate_waits_for_the_next_millisecond (idgen.mk 7 1 4095)
                     [7; 7; 8]) _).
    exists 8. split; [simpl; auto|simpl; lia].
Defined.

(** * Replays at any later time *)

Lemma orders_kept_refl (d : DB) : orders_kept d d.
Proof. exact (proj1 (history_kept_refl d)). Qed.

Lemma orders_kept_same (d d' : DB) : pay_order d' = pay_order d -> orders_kept d d'.
Proof.
  intros E. exists (pay_order d), []. rewrite E, app_nil_r. split; [reflexivity|].
  apply Forall2_moved_refl.
Qed.

Lemma orders_kept_trans (d1 d2 d3 : DB) :
  orders_kept d1 d2 -> orders_kept d2 d3 -> orders_kept d1 d3.
Proof.
  intros (l2 & add2 & E2 & F2) (l3 & add3 & E3 & F3).
  rewrite E2 in F3. apply Forall2_app_inv_l in F3 as (l3a & l3b & Fa & Fb & ->).
  exists l3a, (l3b ++ add3). split; [now rewrite E3, app_assoc|].
  eapply Forall2_moved_trans; eauto.
Qed.

Lemma orders_kept_perform_all (json_Marshal : list (string * json) -> string)
    (Format_RFC3339 : Z -> string)
    (mq_SendMessage : string -> string -> string -> option error) (cfg : Config)
    (ops : list operation) (w : World) :
  orders_kept (db w)
    (db (perform_all json_Marshal Format_RFC3339 mq_SendMessage cfg ops w)).
Proof.
  unfold perform_all. apply R_run.
  - apply orders_kept_refl.
  - apply orders_kept_trans.
  - intros now order tx tx' H. apply OrderRepository_Create_Ok in H as (_ & _ & ->).
    exists (pay_order tx), [PayOrder.created now order]. split; [reflexivity|].
    apply Forall2_moved_refl.
  - intros now orderNo fromStatus toStatus tx tx' H.
    exact (proj1 (history_kept_UpdateStatus _ _ _ _ _ _ H)).
  - intros u a d. now apply orders_kept_same.
  - intros now trans tx tx' H. apply TransactionRepository_Create_Ok in H as ->.
    now apply orders_kept_same.
  - intros now msg tx tx' H. apply OutboxRepository_Create_Ok in H as (_ & H & _).
    now apply orders_kept_same.
  - intros id set d d'. unfold OutboxRepository.update_by_id.
    destruct (outbox_message d !! id) as [m|];
      [|intros [= <-]; apply orders_kept_refl].
    destruct (set m) as [m'|]; [|discriminate].
    intros [= <-]. now apply orders_kept_same.
Qed.

Lemma Forall2_moved_find (p : PayOrder.t -> bool) (l l' : list PayOrder.t) :
  (forall a b, moved a b -> p b = p a) ->
  Forall2 moved l l' ->
  forall o, find p l = Some o -> exists o', find p l' = Some o' /\ moved o o'.
Proof.
  intros Hp H. induction H as [|a b l l' Hab _ IH]; intros o; simpl; [discriminate|].
  rewrite (Hp a b Hab). destruct (p a); [|apply IH].
  intros [= <-]. eauto.
Qed.

Lemma kept_GetByRequestID (d d' : DB) (requestID : string) (o : PayOrder.t) :
  orders_kept d d' ->
  OrderRepository.GetByRequestID d requestID = Some o ->
  exists o', OrderRepository.GetByRequestID d' requestID = Some o' /\ moved o o'.
Proof.
  intros (l' & added & E & F) H. unfold OrderRepository.GetByRequestID in *.
  destruct (Forall2_moved_find (OrderRepository.has_request_id requestID) _ _
              ltac:(intros a b (_ & Hr & _); unfold OrderRepository.has_request_id;
                    now rewrite Hr) F o H) as (o' & Hf & Hm).
  exists o'. split; [|exact Hm]. rewrite E. now apply find_app_some.
Qed.

Lemma kept_GetByOrderNo (d d' : DB) (orderNo : string) (o : PayOrder.t) :
  orders_kept d d' ->
  OrderRepository.GetByOrderNo d orderNo = Ok o ->
  exists o', OrderRepository.GetByOrderNo d' orderNo = Ok o' /\ moved o o'.
Proof.
  intros (l' & added & E & F) H. unfold OrderRepository.GetByOrderNo in *.
  destruct (find _ (pay_order d)) as [o0|] eqn:Ef; [|discriminate]. injection H as ->.
  destruct (Forall2_moved_find (OrderRepository.has_order_no orderNo) _ _
              ltac:(intros a b (Hn & _); unfold OrderRepository.has_order_no;
                    now rewrite Hn) F o Ef) as (o' & Hf & Hm).
  exists o'. split; [|exact Hm]. rewrite E. now rewrite (find_app_some _ _ _ _ Hf).
Qed.

Lemma refunded_is_final (s : string) :
  rtc edge model.OrderStatusRefunded s -> s = model.OrderStatusRefunded.
Proof.
  intros H. apply rtc_inv in H as [H|(y & He & _)]; [now symmetry|].
  exfalso. unfold edge, dag_edges in He. simpl in He.
  repeat (destruct He as [He|He]; [discriminate|]). exact He.
Qed.

Section Replays.

Variable json_Marshal : list (string * json) -> string.
Variable Format_RFC3339 : Z -> string.
Variable mq_SendMessage : string -> string -> string -> option error.
Variable cfg : Config.


(** X13. An order is refunded at most once: after a refund that was
    carried out the order reads REFUNDED, and from then on, whatever
    service calls and job rounds follow, every further refund request for
    that order number, whatever its request id, is turned down with the
    "status does not allow a refund" error and changes nothing. *)
Theorem refund_at_most_once (refundNo transactionNo : string) (req : RefundRequest.t)
    (w w1 : World) (r : RefundResponse.t) :
  RefundService_Refund json_Marshal Format_RFC3339 cfg refundNo transactionNo req w
  = (Ok r, w1) ->
  RefundResponse.Message r = "退款成功"%string ->
  (exists o, OrderRepository.GetByOrderNo (db w1) (RefundRequest.OrderNo req) = Ok o /\
             PayOrder.Status o = model.OrderStatusRefunded) /\
  forall ops refundNo' transactionNo' req' w2,
    db w2 = db (perform_all json_Marshal Format_RFC3339 mq_SendMessage cfg ops w1) ->
    RefundRequest.OrderNo req' = RefundRequest.OrderNo req ->
    RefundService_Refund json_Marshal Format_RFC3339 cfg refundNo' transactionNo' req' w2
    = (Err (ErrRefundNotAllowed model.OrderStatusRefunded), w2).
Proof.
  intros H Hm.
  destruct (Refund_done _ _ _ _ _ _ _ _ _ H Hm) as (order & now & Hg & Hs & He).
  destruct He as (_ & _ & _ & _ & Hord & _).
  assert (Hread : exists o,
            OrderRepository.GetByOrderNo (db w1) (RefundRequest.OrderNo req) = Ok o /\
            PayOrder.Status o = model.OrderStatusRefunded).
  { pose proof (GetByOrderNo_transitioned now (RefundRequest.OrderNo req)
                  (RefundRequest.OrderNo req) model.OrderStatusPaid
                  model.OrderStatusRefunding (db w)) as H1.
    rewrite Hg in H1.
    pose proof (GetByOrderNo_transitioned now (RefundRequest.OrderNo req)
                  (RefundRequest.OrderNo req) model.OrderStatusRefunding
                  model.OrderStatusRefunded
                  (with_pay_order
                     (transitioned now (RefundRequest.OrderNo req) model.OrderStatusPaid
                        model.OrderStatusRefunding (pay_order (db w))) (db w))) as H2.
    rewrite H1 in H2. clear H1.
    unfold OrderRepository.GetByOrderNo in H2 |- *. simpl pay_order in H2.
    rewrite Hord.
    destruct (find _ (transitioned now _ model.OrderStatusRefunding _ _)) as [o|];
      [|discriminate].
    injection H2 as ->. eexists. split; [reflexivity|].
    assert (Hno : OrderRepository.has_order_no (RefundRequest.OrderNo req) order = true).
    { unfold OrderRepository.GetByOrderNo in Hg.
      destruct (find _ _) eqn:Ef in Hg; [|discriminate]. injection Hg as ->.
      now apply find_some in Ef as [_ Ef]. }
    assert (Hm1 : OrderRepository.matches (RefundRequest.OrderNo req)
                    model.OrderStatusPaid order = true).
    { unfold OrderRepository.matches. rewrite Hno, Hs. reflexivity. }
    rewrite Hm1.
    assert (Hm2 : OrderRepository.matches (RefundRequest.OrderNo req)
                    model.OrderStatusRefunding
                    (PayOrder.set_status model.OrderStatusRefunding None now order)
                  = true).
    { unfold OrderRepository.matches, OrderRepository.has_order_no in *. simpl.
      rewrite Hno. reflexivity. }
    rewrite Hm2. reflexivity. }
  split; [exact Hread|].
  intros ops refundNo' transactionNo' req' w2 Hdb Hreq.
  destruct Hread as (o & Ho & Hos).
  destruct (kept_GetByOrderNo _ _ _ _
              (orders_kept_perform_all json_Marshal Format_RFC3339 mq_SendMessage cfg
                 ops w1) Ho) as (o' & Ho' & (_ & _ & _ & _ & Hst)).
  rewrite Hos in Hst. apply refunded_is_final in Hst.
  apply (Refund_rejects_refunded _ _ _ _ _ _ _ o'); [|exact Hst].
  now rewrite Hdb, Hreq.
Qed.

(** X19. CreateOrder is idempotent on the request id: the order a
    successful call returns is the row stored under that request id, and
    every later call with the same request id, whatever service calls and
    job rounds came in between, whatever the order number drawn and the
    other fields sent, creates no second order and changes nothing: it
    returns the order stored under the request id, which has the order
    number, request id, user and amount of the first answer and the status
    the order has by then (it is the very same row when the store has not
    changed).  A first call appends one CREATED row that expires after the
    configured timeout. *)
Theorem CreateOrder_idempotent (orderNo : string) (req : CreateOrderRequest.t)
    (w w1 : World) (o : PayOrder.t) :
  OrderService_CreateOrder cfg orderNo req w = (Ok o, w1) ->
  OrderRepository.GetByRequestID (db w1) (CreateOrderRequest.RequestID req) = Some o /\
  (forall ops orderNo' req' w2,
     db w2 = db (perform_all json_Marshal Format_RFC3339 mq_SendMessage cfg ops w1) ->
     CreateOrderRequest.RequestID req' = CreateOrderRequest.RequestID req ->
     exists o',
       OrderService_CreateOrder cfg orderNo' req' w2 = (Ok o', w2) /\
       moved o o' /\
       (db w2 = db w1 -> o' = o)) /\
  (OrderRepository.GetByRequestID (db w) (CreateOrderRequest.RequestID req) = None ->
   pay_order (db w1) = pay_order (db w) ++ [o] /\
   same_but_orders w w1 /\
   PayOrder.OrderNo o = orderNo /\
   PayOrder.Status o = model.OrderStatusCreated /\
   PayOrder.Amount o = CreateOrderRequest.Amount req /\
   PayOrder.ExpiredAt o
   = clock w + wrap64 (OrderTimeoutMinutes (Business cfg) * Minute)).
Proof.
  intros H. pose proof (CreateOrder_stored _ _ _ _ _ _ H) as Hs.
  split; [exact Hs|]. split.
  - intros ops orderNo' req' w2 Hdb Hreq.
    destruct (kept_GetByRequestID _ _ _ _
                (orders_kept_perform_all json_Marshal Format_RFC3339 mq_SendMessage cfg
                   ops w1) Hs) as (o' & Hg & Hmv).
    exists o'. split; [|split; [exact Hmv|]].
    + unfold OrderService_CreateOrder. now rewrite Hdb, Hreq, Hg.
    + intros Hsame. rewrite <- Hdb, Hsame, Hs in Hg. now injection Hg.
  - intros Hfresh. unfold OrderService_CreateOrder in H. rewrite Hfresh in H.
    destruct (OrderRepository.Create _ _ _) as [db'|e] eqn:Ec; [|discriminate].
    injection H as <- <-. apply OrderRepository_Create_Ok in Ec as (_ & _ & ->).
    simpl. repeat split.
Qed.

(** X20. The payment endpoint never charges for an order made by
    CreateOrder under the same request id: at any later time, whatever
    service calls and job rounds came in between, Pay answers with that
    order's number and amount, the status the order has by then and the
    message "订单已存在" (order exists), and changes nothing, so the
    order is never debited through its request id. *)
Theorem Pay_after_CreateOrder_never_charges (orderNo : string)
    (req : CreateOrderRequest.t) (w w1 : World) (o : PayOrder.t) :
  OrderService_CreateOrder cfg orderNo req w = (Ok o, w1) ->
  forall ops orderNo' transactionNo' preq w2,
    db w2 = db (perform_all json_Marshal Format_RFC3339 mq_SendMessage cfg ops w1) ->
    PayRequest.RequestID preq = CreateOrderRequest.RequestID req ->
    exists r,
      PayService_Pay json_Marshal Format_RFC3339 cfg orderNo' transactionNo' preq w2
      = (Ok r, w2) /\
      PayResponse.OrderNo r = PayOrder.OrderNo o /\
      PayResponse.Amount r = PayOrder.Amount o /\
      PayResponse.Message r = "订单已存在"%string /\
      rtc edge (PayOrder.Status o) (PayResponse.Status r) /\
      (db w2 = db w1 -> PayResponse.Status r = PayOrder.Status o).
Proof.
  intros H ops orderNo' transactionNo' preq w2 Hdb Hreq.
  apply CreateOrder_stored in H.
  destruct (kept_GetByRequestID _ _ _ _
              (orders_kept_perform_all json_Marshal Format_RFC3339 mq_SendMessage cfg
                 ops w1) H) as (o' & Hg & (Hn & _ & _ & Ha & Hs)).
  exists (PayService_exists o'). split.
  { apply Pay_replay. now rewrite Hreq, Hdb. }
  simpl. split; [exact Hn|]. split; [exact Ha|]. split; [reflexivity|].
  split; [exact Hs|].
  intros Hsame. rewrite <- Hdb, Hsame, H in Hg. now injection Hg as <-.
Qed.

End Replays.


Lemma refund_at_most_once_witness :
  RefundService_Refund demo_Marshal demo_Format demo_cfg "REF0002" "TXN0003"
    (RefundRequest.mk "F2" "PAY0001" "again")
    (perform_all demo_Marshal demo_Format bus_up demo_cfg
       [OpRecharge 7 5; OpProcessPendingMessages] world_refunded)
  = (Err (ErrRefundNotAllowed "REFUNDED"),
     perform_all demo_Marshal demo_Format bus_up demo_cfg
       [OpRecharge 7 5; OpProcessPendingMessages] world_refunded).
Proof.
  refine (proj2 (refund_at_most_once demo_Marshal demo_Format bus_up demo_cfg "REF0001"
                   "TXN0002" demo_refund_request world_paid world_refunded
                   (RefundResponse.mk "REF0001" "PAY0001" 50 "REFUNDED" "退款成功") _ _)
            [OpRecharge 7 5; OpProcessPendingMessages]
            "REF0002"%string "TXN0003"%string (RefundRequest.mk "F2" "PAY0001" "again")
            _ _ _);
    [vm_compute; reflexivity | reflexivity | reflexivity | reflexivity].
Defined.

Lemma CreateOrder_idempotent_witness :
  exists o',
    OrderService_CreateOrder demo_cfg "PAY0006" demo_create_request world_cancelled
    = (Ok o', world_cancelled) /\
    PayOrder.OrderNo o' = "PAY0005"%string /\ PayOrder.Amount o' = 50.
Proof.
  destruct (CreateOrder_idempotent demo_Marshal demo_Format bus_up demo_cfg "PAY0005"
              demo_create_request empty_World world_ordered
              (PayOrder.mk "PAY0005" "R5" 7 50 "COIN_VIDEO" "v1" "CREATED" (30 * Minute)
                 None 0 0))
    as (_ & G & _); [vm_compute; reflexivity|].
  destruct (G [OpCancelOrder "PAY0005"] "PAY0006"%string demo_create_request
              world_cancelled eq_refl eq_refl) as (o' & E & (Hn & _ & _ & Ha & _) & _).
  exists o'. split; [exact E|]. split; [exact Hn|exact Ha].
Defined.

Lemma Pay_after_CreateOrder_never_charges_witness :
  exists r,
    PayService_Pay demo_Marshal demo_Format demo_cfg "PAY0007" "TXN0007"
      (PayRequest.mk "R5" 7 50 "COIN_VIDEO" "v1") world_cancelled
    = (Ok r, world_cancelled) /\
    PayResponse.OrderNo r = "PAY0005"%string /\
    PayResponse.Message r = "订单已存在"%string.
Proof.
  destruct (Pay_after_CreateOrder_never_charges demo_Marshal demo_Format bus_up demo_cfg
              "PAY0005" demo_create_request empty_World world_ordered
              (PayOrder.mk "PAY0005" "R5" 7 50 "COIN_VIDEO" "v1" "CREATED" (30 * Minute)
                 None 0 0)
              ltac:(vm_compute; reflexivity)
              [OpCancelOrder "PAY0005"] "PAY0007"%string "TXN0007"%string
              (PayRequest.mk "R5" 7 50 "COIN_VIDEO" "v1") world_cancelled
              eq_refl eq_refl) as (r & E & Hn & _ & Hm & _).
  exists r. split; [exact E|]. split; [exact Hn|exact Hm].
Defined.

(** * The ledger follows the orders *)

Lemma rows_ok_transitioned (now : Z) (orderNo fromStatus toStatus : string)
    (l : list PayOrder.t) (ledger : list AccountTransaction.t) :
  model.CanTransitionTo fromStatus toStatus = true ->
  rows_ok l ledger -> rows_ok (transitioned now orderNo fromStatus toStatus l) ledger.
Proof.
  intros Hc [K J]. apply CanTransitionTo_edges in Hc. unfold transitioned. split.
  - intros x Hx. destruct (K x Hx) as (o & Ho & E).
    eexists. split; [apply in_map; exact Ho|].
    destruct (OrderRepository.matches orderNo fromStatus o); exact E.
  - intros x o' Hx Ho' E. apply in_map_iff in Ho' as (o & <- & Ho).
    destruct (OrderRepository.matches orderNo fromStatus o) eqn:Em; [|eauto].
    simpl in E. destruct (J x o Hx Ho E) as [Hp|Hst]; [now left|right].
    unfold OrderRepository.matches in Em. apply andb_true_iff in Em as [_ Em].
    apply bool_decide_eq_true in Em. simpl. rewrite Em in Hst.
    unfold dag_edges in Hc. simpl in Hc.
    destruct Hst as [-> | ->];
      repeat (destruct Hc as [Hc|Hc];
              [try discriminate; injection Hc as <-; auto|]);
      destruct Hc.
Qed.

Lemma rows_ok_new_order (l : list PayOrder.t) (x : PayOrder.t)
    (ledger : list AccountTransaction.t) :
  (forall o, In o l -> PayOrder.OrderNo o <> PayOrder.OrderNo x) ->
  rows_ok l ledger -> rows_ok (l ++ [x]) ledger.
Proof.
  intros Hfresh [K J]. split.
  - intros t Ht. destruct (K t Ht) as (o & Ho & E). exists o.
    split; [apply in_or_app; now left|exact E].
  - intros t o Ht Ho E. apply in_app_or in Ho as [Ho|[<-|[]]]; [eauto|].
    exfalso. destruct (K t Ht) as (o' & Ho' & E').
    apply (Hfresh o' Ho'). congruence.
Qed.

Lemma rows_ok_new_row (l : list PayOrder.t) (ledger : list AccountTransaction.t)
    (t : AccountTransaction.t) :
  rows_ok l ledger ->
  (exists o, In o l /\ PayOrder.OrderNo o = AccountTransaction.OrderNo t) ->
  (forall o, In o l -> PayOrder.OrderNo o = AccountTransaction.OrderNo t ->
     AccountTransaction.Type_ t = model.TransactionTypePay \/
     PayOrder.Status o = model.OrderStatusRefunding \/
     PayOrder.Status o = model.OrderStatusRefunded) ->
  rows_ok l (ledger ++ [t]).
Proof.
  intros [K J] Hk Hj. split.
  - intros x Hx. apply in_app_or in Hx as [Hx|[<-|[]]]; auto.
  - intros x o Hx Ho E. apply in_app_or in Hx as [Hx|[<-|[]]]; eauto.
Qed.

Lemma order_numbers_transitioned (now : Z) (orderNo fromStatus toStatus : string)
    (l : list PayOrder.t) :
  map PayOrder.OrderNo (transitioned now orderNo fromStatus toStatus l)
  = map PayOrder.OrderNo l.
Proof.
  unfold transitioned. rewrite map_map. apply map_ext.
  intros o. destruct (OrderRepository.matches _ _ o); reflexivity.
Qed.

Lemma relay_fold_frame (mq_SendMessage : string -> string -> string -> option error)
    (cfg : Config) (msgs : list OutboxMessage.t) (w : World) :
  same_but_outbox w
    (fold_left (fun w msg => OutboxSender_sendMessage mq_SendMessage cfg msg w) msgs w).
Proof.
  revert w. induction msgs as [|x rest IH]; intros w; simpl;
    [apply same_but_outbox_refl|].
  destruct (sendMessage_acts_on_its_row mq_SendMessage cfg x (clock w)) as (g & Hg).
  destruct (Hg w eq_refl) as (Hs & _).
  eapply same_but_outbox_trans; [exact Hs|apply IH].
Qed.

Section LedgerDiscipline.

Variable json_Marshal : list (string * json) -> string.
Variable Format_RFC3339 : Z -> string.
Variable mq_SendMessage : string -> string -> string -> option error.
Variable cfg : Config.

(** What an operation does to the order table keeps order numbers unique
    and keeps any ledger that followed the orders following them. *)
Lemma orders_step_perform (op : operation) (w : World) :
  List.NoDup (order_numbers (db w)) ->
  List.NoDup
    (order_numbers (db (perform json_Marshal Format_RFC3339 mq_SendMessage cfg op w))) /\
  forall ledger,
    rows_ok (pay_order (db w)) ledger ->
    rows_ok (pay_order (db (perform json_Marshal Format_RFC3339 mq_SendMessage cfg op w)))
      ledger.
Proof.
  assert (Hsame : forall d d', pay_order d' = pay_order d ->
            List.NoDup (order_numbers d) ->
            List.NoDup (order_numbers d') /\
            forall ledger, rows_ok (pay_order d) ledger -> rows_ok (pay_order d') ledger).
  { intros d d' E. unfold order_numbers. rewrite E. auto. }
  apply (R_perform json_Marshal Format_RFC3339 mq_SendMessage cfg
           (fun d d' =>
              List.NoDup (order_numbers d) ->
              List.NoDup (order_numbers d') /\
              forall ledger, rows_ok (pay_order d) ledger -> rows_ok (pay_order d') ledger)).
  - auto.
  - intros d1 d2 d3 H12 H23 Hn. destruct (H12 Hn) as [Hn2 H2].
    destruct (H23 Hn2) as [Hn3 H3]. auto.
  - intros now order tx tx' H Hn.
    apply OrderRepository_Create_Ok in H as (Hno & _ & ->).
    assert (Hfresh : forall o, In o (pay_order tx) ->
              PayOrder.OrderNo o <> PayOrder.OrderNo (PayOrder.created now order)).
    { intros o Ho. specialize (Hno o Ho). unfold OrderRepository.has_order_no in Hno.
      now apply bool_decide_eq_false in Hno. }
    split.
    + unfold order_numbers. simpl. rewrite map_app. simpl.
      apply NoDup_snoc; [exact Hn|]. intros Hin.
      apply in_map_iff in Hin as (o & E & Ho). exact (Hfresh o Ho E).
    + intros ledger. simpl. now apply rows_ok_new_order.
  - intros now orderNo fromStatus toStatus tx tx' H Hn.
    apply UpdateStatus_Ok in H as (Hc & ->). split.
    + unfold order_numbers. simpl. now rewrite order_numbers_transitioned.
    + intros ledger. simpl. now apply rows_ok_transitioned.
  - intros u a d. now apply Hsame.
  - intros now trans tx tx' H. apply TransactionRepository_Create_Ok in H as ->.
    now apply Hsame.
  - intros now msg tx tx' H. apply OutboxRepository_Create_Ok in H as (_ & H & _).
    now apply Hsame.
  - intros id set d d'. unfold OutboxRepository.update_by_id.
    destruct (outbox_message d !! id) as [m|]; [|intros [= <-]; now apply Hsame].
    destruct (set m) as [m'|]; [|discriminate].
    intros [= <-]. now apply Hsame.
Qed.

Lemma Pay_ledger_cases (orderNo transactionNo : string) (req : PayRequest.t) (w : World) :
  account_transaction
    (db (snd (PayService_Pay json_Marshal Format_RFC3339 cfg orderNo transactionNo req w)))
  = account_transaction (db w) \/
  exists now r,
    pay_effect cfg orderNo transactionNo req (db w) now r
      (db (snd (PayService_Pay json_Marshal Format_RFC3339 cfg orderNo transactionNo
                  req w))).
Proof.
  destruct (OrderRepository.GetByRequestID (db w) (PayRequest.RequestID req))
    as [o|] eqn:Eg.
  { left. now rewrite (Pay_replay _ _ _ _ _ _ _ o Eg). }
  destruct (PayService_Pay json_Marshal Format_RFC3339 cfg orderNo transactionNo req w)
    as [[r|e] w'] eqn:E.
  - right. destruct (Pay_fresh _ _ _ _ _ _ _ _ _ Eg E) as (now & He). simpl. eauto.
  - left. simpl. unfold PayService_Pay in E. rewrite Eg in E.
    destruct (lock.Lock _ _ _ w) as [[e0|] w1] eqn:El.
    + injection E as _ <-. now apply Lock_loop_failure in El as [-> _].
    + apply Lock_loop_success in El as [Hdb _].
      destruct (PayService_Pay_locked _ _ _ _ _ _ w1) as [r2 w2] eqn:Ep.
      injection E as -> <-. rewrite Unlock_db.
      apply Pay_locked_Err in Ep as (_ & Hl & _). now rewrite Hdb in Hl.
Qed.

Lemma Refund_ledger_cases (refundNo transactionNo : string) (req : RefundRequest.t)
    (w : World) :
  db (snd (RefundService_Refund json_Marshal Format_RFC3339 cfg refundNo transactionNo
             req w)) = db w \/
  exists order now r,
    OrderRepository.GetByOrderNo (db w) (RefundRequest.OrderNo req) = Ok order /\
    PayOrder.Status order = model.OrderStatusPaid /\
    refund_effect refundNo transactionNo req order (db w) now r
      (db (snd (RefundService_Refund json_Marshal Format_RFC3339 cfg refundNo
                  transactionNo req w))).
Proof.
  destruct (RefundService_Refund json_Marshal Format_RFC3339 cfg refundNo transactionNo
              req w) as [res w'] eqn:E.
  assert (Hq : match res with
               | Ok r => RefundResponse.Message r = "退款成功"%string \/ db w' = db w
               | Err _ => db w' = db w
               end).
  { revert E. unfold RefundService_Refund.
    destruct (OrderRepository.GetByOrderNo _ _) as [order|e].
    2:{ destruct (errors_Is e ErrOrderNotFound); intros [= <- <-]; reflexivity. }
    destruct (negb _); [intros [= <- <-]; reflexivity|].
    destruct (match TransactionRepository.GetByUserIDAndOrderNo _ _ _ with
              | Some x => _ | None => false end); [intros [= <- <-]; auto|].
    destruct (lock.Lock _ _ _ w) as [[e|] w1] eqn:El.
    - intros [= <- <-]. now apply Lock_loop_failure in El as [-> _].
    - apply Lock_loop_success in El as [Hdb _].
      destruct (RefundService_Refund_locked _ _ _ _ _ _ w1) as [r2 w2] eqn:Ep.
      intros [= <- <-]. rewrite Unlock_db. apply Refund_locked_quiet in Ep.
      rewrite Hdb in Ep. exact Ep. }
  simpl. destruct res as [r|e]; [|now left].
  destruct Hq as [Hm|Hq]; [|now left]. right.
  destruct (Refund_done _ _ _ _ _ _ _ _ _ E Hm) as (order & now & Hg & Hs & He). eauto 6.
Qed.

Lemma other_operations_keep_ledger (op : operation) (w : World) :
  match op with OpPay _ _ _ | OpRefund _ _ _ => False | _ => True end ->
  account_transaction (db (perform json_Marshal Format_RFC3339 mq_SendMessage cfg op w))
  = account_transaction (db w).
Proof.
  destruct op; simpl; intros H; try destruct H.
  - apply Recharge_ledger.
  - unfold OrderService_CreateOrder.
    destruct (OrderRepository.GetByRequestID _ _); [reflexivity|].
    destruct (OrderRepository.Create _ _ _) as [d'|e] eqn:Ec; [|reflexivity].
    now apply OrderRepository_Create_Ok in Ec as (_ & _ & ->).
  - unfold OrderService_CancelOrder.
    destruct (OrderRepository.GetByOrderNo _ _) as [order|e]; [|reflexivity].
    destruct (OrderRepository.UpdateStatus _ _ _ _ _) as [d'|e] eqn:Eu; [|reflexivity].
    now apply UpdateStatus_Ok in Eu as (_ & ->).
  - unfold OrderTimeoutJob_closeExpiredOrders.
    apply (close_orders_spec _ 0 w).
  - unfold PayingOrderCompensateJob_compensatePayingOrders. cbv zeta.
    apply (compensate_fold_settles cfg).
  - unfold OutboxSender_processPendingMessages. cbv zeta. apply relay_fold_frame.
  - reflexivity.
Qed.

Lemma ledger_ok_perform (op : operation) (w : World) :
  ledger_ok (db w) ->
  ledger_ok (db (perform json_Marshal Format_RFC3339 mq_SendMessage cfg op w)).
Proof.
  intros [Hn Hr]. destruct (orders_step_perform op w Hn) as [Hn' Hstep].
  split; [exact Hn'|]. specialize (Hstep _ Hr).
  destruct op;
    try (rewrite other_operations_keep_ledger by exact I; exact Hstep).
  - simpl perform in *.
    destruct (Pay_ledger_cases orderNo transactionNo req w) as [E|(now & r & He)];
      [now rewrite E|].
    destruct He as (_ & _ & _ & _ & _ & _ & Eord & Eled & _).
    rewrite Eled. apply rows_ok_new_row; [exact Hstep| |intros o _ _; now left].
    eexists. split; [rewrite Eord; apply in_or_app; right; now left|reflexivity].
  - simpl perform in *.
    destruct (Refund_ledger_cases refundNo transactionNo req w)
      as [E|(order & now & r & Hg & Hs & He)].
    { rewrite E. exact Hr. }
    destruct He as (_ & _ & _ & _ & Eord & Eled & _).
    assert (Hin : In order (pay_order (db w)) /\
                  PayOrder.OrderNo order = RefundRequest.OrderNo req).
    { unfold OrderRepository.GetByOrderNo in Hg.
      destruct (find _ _) as [o|] eqn:Ef; [|discriminate]. injection Hg as ->.
      apply find_some in Ef as [Hin Ho]. now apply bool_decide_eq_true in Ho. }
    destruct Hin as [Hin Hno].
    assert (Himg : forall o, In o (pay_order (db w)) ->
              PayOrder.OrderNo o = RefundRequest.OrderNo req ->
              exists o', PayOrder.OrderNo o' = RefundRequest.OrderNo req /\
                         PayOrder.Status o' = model.OrderStatusRefunded /\
                         (if OrderRepository.matches (RefundRequest.OrderNo req)
                               model.OrderStatusRefunding
                               (if OrderRepository.matches (RefundRequest.OrderNo req)
                                     model.OrderStatusPaid o
                                then PayOrder.set_status model.OrderStatusRefunding None
                                       now o
                                else o)
                          then PayOrder.set_status model.OrderStatusRefunded None now
                                 (if OrderRepository.matches (RefundRequest.OrderNo req)
                                       model.OrderStatusPaid o
                                  then PayOrder.set_status model.OrderStatusRefunding None
                                         now o
                                  else o)
                          else if OrderRepository.matches (RefundRequest.OrderNo req)
                                    model.OrderStatusPaid o
                               then PayOrder.set_status model.OrderStatusRefunding None
                                      now o
                               else o) = o').
    { intros o Ho Eo.
      assert (o = order) as ->.
      { apply (NoDup_map_inj_in PayOrder.OrderNo (pay_order (db w))); auto. congruence. }
      assert (Hm1 : OrderRepository.matches (RefundRequest.OrderNo req)
                      model.OrderStatusPaid order = true).
      { unfold OrderRepository.matches, OrderRepository.has_order_no.
        rewrite Hs, !bool_decide_eq_true_2; auto. }
      rewrite Hm1.
      assert (Hm2 : OrderRepository.matches (RefundRequest.OrderNo req)
                      model.OrderStatusRefunding
                      (PayOrder.set_status model.OrderStatusRefunding None now order)
                    = true).
      { unfold OrderRepository.matches, OrderRepository.has_order_no. simpl.
        rewrite !bool_decide_eq_true_2; auto. }
      rewrite Hm2. eexists. split; [|split; [|reflexivity]]; [exact Hno|reflexivity]. }
    rewrite Eled. apply rows_ok_new_row; [exact Hstep| |].
    + destruct (Himg order Hin Hno) as (o' & Hn1 & _ & Ho').
      exists o'. split; [|exact Hn1]. rewrite Eord. unfold transitioned.
      rewrite map_map. apply in_map_iff. exists order. split; [|exact Hin].
      rewrite (bool_decide_eq_false_2 (model.OrderStatusRefunding = model.OrderStatusPaid))
        by discriminate.
      rewrite (bool_decide_eq_false_2 (model.OrderStatusRefunded = model.OrderStatusPaid))
        by discriminate.
      exact Ho'.
    + intros o' Ho' Eo'. right. right. rewrite Eord in Ho'. unfold transitioned in Ho'.
      rewrite map_map in Ho'. apply in_map_iff in Ho' as (o & Ho' & Ho).
      rewrite (bool_decide_eq_false_2 (model.OrderStatusRefunding = model.OrderStatusPaid)) in Ho'
        by discriminate.
      rewrite (bool_decide_eq_false_2 (model.OrderStatusRefunded = model.OrderStatusPaid)) in Ho'
        by discriminate.
      assert (Eo : PayOrder.OrderNo o = RefundRequest.OrderNo req).
      { rewrite <- Ho' in Eo'. simpl in Eo'.
        destruct (OrderRepository.matches _ model.OrderStatusPaid o);
          [destruct (OrderRepository.matches _ model.OrderStatusRefunding _)|
           destruct (OrderRepository.matches _ model.OrderStatusRefunding _)];
          exact Eo'. }
      destruct (Himg o Ho Eo) as (o'' & _ & Hst & Ho'').
      rewrite Ho'' in Ho'. now subst o''.
Qed.

Lemma ledger_ok_perform_all (ops : list operation) (w : World) :
  ledger_ok (db w) ->
  ledger_ok (db (perform_all json_Marshal Format_RFC3339 mq_SendMessage cfg ops w)).
Proof.
  unfold perform_all. revert w. induction ops as [|op ops IH]; intros w H; simpl;
    [exact H|].
  apply IH. now apply ledger_ok_perform.
Qed.

(** C8.  Take any store in which order numbers are unique and the ledger
    follows the orders (the empty store is one; so is a store with orders
    in PAYING and their PAY rows), perform whatever service calls and job
    rounds, and hand an order that is then in status PAYING to the
    compensation.  If a PAY ledger row exists for its order number the job
    drives PAYING -> PAID through the guarded transition; otherwise it
    drives PAYING -> FAILED when the order was created longer ago than the
    order-timeout, and leaves the world unchanged when it was not. *)
Theorem compensate_order_rule (ops : list operation) (w0 : World) (order : PayOrder.t) :
  ledger_ok (db w0) ->
  let w := perform_all json_Marshal Format_RFC3339 mq_SendMessage cfg ops w0 in
  In order (pay_order (db w)) ->
  PayOrder.Status order = model.OrderStatusPaying ->
  let pay_row_exists :=
    exists x, In x (account_transaction (db w)) /\
              AccountTransaction.OrderNo x = PayOrder.OrderNo order /\
              AccountTransaction.Type_ x = model.TransactionTypePay in
  (pay_row_exists ->
   PayingOrderCompensateJob_compensateOrder cfg order w
   = drive model.OrderStatusPaying model.OrderStatusPaid (PayOrder.OrderNo order) w) /\
  (~ pay_row_exists ->
   orderTimeout cfg < time_Since (clock w) (PayOrder.CreatedAt order) ->
   PayingOrderCompensateJob_compensateOrder cfg order w
   = drive model.OrderStatusPaying model.OrderStatusFailed (PayOrder.OrderNo order) w) /\
  (~ pay_row_exists ->
   time_Since (clock w) (PayOrder.CreatedAt order) <= orderTimeout cfg ->
   PayingOrderCompensateJob_compensateOrder cfg order w = w).
Proof.
  intros Hok w Hin Hst pay_row_exists.
  destruct (ledger_ok_perform_all ops w0 Hok) as [_ [_ J]]. fold w in J.
  assert (Hiff : pay_row_exists <->
            exists x,
              TransactionRepository.GetByOrderNo (db w) (PayOrder.OrderNo order) = Some x /\
              AccountTransaction.Type_ x = model.TransactionTypePay).
  { apply first_row_decides_when_only_pay_rows. intros x Hx Ex.
    destruct (J x order Hx Hin (eq_sym Ex)) as [Hp|[Hr|Hr]]; [exact Hp| |];
      rewrite Hst in Hr; discriminate. }
  destruct (compensateOrder_first_row cfg order w) as (G1 & G2 & G3).
  split; [|split].
  - intros Hp. apply G1. now apply Hiff.
  - intros Hp. apply G2. intros Hf. apply Hp. now apply Hiff.
  - intros Hp. apply G3. intros Hf. apply Hp. now apply Hiff.
Qed.

End LedgerDiscipline.

Lemma world_stuck_paid_ok : ledger_ok (db world_stuck_paid).
Proof.
  split; [apply NoDup_ListNoDup; vm_compute; apply NoDup_singleton|]. split.
  - intros x [<-|[]]. eexists. split; [left; reflexivity|reflexivity].
  - intros x o [<-|[]] _ _. now left.
Qed.

Lemma world_stuck_unpaid_ok (now : Z) :
  ledger_ok (db (mkWorld (db world_stuck_unpaid) ∅ [] now)).
Proof.
  split; [apply NoDup_ListNoDup; vm_compute; apply NoDup_singleton|].
  split; [intros x []|intros x o []].
Qed.

(** C8 on the stuck order.  With its PAY row in the ledger the order is
    marked PAID, also after user 7 has recharged and paid another order in
    between; without a ledger row it is marked FAILED when it is ten hours
    old and left alone when it is ten minutes old. *)
Lemma compensate_order_rule_witness :
  map PayOrder.Status
    (pay_order
       (db (PayingOrderCompensateJob_compensateOrder demo_cfg stuck_order
              (perform_all demo_Marshal demo_Format bus_up demo_cfg
                 [OpRecharge 7 1000; OpPay "PAY0001" "TXN0001" demo_pay_request]
                 world_stuck_paid))))
  = ["PAID"%string; "PAID"%string] /\
  map PayOrder.Status
    (pay_order (db (PayingOrderCompensateJob_compensateOrder demo_cfg stuck_order
                      world_stuck_unpaid)))
  = ["FAILED"%string] /\
  PayingOrderCompensateJob_compensateOrder demo_cfg stuck_order
    (mkWorld (db world_stuck_unpaid) ∅ [] (10 * Minute))
  = mkWorld (db world_stuck_unpaid) ∅ [] (10 * Minute).
Proof.
  split; [|split].
  - destruct (compensate_order_rule demo_Marshal demo_Format bus_up demo_cfg
                [OpRecharge 7 1000; OpPay "PAY0001" "TXN0001" demo_pay_request]
                world_stuck_paid stuck_order world_stuck_paid_ok) as (G & _ & _).
    + vm_compute. now left.
    + reflexivity.
    + rewrite G; [vm_compute; reflexivity|].
      eexists. split; [vm_compute; left; reflexivity|]. split; reflexivity.
  - destruct (compensate_order_rule demo_Marshal demo_Format bus_up demo_cfg []
                (mkWorld (db world_stuck_unpaid) ∅ [] (600 * Minute)) stuck_order
                (world_stuck_unpaid_ok (600 * Minute))) as (_ & G & _).
    + now left.
    + reflexivity.
    + change world_stuck_unpaid
        with (perform_all demo_Marshal demo_Format bus_up demo_cfg []
                (mkWorld (db world_stuck_unpaid) ∅ [] (600 * Minute))).
      rewrite G; [reflexivity| |vm_compute; reflexivity].
      intros (x & Hx & _). destruct Hx.
  - destruct (compensate_order_rule demo_Marshal demo_Format bus_up demo_cfg []
                (mkWorld (db world_stuck_unpaid) ∅ [] (10 * Minute)) stuck_order
                (world_stuck_unpaid_ok (10 * Minute))) as (_ & _ & G).
    + now left.
    + reflexivity.
    + apply G; [|vm_compute; discriminate].
      intros (x & Hx & _). destruct Hx.
Defined.

Lemma empty_ledger_ok : ledger_ok empty_DB.
Proof.
  split; [apply List.NoDup_nil|]. split; [intros x []|intros x o []].
Qed.
